(** * backend-v1: query, pagination and cart layer of [index.mjs]

    A shallow embedding of the request handlers of [src/index.mjs]
    (catalog query, filter options, product by id, feed query, feed
    categories, location lookups and the in-memory cart) and of the city
    generator of [src/create.mjs], together with the properties stated for
    them in the specification and further properties of the code.

    Modelling conventions.
    - A Number is given by its exact value.  The Numbers that [parseInt]
      returns for [page] and [limit], and the products and sums made of
      them, are values of [JS.integral]: binary64 rounding and the
      infinities are part of the model.  Prices and ratings are fractions
      ([Q]), the exact values of the Numbers; the products and sums of the
      cart summary are rounded to binary64.  Ids, stocks and quantities
      are integers ([Z]) below [2^53] in magnitude, which are Numbers and
      which an id string denotes exactly.
    - A string is a sequence of code units below 256 ([string]).
      Query-string values are strings ([option string], [None] when the key
      is absent, in which case the destructuring default applies).
    - In a JSON body a [productId] is a number of integral value or a
      string and a [quantity] is an integer; [None] is a key the body does
      not carry.
    - [String.prototype.toLowerCase], [String.prototype.localeCompare] and
      [parseFloat] belong to the host runtime.  They are fields of the
      class [Host]; every theorem holds for every host.
    - The [cart] object is a finite map from session ids to carts, its own
      properties, together with the members it inherits from
      [Object.prototype].
    - The clock ([new Date()]) and the generated session id are arguments
      of the handlers. *)

From Stdlib Require Import ZArith QArith Qround Qabs Lqa String Ascii List Bool Lia.
From Stdlib Require Import Permutation Sorted.
From Stdlib Require Import Decimal DecimalString DecimalPos DecimalZ.
From Stdlib Require OrderedTypeEx.
From stdpp Require Import base option list gmap strings.

Local Open Scope string_scope.
Local Open Scope Z_scope.

(** ** JavaScript primitives used by the handlers *)

Module JS.

(** A Number: a finite value, an infinity, or [NaN].  A finite Number is
    given by its exact value; the sign of a zero is not kept, since the
    handlers compare, slice and print, which do not tell the zeros
    apart. *)
Inductive number :=
| NaN
| NegInf
| Fin (q : Q)
| PosInf.

(** [x >= b] and [x <= b] for a finite left operand; every comparison with
    [NaN] is false. *)
Definition geb (x : Q) (b : number) : bool :=
  match b with
  | NaN => false
  | NegInf => true
  | Fin y => Qle_bool y x
  | PosInf => false
  end.

Definition leb (x : Q) (b : number) : bool :=
  match b with
  | NaN => false
  | NegInf => false
  | Fin y => Qle_bool x y
  | PosInf => true
  end.

(** The order of the extended reals on [number]; [NaN] is unordered. *)
Definition le (a b : number) : Prop :=
  match a, b with
  | NaN, _ | _, NaN => False
  | NegInf, _ => True
  | _, PosInf => True
  | Fin x, Fin y => (x <= y)%Q
  | _, _ => False
  end.

(** *** [parseInt] on strings, radix argument omitted

    Leading white space, a sign, a [0x] prefix, then the longest run of
    digits; [NaN] when there is none.  [parseInt] below is the integer
    that the digits denote; [to_number] makes it the Number that the
    handlers compute with.  The white space among the code units below
    256 is TAB, LF, VT, FF, CR, SP and NBSP. *)

Definition is_white_space (c : ascii) : bool :=
  match N_of_ascii c with
  | 9%N | 10%N | 11%N | 12%N | 13%N | 32%N | 160%N => true
  | _ => false
  end.

Fixpoint trim_start (s : string) : string :=
  match s with
  | String c s' => if is_white_space c then trim_start s' else s
  | EmptyString => s
  end.

Definition digit_value (c : ascii) : option Z :=
  let n := Z.of_N (N_of_ascii c) in
  if (48 <=? n) && (n <=? 57) then Some (n - 48)
  else if (97 <=? n) && (n <=? 122) then Some (n - 87)
  else if (65 <=? n) && (n <=? 90) then Some (n - 55)
  else None.

(** Longest prefix of digits in the radix; [acc] is [None] until a first
    digit has been read. *)
Fixpoint parse_digits (radix : Z) (s : string) (acc : option Z) : option Z :=
  match s with
  | String c s' =>
      match digit_value c with
      | Some d =>
          if d <? radix
          then parse_digits radix s' (Some (default 0 acc * radix + d))
          else acc
      | None => acc
      end
  | EmptyString => acc
  end.

Definition parseInt (input : string) : option Z :=
  let s := trim_start input in
  let '(sign, s) :=
    match s with
    | String "-" r => (-1, r)
    | String "+" r => (1, r)
    | _ => (1, s)
    end in
  let '(radix, s) :=
    match s with
    | String "0" (String "x" r) => (16, r)
    | String "0" (String "X" r) => (16, r)
    | _ => (10, s)
    end in
  match parse_digits radix s None with
  | Some n => Some (sign * n)
  | None => None
  end.

(** *** Arithmetic and comparison on possibly-[NaN] integers

    Used where an offset is added to a length-bounded index and compared
    with a length (the feed): there rounding to binary64 changes no
    outcome for offsets that are not negative. *)

Definition add (a b : option Z) : option Z :=
  match a, b with Some x, Some y => Some (x + y) | _, _ => None end.

Definition ltb (a b : option Z) : bool :=
  match a, b with Some x, Some y => x <? y | _, _ => false end.

(** *** Numbers of integral value

    The Number for an integer is the binary64 value nearest to it, with a
    tie going to the even significand, and an infinity when that value
    would reach [2^1024].  Integers up to [2^53] in magnitude are Numbers.
    Sums, differences and products of Numbers of integral value are the
    exact results rounded in this way; they are again of integral value,
    infinite or [NaN]. *)
Inductive integral :=
| INaN
| INegInf
| Int (z : Z)
| IPosInf.

(** The integer nearest to [n / 2^e], the even one on a tie ([e >= 1]). *)
Definition nearest_even (n e : Z) : Z :=
  let m := n / 2 ^ e in
  let r := n mod 2 ^ e in
  let half := 2 ^ (e - 1) in
  if r <? half then m
  else if half <? r then m + 1
  else if Z.even m then m else m + 1.

(** Rounding of a natural number to 53 significant bits. *)
Definition round53 (n : Z) : Z :=
  if n <? 2 ^ 53 then n
  else let e := Z.log2 n - 52 in nearest_even n e * 2 ^ e.

Definition to_number (z : Z) : integral :=
  let r := round53 (Z.abs z) in
  if 2 ^ 1024 <=? r then (if z <? 0 then INegInf else IPosInf)
  else Int (Z.sgn z * r).

(** The Number that [parseInt] returns. *)
Definition parseInt_number (input : string) : integral :=
  match parseInt input with
  | Some z => to_number z
  | None => INaN
  end.

Definition minus (a b : integral) : integral :=
  match a, b with
  | INaN, _ | _, INaN => INaN
  | Int x, Int y => to_number (x - y)
  | IPosInf, IPosInf | INegInf, INegInf => INaN
  | IPosInf, _ | _, INegInf => IPosInf
  | INegInf, _ | _, IPosInf => INegInf
  end.

Definition plus (a b : integral) : integral :=
  match a, b with
  | INaN, _ | _, INaN => INaN
  | Int x, Int y => to_number (x + y)
  | IPosInf, INegInf | INegInf, IPosInf => INaN
  | IPosInf, _ | _, IPosInf => IPosInf
  | INegInf, _ | _, INegInf => INegInf
  end.

Definition sign (a : integral) : Z :=
  match a with
  | INaN => 0
  | INegInf => -1
  | Int z => Z.sgn z
  | IPosInf => 1
  end.

(** An infinity times zero is [NaN]. *)
Definition times (a b : integral) : integral :=
  match a, b with
  | INaN, _ | _, INaN => INaN
  | Int x, Int y => to_number (x * y)
  | _, _ =>
      match sign a * sign b with
      | Z0 => INaN
      | Zpos _ => IPosInf
      | Zneg _ => INegInf
      end
  end.

(** [a < b]; every comparison with [NaN] is false. *)
Definition less (a b : integral) : bool :=
  match a, b with
  | INaN, _ | _, INaN => false
  | Int x, Int y => x <? y
  | INegInf, INegInf | IPosInf, _ | _, INegInf => false
  | INegInf, _ | _, IPosInf => true
  end.

(** A Number as JSON prints it: [NaN] and the infinities become [null],
    which is [None]. *)
Definition json (a : integral) : option Z :=
  match a with
  | Int z => Some z
  | _ => None
  end.

(** [Math.ceil(n / d)] as JSON prints it, for a length [n] (an integer
    from 0 to [2^32 - 1]).  For a finite [d] other than 0 the binary64
    quotient lies strictly between the same two consecutive integers as
    the exact one, or is the same integer: a quotient that is no integer
    differs from the integers by [1 / |d|] at least, and rounding moves
    it by less.  So [Math.ceil] returns the exact ceiling.  A quotient by
    an infinity is a zero; a quotient by zero is infinite or [NaN]. *)
Definition ceil_div (n : Z) (d : integral) : option Z :=
  match d with
  | Int d => if d =? 0 then None else Some (- ((- n) / d))
  | INegInf | IPosInf => Some 0
  | INaN => None
  end.

(** *** [Array.prototype.slice(start, end)] *)

Definition to_integer (x : option Z) : Z := default 0 x.

Definition relative_index (len rel : Z) : Z :=
  if rel <? 0 then Z.max (len + rel) 0 else Z.min rel len.

Definition slice {A} (l : list A) (start end_ : option Z) : list A :=
  let len := Z.of_nat (length l) in
  let k := relative_index len (to_integer start) in
  let final := relative_index len (to_integer end_) in
  firstn (Z.to_nat (final - k)) (skipn (Z.to_nat k) l).

(** [slice] with Numbers as bounds.  [ToIntegerOrInfinity] takes [NaN] to
    0 and keeps an integer; [+Infinity] is clamped to the length and
    [-Infinity] to 0, as the bounds [len] and [-len] are. *)
Definition bound (len : Z) (x : integral) : option Z :=
  match x with
  | INaN => None
  | INegInf => Some (- len)
  | Int z => Some z
  | IPosInf => Some len
  end.

Definition slice_numbers {A} (l : list A) (start end_ : integral) : list A :=
  let len := Z.of_nat (length l) in
  slice l (bound len start) (bound len end_).

(** *** [Array.prototype.push] of one element *)

Definition push {A} (l : list A) (x : A) : list A := (l ++ [x])%list.

(** *** [String.prototype.includes] *)

Fixpoint includes (s t : string) : bool :=
  String.prefix t s ||
  match s with
  | String _ s' => includes s' t
  | EmptyString => false
  end.

(** *** [Array.prototype.sort(compare)]

    The sort is stable; [compare a b <= 0] keeps [a] before [b].  For a
    consistent comparator the result is the unique stable ordering, which
    insertion from the right computes. *)

Section Sort.
Context {A : Type} (compare : A -> A -> Q).

Fixpoint sort_insert (a : A) (l : list A) : list A :=
  match l with
  | [] => [a]
  | b :: l' =>
      if Qle_bool (compare a b) 0 then a :: b :: l'
      else b :: sort_insert a l'
  end.

Definition sort (l : list A) : list A := fold_right sort_insert [] l.

End Sort.

(** *** binary64 arithmetic on fractions

    [binary64 x] is the Number nearest to the rational [x]: 53 significant
    bits, the even significand on a tie, steps of [2^-1074] near zero, an
    infinity when the rounded value would reach [2^1024].  The sum and the
    product of two finite Numbers are the exact results, rounded. *)

(** The integer part of the binary logarithm of a positive fraction in
    lowest terms. *)
Definition ilog2 (x : Q) : Z :=
  let k := Z.log2 (Qnum x) - Z.log2 (Zpos (Qden x)) in
  if Qle_bool (Qpower 2 k) x then k else k - 1.

(** The integer nearest to [x], the even one on a tie. *)
Definition nearest_even_Q (x : Q) : Z :=
  let f := Qfloor x in
  match Qcompare (x - inject_Z f) (1 # 2) with
  | Lt => f
  | Gt => f + 1
  | Eq => if Z.even f then f else f + 1
  end.

Definition binary64 (x : Q) : number :=
  let x := Qred x in
  if Qeq_bool x 0 then Fin 0
  else
    let a := Qabs x in
    let e := Z.max (ilog2 a - 52) (-1074) in
    let v := (inject_Z (nearest_even_Q (a / Qpower 2 e)) * Qpower 2 e)%Q in
    if Qle_bool (Qpower 2 1024) v
    then (if Qle_bool 0 x then PosInf else NegInf)
    else Fin (Qred (if Qle_bool 0 x then v else - v)).

Definition add64 (a b : number) : number :=
  match a, b with
  | NaN, _ | _, NaN => NaN
  | Fin x, Fin y => binary64 (x + y)
  | PosInf, NegInf | NegInf, PosInf => NaN
  | PosInf, _ | _, PosInf => PosInf
  | NegInf, _ | _, NegInf => NegInf
  end.

End JS.

(** The host runtime: locale- and Unicode-dependent string operations and
    decimal-to-number parsing. *)
Class Host := {
  toLowerCase : string -> string;
  localeCompare : string -> string -> Z;
  parseFloat : string -> JS.number
}.

(** An ASCII host, used to evaluate the handlers on concrete requests:
    lower-casing of [A]-[Z], comparison by code unit, and [parseFloat] on
    signed decimal literals without exponent and on [Infinity]. *)
Definition ascii_lower (c : ascii) : ascii :=
  let n := N_of_ascii c in
  if ((65 <=? n) && (n <=? 90))%N then ascii_of_N (n + 32) else c.

Fixpoint ascii_toLowerCase (s : string) : string :=
  match s with
  | String c s' => String (ascii_lower c) (ascii_toLowerCase s')
  | EmptyString => EmptyString
  end.

Definition ascii_localeCompare (a b : string) : Z :=
  match String.compare a b with
  | Lt => -1
  | Eq => 0
  | Gt => 1
  end.

(** Leading decimal digits: their value, their number, and the rest. *)
Fixpoint decimal_digits (s : string) (value : Z) (count : nat)
  : Z * nat * string :=
  match s with
  | String c s' =>
      match JS.digit_value c with
      | Some d =>
          if d <? 10 then decimal_digits s' (value * 10 + d) (S count)
          else (value, count, s)
      | None => (value, count, s)
      end
  | EmptyString => (value, count, s)
  end.

Definition ascii_parseFloat (s : string) : JS.number :=
  let t := JS.trim_start s in
  let '(negative, t) :=
    match t with
    | String "-" r => (true, r)
    | String "+" r => (false, r)
    | _ => (false, t)
    end in
  if String.prefix "Infinity" t
  then (if negative then JS.NegInf else JS.PosInf)
  else
    let '(int, int_digits, rest) := decimal_digits t 0 0 in
    let '(frac, frac_digits, _) :=
      match rest with
      | String "." r => decimal_digits r 0 0
      | _ => (0, 0%nat, rest)
      end in
    if (int_digits + frac_digits =? 0)%nat then JS.NaN
    else
      let v := (inject_Z int +
                Qmake frac (Z.to_pos (10 ^ Z.of_nat frac_digits)))%Q in
      JS.Fin (if negative then (- v)%Q else v).

Definition ascii_host : Host :=
  {| toLowerCase := ascii_toLowerCase;
     localeCompare := ascii_localeCompare;
     parseFloat := ascii_parseFloat |}.

(** ** Data model *)

(** The numbers of a record are the Numbers that [JSON.parse] made of
    the literals of the data files: [price] and [rating] are given by
    their exact values, [id] and [stock] are of integral value. *)
Record Product := {
  id : Z;
  name : string;
  description : string;
  tags : list string;
  category : string;
  subcategory : string;
  brand : string;
  price : Q;
  rating : Q;
  inStock : bool;
  stock : Z;
  image : string
}.

Record FeedItem := {
  feed_id : Z;
  feed_category : string;
  feed_title : string
}.

(** A truthy string is a non-empty one. *)
Definition truthy (s : string) : bool :=
  match s with EmptyString => false | _ => true end.

(** ** 1. Product search and filter: [GET /api/products] *)

Module Products.

(** [req.query]; an absent key takes the default of the destructuring
    pattern. *)
Record Query := {
  search : option string;
  q_category : option string;
  q_subcategory : option string;
  q_brand : option string;
  minPrice : option string;
  maxPrice : option string;
  minRating : option string;
  q_sort : option string;
  order : option string;
  page : option string;
  limit : option string;
  q_inStock : option string
}.

(** The numbers of the pagination object as JSON prints them. *)
Record Pagination := {
  currentPage : option Z;
  totalPages : option Z;
  totalItems : Z;
  itemsPerPage : option Z;
  hasNextPage : bool;
  hasPrevPage : bool
}.

Record Response := {
  data : list Product;
  pagination : Pagination
}.

Section Handler.
Context `{Host}.
Variable products : list Product.

Definition matches_search (searchLower : string) (p : Product) : bool :=
  JS.includes (toLowerCase (name p)) searchLower ||
  JS.includes (toLowerCase (description p)) searchLower ||
  existsb (fun tag => JS.includes (toLowerCase tag) searchLower) (tags p).

Definition search_filter (q : Query) (l : list Product) : list Product :=
  let search := default "" (search q) in
  if truthy search
  then List.filter (matches_search (toLowerCase search)) l
  else l.

Definition category_filter (q : Query) (l : list Product) : list Product :=
  let c := default "" (q_category q) in
  if truthy c
  then List.filter
         (fun p => String.eqb (toLowerCase (category p)) (toLowerCase c)) l
  else l.

Definition subcategory_filter (q : Query) (l : list Product) : list Product :=
  let c := default "" (q_subcategory q) in
  if truthy c
  then List.filter
         (fun p => String.eqb (toLowerCase (subcategory p)) (toLowerCase c)) l
  else l.

Definition brand_filter (q : Query) (l : list Product) : list Product :=
  let c := default "" (q_brand q) in
  if truthy c
  then List.filter
         (fun p => String.eqb (toLowerCase (brand p)) (toLowerCase c)) l
  else l.

(** [parseFloat(minPrice)] and its siblings; the defaults [0] and
    [Infinity] are numbers and parse to themselves. *)
Definition min_price (q : Query) : JS.number :=
  match minPrice q with Some s => parseFloat s | None => JS.Fin 0 end.

Definition max_price (q : Query) : JS.number :=
  match maxPrice q with Some s => parseFloat s | None => JS.PosInf end.

Definition min_rating (q : Query) : JS.number :=
  match minRating q with Some s => parseFloat s | None => JS.Fin 0 end.

Definition price_filter (q : Query) (l : list Product) : list Product :=
  List.filter
    (fun p => JS.geb (price p) (min_price q) && JS.leb (price p) (max_price q))
    l.

Definition rating_filter (q : Query) (l : list Product) : list Product :=
  List.filter (fun p => JS.geb (rating p) (min_rating q)) l.

Definition stock_filter (q : Query) (l : list Product) : list Product :=
  let s := default "" (q_inStock q) in
  if String.eqb s "true"
  then List.filter (fun p => Bool.eqb (inStock p) true && (0 <? stock p)) l
  else if String.eqb s "false"
  then List.filter (fun p => Bool.eqb (inStock p) false || (stock p =? 0)) l
  else l.

(** The filter chain of the handler, in source order: the filters up to
    the rating filter, then the stock filter. *)
Definition before_stock (q : Query) : list Product :=
  rating_filter q
    (price_filter q
       (brand_filter q
          (subcategory_filter q
             (category_filter q
                (search_filter q products))))).

Definition filtered (q : Query) : list Product :=
  stock_filter q (before_stock q).

(** The comparator handed to [sort].  The difference of two prices (or
    ratings) is given exactly: [sort] uses its sign only, which rounding
    keeps. *)
Definition comparator (q : Query) (a b : Product) : Q :=
  let sort := default "name" (q_sort q) in
  let comparison :=
    if String.eqb sort "price" then (price a - price b)%Q
    else if String.eqb sort "rating" then (rating a - rating b)%Q
    else inject_Z (localeCompare (name a) (name b)) in
  if String.eqb (default "asc" (order q)) "desc"
  then (- comparison)%Q
  else comparison.

Definition sorted (q : Query) : list Product :=
  JS.sort (comparator q) (filtered q).

(** [parseInt(page)] and [parseInt(limit)]; the defaults 1 and 6 are
    numbers and parse to themselves. *)
Definition pageNum (q : Query) : JS.integral :=
  match page q with Some s => JS.parseInt_number s | None => JS.Int 1 end.

Definition limitNum (q : Query) : JS.integral :=
  match limit q with Some s => JS.parseInt_number s | None => JS.Int 6 end.

Definition startIndex (q : Query) : JS.integral :=
  JS.times (JS.minus (pageNum q) (JS.Int 1)) (limitNum q).

Definition endIndex (q : Query) : JS.integral :=
  JS.plus (startIndex q) (limitNum q).

Definition get_products (q : Query) : Response :=
  let filtered := sorted q in
  let paginatedProducts :=
    JS.slice_numbers filtered (startIndex q) (endIndex q) in
  let len := Z.of_nat (length filtered) in
  {| data := paginatedProducts;
     pagination :=
       {| currentPage := JS.json (pageNum q);
          totalPages := JS.ceil_div len (limitNum q);
          totalItems := len;
          itemsPerPage := JS.json (limitNum q);
          hasNextPage := JS.less (endIndex q) (JS.Int len);
          hasPrevPage := JS.less (JS.Int 1) (pageNum q) |} |}.

End Handler.

End Products.

(** ** 2. Infinite scroll feed: [GET /api/feed] *)

Module Feed.

Record Query := {
  cursor : option string;
  limit : option string;
  q_category : option string
}.

(** [nextCursor] is [None] for the JSON [null]. *)
Record Response := {
  data : list FeedItem;
  nextCursor : option Z;
  hasMore : bool;
  total : Z;
  returned : Z
}.

Section Handler.
Context `{Host}.
Variable feed : list FeedItem.

Definition cursorNum (q : Query) : option Z :=
  match cursor q with Some s => JS.parseInt s | None => Some 0 end.

Definition limitNum (q : Query) : option Z :=
  match limit q with Some s => JS.parseInt s | None => Some 6 end.

Definition filtered (q : Query) : list FeedItem :=
  let c := default "" (q_category q) in
  if truthy c
  then List.filter
         (fun f => String.eqb (toLowerCase (feed_category f)) (toLowerCase c))
         feed
  else feed.

Definition get_feed (q : Query) : Response :=
  let filtered := filtered q in
  let startIndex := cursorNum q in
  let endIndex := JS.add startIndex (limitNum q) in
  let items := JS.slice filtered startIndex endIndex in
  let nextCursor :=
    if JS.ltb endIndex (Some (Z.of_nat (length filtered)))
    then endIndex else None in
  {| data := items;
     nextCursor := nextCursor;
     hasMore := match nextCursor with Some _ => true | None => false end;
     total := Z.of_nat (length filtered);
     returned := Z.of_nat (length items) |}.

End Handler.

End Feed.

(** ** 4. Shopping cart: [/api/cart*] *)

Module Cart.

Record CartLine := {
  productId : Z;
  line_name : string;
  line_price : Q;
  line_image : string;
  quantity : Z
}.

Record Cart := {
  items : list CartLine;
  createdAt : string
}.

(** The module-level [cart] object, created as [{}]: its own properties,
    session id to cart. *)
Abbreviation Store := (gmap string Cart).

(** The names that [cart] inherits from [Object.prototype]. *)
Definition prototype_members : list string :=
  [ "constructor"; "hasOwnProperty"; "isPrototypeOf"; "propertyIsEnumerable";
    "toLocaleString"; "toString"; "valueOf"; "__proto__";
    "__defineGetter__"; "__defineSetter__"; "__lookupGetter__";
    "__lookupSetter__" ].

Definition inherited (sessionId : string) : bool :=
  existsb (String.eqb sessionId) prototype_members.

(** [cart[sessionId]]: the cart stored under the id; without one, the
    member of [Object.prototype] that the id names (a function, or the
    prototype itself: truthy, and without [items]); else [undefined]. *)
Inductive Entry :=
| Stored (c : Cart)
| Inherited
| Undefined.

Definition entry (st : Store) (sessionId : string) : Entry :=
  match st !! sessionId with
  | Some c => Stored c
  | None => if inherited sessionId then Inherited else Undefined
  end.

(** A [productId] of a JSON body: a number of integral value or a
    string.  Quantities are integers; [None] is [undefined], a key that
    the body does not carry. *)
Inductive IdValue :=
| IdNum (n : Z)
| IdStr (s : string).

Definition id_truthy (v : option IdValue) : bool :=
  match v with
  | Some (IdNum n) => negb (n =? 0)
  | Some (IdStr s) => truthy s
  | None => false
  end.

(** The exponent of the leading decimal digit of a positive integer. *)
Fixpoint decimal_exponent (fuel : nat) (x : Z) : Z :=
  match fuel with
  | O => 0
  | S fuel' => if x <? 10 then 0 else 1 + decimal_exponent fuel' (x / 10)
  end.

(** The first digit of [String(x)] for a Number [x >= 10^21] of integral
    value.  The string is in exponent notation and its digits are those of
    the shortest decimal that rounds to [x]: a decimal of one digit if one
    rounds to [x], and a decimal with the leading digit of [x] if none
    does. *)
Definition first_digit (x : Z) : Z :=
  let j := decimal_exponent (Z.to_nat (Z.log2 x)) x in
  let rounds_to_x d :=
    match JS.to_number (d * 10 ^ j) with
    | JS.Int y => y =? x
    | _ => false
    end in
  match List.find rounds_to_x [1; 2; 3; 4; 5; 6; 7; 8; 9; 10] with
  | Some d => if d =? 10 then 1 else d
  | None => x / 10 ^ j
  end.

(** [parseInt(n)] for a number [n] of integral value: [parseInt] reads the
    digits of [String(n)], which are all the digits of [n] below [10^21]
    and are followed by a point or an exponent from there on. *)
Definition parseInt_of_number (n : Z) : option Z :=
  if Z.abs n <? 10 ^ 21 then Some n
  else Some (Z.sgn n * first_digit (Z.abs n)).

(** [parseInt(productId)] *)
Definition parseInt_id (v : option IdValue) : option Z :=
  match v with
  | Some (IdNum n) => parseInt_of_number n
  | Some (IdStr s) => JS.parseInt s
  | None => None
  end.

Record Summary := {
  subtotal : JS.number;
  itemCount : Z;
  summary_createdAt : option string
}.

Inductive Issue :=
| NoLongerExists (pid : Z)
| OutOfStock (pid : Z) (name : string)
| InsufficientStock (pid : Z) (name : string) (requested available : Z)
| PriceChanged (pid : Z) (name : string) (oldPrice newPrice : Q).

(** JSON bodies of the responses: [CartData] carries [message],
    [sessionId] and [data]; [Cleared] is the body with the message "Cart
    cleared" and [Invalid] the one with "Cart validation failed".
    [Fault] is the body of the [catch] clause, whose message is the
    engine's. *)
Inductive Body :=
| CartData (message sessionId : option string) (items : list CartLine)
    (s : Summary)
| Cleared
| Failure (error : string) (availableStock currentInCart : option Z)
| Invalid (issues : list Issue) (validItems : list CartLine)
| Fault.

Record Response := {
  status : Z;
  body : Body
}.

Definition ok (b : Body) : Response := {| status := 200; body := b |}.

Definition fail (code : Z) (error : string) : Response :=
  {| status := code; body := Failure error None None |}.

(** The answer of a [catch] clause. *)
Definition fault : Response := {| status := 500; body := Fault |}.

(** [getSessionId]: the header when it is a non-empty string, a generated
    id otherwise. *)
Definition getSessionId (header : option string) (generated : string) : string :=
  match header with
  | Some s => if truthy s then s else generated
  | None => generated
  end.

(** [x.toFixed(2)] as the decimal it prints: the nearest multiple of
    1/100, ties away from zero; from 10^21 on [toFixed] prints the number
    itself. *)
Definition toFixed2 (x : Q) : Q :=
  if Qle_bool (inject_Z (10 ^ 21)) (Qabs x) then x
  else if Qle_bool 0 x
  then Qmake (Qfloor (x * 100 + (1 # 2))%Q) 100
  else Qmake (- Qfloor (- x * 100 + (1 # 2))%Q) 100.

(** [parseFloat(x.toFixed(2))] *)
Definition rounded (x : JS.number) : JS.number :=
  match x with
  | JS.Fin x => JS.binary64 (toFixed2 x)
  | _ => x
  end.

(** The two [reduce] calls shared by the handlers.  Price and quantity
    are finite; their product and the sums are binary64 operations.  The
    quantities are integers, whose sums are exact. *)
Definition reduce_subtotal (l : list CartLine) : JS.number :=
  fold_left
    (fun sum item =>
       JS.add64 sum (JS.binary64 (line_price item * inject_Z (quantity item))))
    l (JS.Fin 0).

Definition reduce_itemCount (l : list CartLine) : Z :=
  fold_left (fun sum item => sum + quantity item) l 0.

Definition summarize (l : list CartLine) (created : option string) : Summary :=
  {| subtotal := rounded (reduce_subtotal l);
     itemCount := reduce_itemCount l;
     summary_createdAt := created |}.

(** [existingItem.quantity = q] on the first line of the product. *)
Fixpoint set_quantity (pid q : Z) (l : list CartLine) : list CartLine :=
  match l with
  | [] => []
  | item :: rest =>
      if productId item =? pid
      then {| productId := productId item;
              line_name := line_name item;
              line_price := line_price item;
              line_image := line_image item;
              quantity := q |} :: rest
      else item :: set_quantity pid q rest
  end.

(** [items.filter(item => item.productId !== parseInt(productId))];
    nothing is equal to [NaN]. *)
Definition remove_product (n : option Z) (l : list CartLine) : list CartLine :=
  List.filter
    (fun item => match n with
                 | Some pid => negb (productId item =? pid)
                 | None => true
                 end) l.

Definition find_line (n : option Z) (l : list CartLine) : option CartLine :=
  match n with
  | Some pid => List.find (fun item => productId item =? pid) l
  | None => None
  end.

Section Handlers.
Variable products : list Product.

(** [products.find(p => p.id === n)] *)
Definition find_product (n : option Z) : option Product :=
  match n with
  | Some pid => List.find (fun p => id p =? pid) products
  | None => None
  end.

(** [GET /api/cart].  Reading [items] of an inherited member gives
    [undefined], whose [reduce] throws. *)
Definition get_cart (st : Store) (header : option string) (generated now : string)
  : Store * Response :=
  let sessionId := getSessionId header generated in
  let respond userCart :=
    (st, ok (CartData None (Some sessionId) (items userCart)
               (summarize (items userCart) (Some (createdAt userCart))))) in
  match entry st sessionId with
  | Stored c => respond c
  | Undefined => respond {| items := []; createdAt := now |}
  | Inherited => (st, fault)
  end.

(** [POST /api/cart/add] from the look-up of the line on, [c] being
    [cart[sessionId]]. *)
Definition add_to_cart (st : Store) (sessionId : string) (c : Cart)
    (product : Product) (quantity_ : Z) : Store * Response :=
  match find_line (Some (id product)) (items c) with
  | Some existingItem =>
      let newQuantity := quantity existingItem + quantity_ in
      if stock product <? newQuantity
      then (st, {| status := 400;
                   body := Failure "Insufficient stock for requested quantity"
                             (Some (stock product))
                             (Some (quantity existingItem)) |})
      else
        let items' := set_quantity (id product) newQuantity (items c) in
        (<[sessionId := {| items := items'; createdAt := createdAt c |}]> st,
         ok (CartData (Some "Item added to cart") (Some sessionId) items'
               (summarize items' None)))
  | None =>
      let items' :=
        JS.push (items c)
          {| productId := id product;
             line_name := name product;
             line_price := price product;
             line_image := image product;
             quantity := quantity_ |} in
      (<[sessionId := {| items := items'; createdAt := createdAt c |}]> st,
       ok (CartData (Some "Item added to cart") (Some sessionId) items'
             (summarize items' None)))
  end.

(** [POST /api/cart/add].  The cart is created when [cart[sessionId]] is
    falsy; an inherited member is truthy, and the [find] on its [items]
    throws. *)
Definition add (st : Store) (header : option string) (generated now : string)
    (productId_ : option IdValue) (quantity_ : option Z) : Store * Response :=
  let sessionId := getSessionId header generated in
  let quantity_ := default 1 quantity_ in
  if negb (id_truthy productId_) then (st, fail 400 "productId is required")
  else
    match find_product (parseInt_id productId_) with
    | None => (st, fail 404 "Product not found")
    | Some product =>
        if negb (inStock product) || (stock product <? quantity_)
        then (st, {| status := 400;
                     body := Failure "Insufficient stock"
                               (Some (stock product)) None |})
        else
          match entry st sessionId with
          | Stored c => add_to_cart st sessionId c product quantity_
          | Undefined =>
              let c := {| items := []; createdAt := now |} in
              add_to_cart (<[sessionId := c]> st) sessionId c product quantity_
          | Inherited => (st, fault)
          end
    end.

(** [PUT /api/cart/update] *)
Definition update (st : Store) (header : option string) (generated : string)
    (productId_ : option IdValue) (quantity_ : option Z) : Store * Response :=
  let sessionId := getSessionId header generated in
  match quantity_ with
  | None => (st, fail 400 "productId and quantity are required")
  | Some quantity_ =>
      if negb (id_truthy productId_)
      then (st, fail 400 "productId and quantity are required")
      else
        match entry st sessionId with
        | Undefined => (st, fail 404 "Cart not found")
        | Inherited => (st, fault)
        | Stored c =>
            match find_line (parseInt_id productId_) (items c) with
            | None => (st, fail 404 "Item not in cart")
            | Some cartItem =>
                match find_product (parseInt_id productId_) with
                | None => (st, fault)
                | Some product =>
                    if stock product <? quantity_
                    then (st, {| status := 400;
                                 body := Failure "Insufficient stock"
                                           (Some (stock product)) None |})
                    else
                      let items' :=
                        if quantity_ =? 0
                        then remove_product (parseInt_id productId_) (items c)
                        else set_quantity (productId cartItem) quantity_ (items c) in
                      (<[sessionId := {| items := items'; createdAt := createdAt c |}]> st,
                       ok (CartData (Some "Cart updated") None items'
                             (summarize items' None)))
                end
            end
        end
  end.

(** [DELETE /api/cart/remove/:productId] *)
Definition remove (st : Store) (header : option string) (generated : string)
    (productId_ : string) : Store * Response :=
  let sessionId := getSessionId header generated in
  match entry st sessionId with
  | Undefined => (st, fail 404 "Cart not found")
  | Inherited => (st, fault)
  | Stored c =>
      let items' := remove_product (JS.parseInt productId_) (items c) in
      (<[sessionId := {| items := items'; createdAt := createdAt c |}]> st,
       ok (CartData (Some "Item removed from cart") None items'
             (summarize items' None)))
  end.

(** [DELETE /api/cart/clear]; [delete] of an inherited member does
    nothing. *)
Definition clear (st : Store) (header : option string) (generated : string)
  : Store * Response :=
  let sessionId := getSessionId header generated in
  (match st !! sessionId with
   | Some _ => delete sessionId st
   | None => st
   end, ok Cleared).

(** One iteration of the [forEach] of the validation: pushes to [issues]
    and to [validItems]. *)
Definition validate_line (acc : list Issue * list CartLine) (cartItem : CartLine)
  : list Issue * list CartLine :=
  let '(issues, validItems) := acc in
  match find_product (Some (productId cartItem)) with
  | None => (JS.push issues (NoLongerExists (productId cartItem)), validItems)
  | Some product =>
      if negb (inStock product) || (stock product =? 0)
      then (JS.push issues (OutOfStock (productId cartItem) (line_name cartItem)),
            validItems)
      else if stock product <? quantity cartItem
      then (JS.push issues
              (InsufficientStock (productId cartItem) (line_name cartItem)
                 (quantity cartItem) (stock product)),
            validItems)
      else if negb (Qeq_bool (price product) (line_price cartItem))
      then (JS.push issues
              (PriceChanged (productId cartItem) (line_name cartItem)
                 (line_price cartItem) (price product)),
            JS.push validItems
              {| productId := productId cartItem;
                 line_name := line_name cartItem;
                 line_price := price product;
                 line_image := line_image cartItem;
                 quantity := quantity cartItem |})
      else (issues, JS.push validItems cartItem)
  end.

(** [POST /api/cart/validate]; the length of the [items] of an inherited
    member cannot be read. *)
Definition validate (st : Store) (header : option string) (generated : string)
  : Store * Response :=
  let sessionId := getSessionId header generated in
  match entry st sessionId with
  | Undefined => (st, fail 400 "Cart is empty")
  | Inherited => (st, fault)
  | Stored c =>
      if (length (items c) =? 0)%nat then (st, fail 400 "Cart is empty")
      else
        let '(issues, validItems) := fold_left validate_line (items c) ([], []) in
        if (0 <? length issues)%nat
        then (st, {| status := 400; body := Invalid issues validItems |})
        else (st, ok (CartData (Some "Cart is valid") None validItems
                        (summarize validItems None)))
  end.

(** *** The cart as a transition system *)

Inductive Request :=
| Get (header : option string) (generated now : string)
| Add (header : option string) (generated now : string)
      (productId_ : option IdValue) (quantity_ : option Z)
| Update (header : option string) (generated : string)
      (productId_ : option IdValue) (quantity_ : option Z)
| Remove (header : option string) (generated : string) (productId_ : string)
| Clear (header : option string) (generated : string)
| Validate (header : option string) (generated : string).

Definition handle (st : Store) (r : Request) : Store * Response :=
  match r with
  | Get h g now => get_cart st h g now
  | Add h g now p q => add st h g now p q
  | Update h g p q => update st h g p q
  | Remove h g p => remove st h g p
  | Clear h g => clear st h g
  | Validate h g => validate st h g
  end.

(** The stores a process can be in: it starts with [cart = {}] and serves
    requests one after the other. *)
Inductive reachable : Store -> Prop :=
| reachable_init : reachable ∅
| reachable_step st r : reachable st -> reachable (handle st r).1.

End Handlers.

End Cart.

(** ** Sample data used to evaluate the handlers *)

Definition laptop : Product :=
  {| id := 1; name := "Laptop"; description := "Light laptop";
     tags := ["computer"; "Work"]; category := "Electronics";
     subcategory := "Computers"; brand := "Acme";
     price := 10; rating := 9 # 2; inStock := true; stock := 2;
     image := "laptop.png" |}.

(** The Number that a decimal literal of the data denotes. *)
Definition number_of_literal (x : Q) : Q :=
  match JS.binary64 x with
  | JS.Fin y => y
  | _ => 0
  end.

Definition desk_price : Q :=
  Eval vm_compute in number_of_literal (1999 # 100).

Definition desk : Product :=
  {| id := 2; name := "Desk"; description := "Oak desk";
     tags := ["furniture"]; category := "Home";
     subcategory := "Office"; brand := "Oakly";
     price := desk_price; rating := 4; inStock := true; stock := 5;
     image := "desk.png" |}.

Definition chair : Product :=
  {| id := 3; name := "Chair"; description := "Office chair";
     tags := ["furniture"; "office"]; category := "Home";
     subcategory := "Office"; brand := "Acme";
     price := 5; rating := 3; inStock := false; stock := 0;
     image := "chair.png" |}.

Definition sample_products : list Product := [laptop; desk; chair].

(** A product that is flagged in stock with a negative stock, and one
    whose price has three decimals. *)
Definition backorder : Product :=
  {| id := 4; name := "Lamp"; description := "Desk lamp";
     tags := []; category := "Home";
     subcategory := "Light"; brand := "Acme";
     price := 7; rating := 4; inStock := true; stock := -1;
     image := "lamp.png" |}.



Definition sample_feed : list FeedItem :=
  [ {| feed_id := 1; feed_category := "news"; feed_title := "a" |};
    {| feed_id := 2; feed_category := "tech"; feed_title := "b" |};
    {| feed_id := 3; feed_category := "news"; feed_title := "c" |};
    {| feed_id := 4; feed_category := "news"; feed_title := "d" |};
    {| feed_id := 5; feed_category := "tech"; feed_title := "e" |} ].

(** ** Notions of the specification *)

(** [t] occurs in [s] as a substring. *)
Definition contains (s t : string) : Prop :=
  exists pre post, s = pre ++ t ++ post.

(** [x] is [+Infinity] or an integer from [b] on. *)
Definition at_least (b : Z) (x : JS.integral) : Prop :=
  x = JS.IPosInf \/ exists r, x = JS.Int r /\ b <= r.

(** An array has fewer than [2^32] elements. *)
Definition is_array {A} (l : list A) : Prop := Z.of_nat (length l) < 2 ^ 32.

(** The members of [l] whose rank [r] (0-based) satisfies [lo <= r < hi]. *)
Fixpoint ranked_from {A} (r : Z) (l : list A) : list (Z * A) :=
  match l with
  | [] => []
  | x :: l' => (r, x) :: ranked_from (r + 1) l'
  end.

Definition interval_slice {A} (lo hi : Z) (l : list A) : list A :=
  map snd
    (List.filter (fun rx => (lo <=? fst rx) && (fst rx <? hi)) (ranked_from 0 l)).

(** The condition of the [inStock=true] filter. *)
Definition in_stock (p : Product) : Prop :=
  inStock p = true /\ 0 < stock p.

Section ProductClaims.
Context `{Host}.

(** The search term matches name, description or a tag, ignoring case. *)
Definition matches_term (term : string) (p : Product) : Prop :=
  contains (toLowerCase (name p)) (toLowerCase term) \/
  contains (toLowerCase (description p)) (toLowerCase term) \/
  exists tag, In tag (tags p) /\
              contains (toLowerCase tag) (toLowerCase term).

(** The bounds that a query puts on price and rating: a given parameter
    as [parseFloat] reads it; without [minPrice] the price is at least 0,
    without [maxPrice] it has no upper bound, without [minRating] the
    rating is at least 0. *)
Definition within_bounds (q : Products.Query) (p : Product) : Prop :=
  (forall s, Products.minPrice q = Some s ->
             JS.le (parseFloat s) (JS.Fin (price p))) /\
  (Products.minPrice q = None -> (0 <= price p)%Q) /\
  (forall s, Products.maxPrice q = Some s ->
             JS.le (JS.Fin (price p)) (parseFloat s)) /\
  (forall s, Products.minRating q = Some s ->
             JS.le (parseFloat s) (JS.Fin (rating p))) /\
  (Products.minRating q = None -> (0 <= rating p)%Q).

(** The predicates of search, category, subcategory and brand. *)
Definition matches_fields (q : Products.Query) (p : Product) : Prop :=
  (forall s, Products.search q = Some s -> s <> "" -> matches_term s p) /\
  (forall c, Products.q_category q = Some c -> c <> "" ->
             toLowerCase (category p) = toLowerCase c) /\
  (forall c, Products.q_subcategory q = Some c -> c <> "" ->
             toLowerCase (subcategory p) = toLowerCase c) /\
  (forall c, Products.q_brand q = Some c -> c <> "" ->
             toLowerCase (brand p) = toLowerCase c).

(** All active filter predicates of a query hold of a product. *)
Definition satisfies_filters (q : Products.Query) (p : Product) : Prop :=
  matches_fields q p /\
  within_bounds q p /\
  (Products.q_inStock q = Some "true" -> in_stock p) /\
  (Products.q_inStock q = Some "false" -> ~ in_stock p).

(** The statement on [inStock=false]: the filter selects, among the
    products that pass the other filters, exactly those that fail the
    condition of [inStock=true]. *)
Definition stock_false_claim (products : list Product) (q : Products.Query)
  : Prop :=
  Products.q_inStock q = Some "false" ->
  forall p, In p (Products.filtered products q) <->
            In p (Products.before_stock products q) /\ ~ in_stock p.

(** The pagination statement for page number [p] and page size [s]:
    the page is the slice [(p-1)*s, p*s) of the sorted filtered sequence,
    with the stated metadata. *)
Definition page_claim (sorted : list Product) (p s : Z)
    (r : Products.Response) : Prop :=
  let m := Products.pagination r in
  Products.data r = interval_slice ((p - 1) * s) (p * s) sorted /\
  Products.totalItems m = Z.of_nat (length sorted) /\
  Products.totalPages m =
    Some (Qceiling (inject_Z (Products.totalItems m) / inject_Z s)) /\
  Products.hasNextPage m = (p * s <? Products.totalItems m) /\
  Products.hasPrevPage m = (1 <? p).

(** The page number and the page size that a query asks for: the integers
    that the digits of [page] and [limit] denote, 1 and 6 without them. *)
Definition asked_page (q : Products.Query) : option Z :=
  match Products.page q with Some s => JS.parseInt s | None => Some 1 end.

Definition asked_limit (q : Products.Query) : option Z :=
  match Products.limit q with Some s => JS.parseInt s | None => Some 6 end.

Definition pagination_claim (products : list Product) (q : Products.Query)
  : Prop :=
  forall p s,
    asked_page q = Some p ->
    asked_limit q = Some s ->
    page_claim (Products.sorted products q) p s
      (Products.get_products products q).

(** The feed statement for cursor [c] and limit [l]: the page is the slice
    [c, c+l), [nextCursor] is [c+l] when that index is within bounds,
    [hasMore] tells whether it is present, and the query that follows
    ([q2], with the returned cursor) continues the sequence. *)
Definition feed_page_claim (filtered : list FeedItem) (c l : Z)
    (r : Feed.Response) : Prop :=
  Feed.data r = interval_slice c (c + l) filtered /\
  Feed.nextCursor r =
    (if (0 <=? c + l) && (c + l <? Z.of_nat (length filtered))
     then Some (c + l) else None) /\
  (Feed.hasMore r = true <-> is_Some (Feed.nextCursor r)).

Definition feed_claim (feed : list FeedItem) (q : Feed.Query) : Prop :=
  forall c l,
    Feed.cursorNum q = Some c ->
    Feed.limitNum q = Some l ->
    feed_page_claim (Feed.filtered feed q) c l (Feed.get_feed feed q) /\
    forall q2 n,
      Feed.nextCursor (Feed.get_feed feed q) = Some n ->
      Feed.cursorNum q2 = Some n ->
      Feed.limitNum q2 = Some l ->
      Feed.q_category q2 = Feed.q_category q ->
      Feed.data (Feed.get_feed feed q2) =
        interval_slice (c + l) (c + l + l) (Feed.filtered feed q) /\
      (Feed.data (Feed.get_feed feed q) ++ Feed.data (Feed.get_feed feed q2))%list =
        interval_slice c (c + l + l) (Feed.filtered feed q).

End ProductClaims.

(** Requests used below. *)
Definition negative_limit_query : Products.Query :=
  {| Products.search := None; Products.q_category := None;
     Products.q_subcategory := None; Products.q_brand := None;
     Products.minPrice := None; Products.maxPrice := None;
     Products.minRating := None; Products.q_sort := Some "price";
     Products.order := None; Products.page := Some "1";
     Products.limit := Some "-1"; Products.q_inStock := None |}.

Definition second_page_query : Products.Query :=
  {| Products.search := None; Products.q_category := None;
     Products.q_subcategory := None; Products.q_brand := None;
     Products.minPrice := None; Products.maxPrice := None;
     Products.minRating := None; Products.q_sort := Some "price";
     Products.order := None; Products.page := Some "2";
     Products.limit := Some "2"; Products.q_inStock := None |}.

Definition unavailable_query : Products.Query :=
  {| Products.search := None; Products.q_category := None;
     Products.q_subcategory := None; Products.q_brand := None;
     Products.minPrice := None; Products.maxPrice := None;
     Products.minRating := None; Products.q_sort := None;
     Products.order := None; Products.page := None;
     Products.limit := None; Products.q_inStock := Some "false" |}.

Definition out_of_stock_query : Products.Query :=
  {| Products.search := Some "OFFICE"; Products.q_category := Some "home";
     Products.q_subcategory := None; Products.q_brand := None;
     Products.minPrice := Some "1"; Products.maxPrice := None;
     Products.minRating := None; Products.q_sort := None;
     Products.order := None; Products.page := None;
     Products.limit := None; Products.q_inStock := Some "false" |}.

Definition negative_limit_feed : Feed.Query :=
  {| Feed.cursor := Some "0"; Feed.limit := Some "-1";
     Feed.q_category := None |}.

Definition news_feed (cursor : string) : Feed.Query :=
  {| Feed.cursor := Some cursor; Feed.limit := Some "2";
     Feed.q_category := Some "News" |}.

(** ** Notions of the specification for the cart *)

(** The lines of a session; an absent cart has none. *)
Definition lines_of (st : Cart.Store) (sid : string) : list Cart.CartLine :=
  match st !! sid with
  | Some c => Cart.items c
  | None => []
  end.

(** The creation time a cart has after a successful [add]. *)
Definition created_of (st : Cart.Store) (sid now : string) : string :=
  match st !! sid with
  | Some c => Cart.createdAt c
  | None => now
  end.

(** The session id reaches a stored cart or nothing: [cart[sessionId]] is
    not a member of [Object.prototype]. *)
Definition own_session (st : Cart.Store) (sid : string) : Prop :=
  Cart.entry st sid <> Cart.Inherited.

(** A new line: name, price and image as the product has them now. *)
Definition snapshot (p : Product) (q : Z) : Cart.CartLine :=
  {| Cart.productId := id p;
     Cart.line_name := name p;
     Cart.line_price := price p;
     Cart.line_image := image p;
     Cart.quantity := q |}.

Definition with_quantity (l : Cart.CartLine) (q : Z) : Cart.CartLine :=
  {| Cart.productId := Cart.productId l;
     Cart.line_name := Cart.line_name l;
     Cart.line_price := Cart.line_price l;
     Cart.line_image := Cart.line_image l;
     Cart.quantity := q |}.

Definition with_price (l : Cart.CartLine) (p : Q) : Cart.CartLine :=
  {| Cart.productId := Cart.productId l;
     Cart.line_name := Cart.line_name l;
     Cart.line_price := p;
     Cart.line_image := Cart.line_image l;
     Cart.quantity := Cart.quantity l |}.







(** The not-found statement for [update]: a request that carries a
    quantity fails with status 404 when the session has no cart or no line
    of its cart matches the product id. *)
Definition update_not_found_claim (products : list Product) (st : Cart.Store)
    (header : option string) (generated : string)
    (pid : option Cart.IdValue) (q : option Z) : Prop :=
  forall n,
    q = Some n ->
    (forall x, In x (lines_of st (Cart.getSessionId header generated)) ->
               Some (Cart.productId x) <> Cart.parseInt_id pid) ->
    Cart.status (Cart.update products st header generated pid q).2 = 404.






(** How validation classifies one line against the catalog: the issue it
    raises, if any, and the entry it contributes to the valid items, if
    any.  The rules are tried in this order. *)
Inductive line_status (products : list Product) (l : Cart.CartLine)
  : option Cart.Issue -> option Cart.CartLine -> Prop :=
| status_gone :
    Cart.find_product products (Some (Cart.productId l)) = None ->
    line_status products l (Some (Cart.NoLongerExists (Cart.productId l))) None
| status_out_of_stock p :
    Cart.find_product products (Some (Cart.productId l)) = Some p ->
    inStock p = false \/ stock p = 0 ->
    line_status products l
      (Some (Cart.OutOfStock (Cart.productId l) (Cart.line_name l))) None
| status_insufficient p :
    Cart.find_product products (Some (Cart.productId l)) = Some p ->
    inStock p = true -> stock p <> 0 ->
    stock p < Cart.quantity l ->
    line_status products l
      (Some (Cart.InsufficientStock (Cart.productId l) (Cart.line_name l)
               (Cart.quantity l) (stock p))) None
| status_price_changed p :
    Cart.find_product products (Some (Cart.productId l)) = Some p ->
    inStock p = true -> stock p <> 0 ->
    Cart.quantity l <= stock p ->
    ~ (price p == Cart.line_price l)%Q ->
    line_status products l
      (Some (Cart.PriceChanged (Cart.productId l) (Cart.line_name l)
               (Cart.line_price l) (price p)))
      (Some (with_price l (price p)))
| status_valid p :
    Cart.find_product products (Some (Cart.productId l)) = Some p ->
    inStock p = true -> stock p <> 0 ->
    Cart.quantity l <= stock p ->
    (price p == Cart.line_price l)%Q ->
    line_status products l None (Some l).

(** Every line of every cart refers to a product of the catalog. *)
Definition lines_in_catalog (products : list Product) (st : Cart.Store) : Prop :=
  forall sid c line,
    st !! sid = Some c ->
    In line (Cart.items c) ->
    exists p, Cart.find_product products (Some (Cart.productId line)) = Some p.

(** Every line of every cart has a positive quantity. *)
Definition quantities_positive (st : Cart.Store) : Prop :=
  forall sid c line,
    st !! sid = Some c -> In line (Cart.items c) -> 0 < Cart.quantity line.

(** The lines of every cart have pairwise distinct product ids. *)
Definition distinct_products (st : Cart.Store) : Prop :=
  forall sid c,
    st !! sid = Some c -> NoDup (map Cart.productId (Cart.items c)).

(** The three ways a handler rewrites the lines of a cart: the quantity of
    the first line of a product is set, the lines of a product are
    removed, or a line is pushed for a catalog product that has none. *)
Inductive rewrite_of (products : list Product) (old : list Cart.CartLine)
  : list Cart.CartLine -> Prop :=
| rewrite_quantity pid q :
    rewrite_of products old (Cart.set_quantity pid q old)
| rewrite_remove n :
    rewrite_of products old (Cart.remove_product n old)
| rewrite_push product q :
    Cart.find_product products (Some (id product)) = Some product ->
    Cart.find_line (Some (id product)) old = None ->
    rewrite_of products old (JS.push old (snapshot product q)).

(** The effect of one request on the store: none, and always none when
    the request fails; the deletion of a cart; or the rewriting of the
    lines of one session. *)
Definition store_effect (products : list Product) (st st' : Cart.Store)
    (r : Cart.Response) : Prop :=
  st' = st \/
  Cart.status r = 200 /\
  ((exists sid, st' = delete sid st) \/
   exists sid items' created,
     st' = <[sid := {| Cart.items := items'; Cart.createdAt := created |}]> st /\
     rewrite_of products (lines_of st sid) items').

(** Stores and requests used below. *)
Definition desk_cart : Cart.Store :=
  {[ "s" := {| Cart.items := [snapshot desk 2]; Cart.createdAt := "t0" |} ]}.





(** ** The handlers outside the claims *)

(** [String(n)] of an integer: its decimal digits after an optional
    minus sign. *)
Definition toString (z : Z) : string := NilZero.string_of_int (Z.to_int z).

(** The number that the digits [d] denote after the digits already read
    have given [acc]. *)
Fixpoint uint_value (d : uint) (acc : Z) : Z :=
  match d with
  | Nil => acc
  | D0 d => uint_value d (acc * 10 + 0)
  | D1 d => uint_value d (acc * 10 + 1)
  | D2 d => uint_value d (acc * 10 + 2)
  | D3 d => uint_value d (acc * 10 + 3)
  | D4 d => uint_value d (acc * 10 + 4)
  | D5 d => uint_value d (acc * 10 + 5)
  | D6 d => uint_value d (acc * 10 + 6)
  | D7 d => uint_value d (acc * 10 + 7)
  | D8 d => uint_value d (acc * 10 + 8)
  | D9 d => uint_value d (acc * 10 + 9)
  end.

(** The first page with a page size of 310 digits. *)
Definition huge_limit_query : Products.Query :=
  {| Products.search := None; Products.q_category := None;
     Products.q_subcategory := None; Products.q_brand := None;
     Products.minPrice := None; Products.maxPrice := None;
     Products.minRating := None; Products.q_sort := Some "price";
     Products.order := None; Products.page := Some "1";
     Products.limit := Some (toString (10 ^ 309));
     Products.q_inStock := None |}.

(** The answer of a read-only handler: the [data] of a 200, or the status
    and the [error] of a failure. *)
Inductive Reply (A : Type) :=
| Data (data : A)
| Refused (status : Z) (error : string).

Arguments Data {A} data.
Arguments Refused {A} status error.

Record Country := {
  country_id : Z;
  country_name : string
}.

Record State := {
  state_id : Z;
  state_name : string;
  countryId : Z
}.

Record City := {
  city_id : Z;
  city_name : string;
  stateId : Z;
  population : Z
}.

Module Lookup.

(** [new Set(values)] keeps the first occurrence of each value, in
    insertion order. *)
Definition set_add (acc : list string) (x : string) : list string :=
  if existsb (String.eqb x) acc then acc else JS.push acc x.

Definition unique (values : list string) : list string :=
  fold_left set_add values [].

(** [sort()] without comparator orders strings by their code units. *)
Definition default_compare (a b : string) : Q :=
  match String.compare a b with
  | Lt => (-1)%Q
  | Eq => 0%Q
  | Gt => 1%Q
  end.

(** [[...new Set(values)].sort()] *)
Definition distinct_sorted (values : list string) : list string :=
  JS.sort default_compare (unique values).

(** [Math.min(...values)] and [Math.max(...values)]; without arguments
    they are [Infinity] and [-Infinity]. *)
Definition math_min (values : list Q) : JS.number :=
  fold_left
    (fun acc x =>
       match acc with
       | JS.Fin y => if Qle_bool y x then acc else JS.Fin x
       | JS.PosInf => JS.Fin x
       | _ => acc
       end) values JS.PosInf.

Definition math_max (values : list Q) : JS.number :=
  fold_left
    (fun acc x =>
       match acc with
       | JS.Fin y => if Qle_bool x y then acc else JS.Fin x
       | JS.NegInf => JS.Fin x
       | _ => acc
       end) values JS.NegInf.

Record FilterOptions := {
  categories : list string;
  subcategories : list string;
  brands : list string;
  priceRange_min : JS.number;
  priceRange_max : JS.number
}.

Section Handlers.
Variable products : list Product.
Variable feed : list FeedItem.
Variable countries : list Country.
Variable states : list State.
Variable cities : list City.

(** [GET /api/products/filters] *)
Definition get_filters : FilterOptions :=
  {| categories := distinct_sorted (map category products);
     subcategories := distinct_sorted (map subcategory products);
     brands := distinct_sorted (map brand products);
     priceRange_min := math_min (map price products);
     priceRange_max := math_max (map price products) |}.

(** [GET /api/products/:id] *)
Definition get_product (id_ : string) : Reply Product :=
  match Cart.find_product products (JS.parseInt id_) with
  | Some product => Data product
  | None => Refused 404 "Product not found"
  end.

(** [GET /api/feed/categories] *)
Definition get_feed_categories : list string :=
  distinct_sorted (map feed_category feed).

(** [GET /api/countries] *)
Definition get_countries : list Country := countries.

(** [s.countryId === parseInt(countryId)]; nothing is equal to [NaN]. *)
Definition same_id (n : Z) (parsed : option Z) : bool :=
  match parsed with
  | Some m => n =? m
  | None => false
  end.

(** [GET /api/states]; the answer is sent after 300 ms. *)
Definition get_states (countryId_ : option string) : Reply (list State) :=
  if negb (truthy (default "" countryId_))
  then Refused 400 "countryId is required"
  else Data (List.filter
               (fun s => same_id (countryId s)
                           (JS.parseInt (default "" countryId_))) states).

(** [GET /api/cities]; the answer is sent after 300 ms. *)
Definition get_cities (stateId_ : option string) : Reply (list City) :=
  if negb (truthy (default "" stateId_))
  then Refused 400 "stateId is required"
  else Data (List.filter
               (fun c => same_id (stateId c)
                           (JS.parseInt (default "" stateId_))) cities).

End Handlers.

End Lookup.

(** ** The generator of [cities.json]: [create.mjs] *)

Module Generator.

Definition cityNames : list string :=
  ["Springfield"; "Riverside"; "Georgetown"; "Franklin"; "Clinton";
   "Madison"; "Salem"; "Chester"].

Section Generate.
(** [random i] is the value of [Math.random()] in iteration [i]. *)
Variable random : Z -> Q.

(** The object pushed in iteration [i]. *)
Definition city (i : Z) : City :=
  {| city_id := i;
     city_name := nth (Z.to_nat (i mod 8)) cityNames "undefined"
                  ++ " City " ++ toString i;
     stateId := i;
     population := Qfloor (random i * inject_Z (5000000 - 50000)
                           + inject_Z 50000)%Q |}.

(** [for (let i = ...; i <= 100; i++) cities.push(...)], at most [fuel]
    iterations. *)
Fixpoint loop (fuel : nat) (i : Z) (cities : list City) : list City :=
  match fuel with
  | O => cities
  | S fuel' =>
      if i <=? 100 then loop fuel' (i + 1) (JS.push cities (city i))
      else cities
  end.

Definition generateCities (fuel : nat) : list City := loop fuel 1 [].

End Generate.

End Generator.

(** ** Further notions for the cart *)

(** The session a request works on. *)
Definition session_of (r : Cart.Request) : string :=
  match r with
  | Cart.Get h g _ => Cart.getSessionId h g
  | Cart.Add h g _ _ _ => Cart.getSessionId h g
  | Cart.Update h g _ _ => Cart.getSessionId h g
  | Cart.Remove h g _ => Cart.getSessionId h g
  | Cart.Clear h g => Cart.getSessionId h g
  | Cart.Validate h g => Cart.getSessionId h g
  end.

(** The lines that a request writes for its session, from the lines the
    session had: what [Add], [Update] and [Remove] do once their checks
    have passed. *)
Definition written_lines (products : list Product) (r : Cart.Request)
    (old new : list Cart.CartLine) : Prop :=
  match r with
  | Cart.Add _ _ _ pid q =>
      exists product,
        Cart.find_product products (Cart.parseInt_id pid) = Some product /\
        inStock product = true /\
        default 1 q <= stock product /\
        match Cart.find_line (Some (id product)) old with
        | Some line =>
            Cart.quantity line + default 1 q <= stock product /\
            new = Cart.set_quantity (id product)
                    (Cart.quantity line + default 1 q) old
        | None => new = JS.push old (snapshot product (default 1 q))
        end
  | Cart.Update _ _ pid (Some n) =>
      exists product line,
        Cart.find_product products (Cart.parseInt_id pid) = Some product /\
        Cart.find_line (Cart.parseInt_id pid) old = Some line /\
        n <= stock product /\
        new = (if n =? 0
               then Cart.remove_product (Cart.parseInt_id pid) old
               else Cart.set_quantity (Cart.productId line) n old)
  | Cart.Remove _ _ pid =>
      new = Cart.remove_product (JS.parseInt pid) old
  | _ => False
  end.

(** The stores reached by serving requests that all satisfy [allowed]. *)
Inductive reachable_by (products : list Product)
    (allowed : Cart.Request -> Prop) : Cart.Store -> Prop :=
| reachable_by_init : reachable_by products allowed ∅
| reachable_by_step st r :
    reachable_by products allowed st ->
    allowed r ->
    reachable_by products allowed (Cart.handle products st r).1.

(** Requests whose quantity is a count: at least 1 for [Add] (or absent,
    which means 1), at least 0 for [Update]. *)
Definition counted (r : Cart.Request) : Prop :=
  match r with
  | Cart.Add _ _ _ _ (Some q) => 1 <= q
  | Cart.Update _ _ _ (Some q) => 0 <= q
  | _ => True
  end.

(** A line agrees with the catalog: its product exists and is in stock,
    the quantity does not exceed the stock, and name, price and image are
    the product's. *)
Definition line_in_stock (products : list Product) (line : Cart.CartLine)
  : Prop :=
  exists p,
    Cart.find_product products (Some (Cart.productId line)) = Some p /\
    inStock p = true /\
    Cart.quantity line <= stock p /\
    Cart.line_name line = name p /\
    Cart.line_price line = price p /\
    Cart.line_image line = image p.

(** A comparison of strings whose sign is consistent: swapping the
    arguments swaps the sign. *)
Definition consistent_sign (compare : string -> string -> Z) : Prop :=
  forall a b,
    (0 < compare a b -> compare b a <= 0) /\
    (compare a b < 0 -> 0 <= compare b a).

(** The predicates of the filter chain that a query makes active, with the
    stock predicates as the handler tests them. *)
Definition passes_filters `{Host} (q : Products.Query) (p : Product) : Prop :=
  matches_fields q p /\
  within_bounds q p /\
  (Products.q_inStock q = Some "true" -> inStock p = true /\ 0 < stock p) /\
  (Products.q_inStock q = Some "false" -> inStock p = false \/ stock p = 0).

(** ** Clients that page through a query *)

Definition with_page (q : Products.Query) (p : Z) : Products.Query :=
  {| Products.search := Products.search q;
     Products.q_category := Products.q_category q;
     Products.q_subcategory := Products.q_subcategory q;
     Products.q_brand := Products.q_brand q;
     Products.minPrice := Products.minPrice q;
     Products.maxPrice := Products.maxPrice q;
     Products.minRating := Products.minRating q;
     Products.q_sort := Products.q_sort q;
     Products.order := Products.order q;
     Products.page := Some (toString p);
     Products.limit := Products.limit q;
     Products.q_inStock := Products.q_inStock q |}.

Definition with_cursor (q : Feed.Query) (c : Z) : Feed.Query :=
  {| Feed.cursor := Some (toString c);
     Feed.limit := Feed.limit q;
     Feed.q_category := Feed.q_category q |}.

Section Clients.
Context `{Host}.

(** The pages [first], [first + 1], ... ([count] of them) of a product
    query, one after the other. *)
Fixpoint product_pages (products : list Product) (q : Products.Query)
    (count : nat) (first : Z) : list Product :=
  match count with
  | O => []
  | S count' =>
      (Products.data (Products.get_products products (with_page q first))
       ++ product_pages products q count' (first + 1))%list
  end.

(** An infinite scroll: the items of a feed query, then those of the
    query for [nextCursor], until it is null; [fuel] bounds the number of
    further queries. *)
Fixpoint scroll (feed : list FeedItem) (fuel : nat) (q : Feed.Query)
  : list FeedItem :=
  let r := Feed.get_feed feed q in
  match fuel, Feed.nextCursor r with
  | S fuel', Some next =>
      (Feed.data r ++ scroll feed fuel' (with_cursor q next))%list
  | _, _ => Feed.data r
  end.

End Clients.

(** The sample catalog by name, last name first. *)
Definition descending_names_query : Products.Query :=
  {| Products.search := None; Products.q_category := None;
     Products.q_subcategory := None; Products.q_brand := None;
     Products.minPrice := None; Products.maxPrice := None;
     Products.minRating := None; Products.q_sort := None;
     Products.order := Some "desc"; Products.page := None;
     Products.limit := None; Products.q_inStock := None |}.

(** The generator's cities under a sample random source. *)
Definition sample_random (i : Z) : Q := (i # 101)%Q.

Definition sample_cities : list City :=
  Generator.generateCities sample_random 101.

Definition sample_states : list State :=
  [ {| state_id := 1; state_name := "Kerala"; countryId := 7 |};
    {| state_id := 2; state_name := "Goa"; countryId := 7 |};
    {| state_id := 3; state_name := "Bavaria"; countryId := 9 |} ].

(** * Properties *)

(** ** Strings *)

Lemma append_String (c : ascii) (s t : string) :
  String c s ++ t = String c (s ++ t).
Proof. reflexivity. Qed.

Lemma prefix_app (t s : string) :
  String.prefix t s = true <-> exists post, s = t ++ post.
Proof.
  revert s. induction t as [|c t IH]; intros s; simpl.
  - split; [intros _; exists s; reflexivity | destruct s; reflexivity].
  - destruct s as [|d s].
    + split; [discriminate | intros [post Hp]; discriminate].
    + simpl. destruct (Ascii.ascii_dec c d) as [->|Hne].
      * rewrite IH. split; intros [post Hp]; exists post;
          rewrite append_String in *; congruence.
      * split; [discriminate |].
        intros [post Hp]. rewrite append_String in Hp. congruence.
Qed.

Lemma includes_contains (s t : string) :
  JS.includes s t = true <-> contains s t.
Proof.
  unfold contains. induction s as [|c s IH]; cbn [JS.includes].
  - rewrite orb_false_r, prefix_app. split.
    + intros [post Hp]. exists "", post. exact Hp.
    + intros ([|d pre] & post & Hp); [eauto | discriminate].
  - rewrite orb_true_iff, prefix_app, IH. split.
    + intros [[post Hp] | (pre & post & Hp)].
      * exists "", post. exact Hp.
      * exists (String c pre), post. rewrite append_String. congruence.
    + intros ([|d pre] & post & Hp).
      * left. eauto.
      * right. exists pre, post. rewrite append_String in Hp. congruence.
Qed.

Lemma truthy_nonempty (s : string) : truthy s = true <-> s <> "".
Proof. destruct s; simpl; split; congruence. Qed.

(** ** Slicing, sorting and comparing *)

Lemma In_slice {A} (x : A) (l : list A) (a b : option Z) :
  In x (JS.slice l a b) -> In x l.
Proof.
  unfold JS.slice. rewrite <- !list_elem_of_In. intros Hx.
  eapply elem_of_sublist; [exact Hx |].
  etransitivity; [apply sublist_take | apply sublist_drop].
Qed.

Lemma sort_insert_Permutation {A} (cmp : A -> A -> Q) (a : A) (l : list A) :
  Permutation (JS.sort_insert cmp a l) (a :: l).
Proof.
  induction l as [|b l IH]; simpl; [reflexivity |].
  destruct (Qle_bool (cmp a b) 0); [reflexivity |].
  rewrite IH. apply perm_swap.
Qed.

Lemma sort_Permutation {A} (cmp : A -> A -> Q) (l : list A) :
  Permutation (JS.sort cmp l) l.
Proof.
  induction l as [|a l IH]; simpl; [reflexivity |].
  rewrite sort_insert_Permutation. now constructor.
Qed.

Lemma geb_le (x : Q) (b : JS.number) :
  JS.geb x b = true <-> JS.le b (JS.Fin x).
Proof.
  destruct b; simpl; try (split; [discriminate | tauto]); try tauto.
  apply Qle_bool_iff.
Qed.

Lemma leb_le (x : Q) (b : JS.number) :
  JS.leb x b = true <-> JS.le (JS.Fin x) b.
Proof.
  destruct b; simpl; try (split; [discriminate | tauto]); try tauto.
  apply Qle_bool_iff.
Qed.

(** ** The filter chain *)

Section ProductFilters.
Context `{Host}.
Variable products : list Product.

Lemma matches_search_term (term : string) (p : Product) :
  Products.matches_search (toLowerCase term) p = true <-> matches_term term p.
Proof.
  unfold Products.matches_search, matches_term.
  rewrite !orb_true_iff, !includes_contains, existsb_exists.
  setoid_rewrite includes_contains. tauto.
Qed.

Lemma In_search_filter q l p :
  In p (Products.search_filter q l) <->
  In p l /\ (forall s, Products.search q = Some s -> s <> "" -> matches_term s p).
Proof.
  unfold Products.search_filter.
  destruct (Products.search q) as [s|]; simpl.
  - destruct (truthy s) eqn:Hs.
    + rewrite filter_In, matches_search_term. apply truthy_nonempty in Hs.
      split; [intros [? ?]; split; [|intros ? [= <-]]; auto | intros [? Hm]; auto].
    + split; [intros ?; split; [|intros ? [= <-] Hne]; auto | tauto].
      apply truthy_nonempty in Hne. congruence.
  - split; [intros ?; split; [|intros ? [=]]; auto | tauto].
Qed.

(** The three exact-match filters share one shape. *)
Lemma In_field_filter (field : Product -> string) (param : option string) l p :
  In p (let c := default "" param in
        if truthy c
        then List.filter
               (fun p => String.eqb (toLowerCase (field p)) (toLowerCase c)) l
        else l) <->
  In p l /\ (forall c, param = Some c -> c <> "" ->
                       toLowerCase (field p) = toLowerCase c).
Proof.
  destruct param as [c|]; simpl.
  - destruct (truthy c) eqn:Hc.
    + rewrite filter_In, String.eqb_eq. apply truthy_nonempty in Hc.
      split; [intros [? ?]; split; [|intros ? [= <-]]; auto | intros [? Hm]; auto].
    + split; [intros ?; split; [|intros ? [= <-] Hne]; auto | tauto].
      apply truthy_nonempty in Hne. congruence.
  - split; [intros ?; split; [|intros ? [=]]; auto | tauto].
Qed.

Lemma In_stock_filter q l p :
  In p (Products.stock_filter q l) ->
  In p l /\
  (Products.q_inStock q = Some "true" -> in_stock p) /\
  (Products.q_inStock q = Some "false" -> ~ in_stock p).
Proof.
  unfold Products.stock_filter, in_stock.
  destruct (Products.q_inStock q) as [s|]; simpl.
  - destruct (String.eqb s "true") eqn:Ht.
    + apply String.eqb_eq in Ht as ->.
      rewrite filter_In, andb_true_iff, Z.ltb_lt.
      intros (Hin & Hb & Hs). apply Bool.eqb_prop in Hb.
      split; [exact Hin | split; [auto | discriminate]].
    + destruct (String.eqb s "false") eqn:Hf.
      * apply String.eqb_eq in Hf as ->.
        rewrite filter_In, orb_true_iff, Z.eqb_eq.
        intros (Hin & Hb). split; [exact Hin | split; [discriminate |]].
        intros _ [Hi Hs]. destruct Hb as [Hb | Hb].
        -- apply Bool.eqb_prop in Hb. congruence.
        -- lia.
      * apply String.eqb_neq in Ht, Hf.
        intros Hin. split; [exact Hin | split; congruence].
  - intros Hin. split; [exact Hin | split; discriminate].
Qed.

Lemma bounds_within q p :
  JS.le (Products.min_price q) (JS.Fin (price p)) /\
  JS.le (JS.Fin (price p)) (Products.max_price q) /\
  JS.le (Products.min_rating q) (JS.Fin (rating p)) <->
  within_bounds q p.
Proof.
  unfold within_bounds, Products.min_price, Products.max_price,
    Products.min_rating.
  destruct (Products.minPrice q) as [lo|], (Products.maxPrice q) as [hi|],
    (Products.minRating q) as [r|];
    (split;
     [intros (Hlo & Hhi & Hr); repeat split; intros; simplify_eq; assumption
     | intros (Hlo & Hlo0 & Hhi & Hr & Hr0); repeat split;
       first [ apply Hlo; reflexivity | exact (Hlo0 eq_refl)
             | apply Hhi; reflexivity | apply Hr; reflexivity
             | exact (Hr0 eq_refl) | exact I ]]).
Qed.

Lemma In_before_stock q p :
  In p (Products.before_stock products q) <->
  In p products /\ matches_fields q p /\ within_bounds q p.
Proof.
  unfold Products.before_stock, Products.rating_filter, Products.price_filter.
  rewrite !filter_In, andb_true_iff, !geb_le, leb_le.
  unfold Products.brand_filter, Products.subcategory_filter,
    Products.category_filter.
  rewrite !In_field_filter, In_search_filter, <- bounds_within.
  unfold matches_fields. tauto.
Qed.

End ProductFilters.

(** ** [slice] on non-negative bounds is the interval of ranks *)

Lemma interval_from_started {A} (lo hi r : Z) (l : list A) :
  lo <= r ->
  map snd (List.filter (fun rx => (lo <=? fst rx) && (fst rx <? hi))
             (ranked_from r l)) =
  take (Z.to_nat (hi - r)) l.
Proof.
  revert r. induction l as [|x l IH]; intros r Hr; simpl.
  - now rewrite take_nil.
  - replace (lo <=? r) with true by (symmetry; apply Z.leb_le; lia). simpl.
    destruct (r <? hi) eqn:Hlt.
    + apply Z.ltb_lt in Hlt. simpl. rewrite IH by lia.
      replace (Z.to_nat (hi - r)) with (S (Z.to_nat (hi - (r + 1)))) by lia.
      reflexivity.
    + apply Z.ltb_ge in Hlt. rewrite IH by lia.
      replace (Z.to_nat (hi - (r + 1))) with 0%nat by lia.
      replace (Z.to_nat (hi - r)) with 0%nat by lia.
      now rewrite take_0.
Qed.

Lemma interval_from_before {A} (lo hi r : Z) (l : list A) :
  r <= lo ->
  map snd (List.filter (fun rx => (lo <=? fst rx) && (fst rx <? hi))
             (ranked_from r l)) =
  take (Z.to_nat (hi - lo)) (drop (Z.to_nat (lo - r)) l).
Proof.
  revert r. induction l as [|x l IH]; intros r Hr.
  - simpl. now rewrite drop_nil, take_nil.
  - destruct (Z.eq_dec r lo) as [->|Hne].
    + rewrite interval_from_started by lia.
      now replace (Z.to_nat (lo - lo)) with 0%nat by lia.
    + simpl. replace (lo <=? r) with false by (symmetry; apply Z.leb_gt; lia).
      simpl. rewrite IH by lia.
      replace (Z.to_nat (lo - r)) with (S (Z.to_nat (lo - (r + 1)))) by lia.
      reflexivity.
Qed.

Lemma interval_slice_take_drop {A} (lo hi : Z) (l : list A) :
  0 <= lo ->
  interval_slice lo hi l = take (Z.to_nat (hi - lo)) (drop (Z.to_nat lo) l).
Proof.
  intros Hlo. unfold interval_slice. rewrite interval_from_before by lia.
  now rewrite Z.sub_0_r.
Qed.

Lemma slice_take_drop {A} (l : list A) (lo hi : Z) :
  0 <= lo -> lo <= hi ->
  JS.slice l (Some lo) (Some hi) =
  take (Z.to_nat (hi - lo)) (drop (Z.to_nat lo) l).
Proof.
  intros Hlo Hhi. unfold JS.slice, JS.relative_index, JS.to_integer. simpl.
  replace (lo <? 0) with false by (symmetry; apply Z.ltb_ge; lia).
  replace (hi <? 0) with false by (symmetry; apply Z.ltb_ge; lia).
  destruct (Z.le_gt_cases (Z.of_nat (length l)) lo) as [Hge | Hlt].
  - rewrite !(drop_ge l) by lia. now rewrite !take_nil.
  - rewrite (Z.min_l lo) by lia.
    destruct (Z.le_gt_cases hi (Z.of_nat (length l))) as [Hin | Hout].
    + now rewrite Z.min_l by lia.
    + rewrite Z.min_r by lia.
      rewrite !take_ge; [reflexivity | |]; rewrite length_drop; lia.
Qed.

Lemma slice_interval {A} (l : list A) (lo hi : Z) :
  0 <= lo -> lo <= hi ->
  JS.slice l (Some lo) (Some hi) = interval_slice lo hi l.
Proof.
  intros. now rewrite slice_take_drop, interval_slice_take_drop.
Qed.

(** Ranks of the members of a slice. *)
Lemma interval_slice_lookup {A} (lo hi : Z) (l : list A) (i : nat) (x : A) :
  0 <= lo ->
  interval_slice lo hi l !! i = Some x ->
  l !! (Z.to_nat lo + i)%nat = Some x /\ lo <= lo + Z.of_nat i < hi.
Proof.
  intros Hlo. rewrite interval_slice_take_drop by lia.
  intros [Hx Hi]%lookup_take_Some. rewrite lookup_drop in Hx.
  split; [exact Hx | lia].
Qed.

Lemma ceil_div_Qceiling (n s : Z) :
  0 < s -> - ((- n) / s) = Qceiling (inject_Z n / inject_Z s).
Proof.
  intros Hs. unfold Qceiling, Qfloor.
  destruct s as [|s|s]; try lia.
  unfold Qdiv, Qinv, Qmult, Qopp, inject_Z. simpl.
  now rewrite Z.mul_1_r.
Qed.


(** ** Numbers of integral value *)

Lemma nearest_even_ge (n e : Z) : n / 2 ^ e <= JS.nearest_even n e.
Proof.
  unfold JS.nearest_even. destruct (_ <? _); [lia |].
  destruct (_ <? _); [lia |]. destruct (Z.even _); lia.
Qed.

Lemma round53_small (n : Z) : n <= 2 ^ 53 -> JS.round53 n = n.
Proof.
  intros Hn. unfold JS.round53.
  destruct (n <? 2 ^ 53) eqn:Hlt; [reflexivity |].
  apply Z.ltb_ge in Hlt. assert (n = 2 ^ 53) as -> by lia.
  vm_compute. reflexivity.
Qed.

Lemma round53_large (n : Z) : 2 ^ 53 <= n -> 2 ^ 53 <= JS.round53 n.
Proof.
  intros Hn. unfold JS.round53.
  destruct (n <? 2 ^ 53) eqn:Hlt; [exact Hn |]. clear Hlt.
  assert (Hlog : 53 <= Z.log2 n).
  { rewrite <- (Z.log2_pow2 53) by lia. now apply Z.log2_le_mono. }
  destruct (Z.log2_spec n ltac:(lia)) as [Hlow _].
  set (e := Z.log2 n - 52) in *.
  replace (Z.log2 n) with (52 + e) in Hlow by lia.
  rewrite Z.pow_add_r in Hlow by lia.
  assert (He : 2 <= 2 ^ e).
  { change 2 with (2 ^ 1) at 1. apply Z.pow_le_mono_r; lia. }
  assert (Hm : 2 ^ 52 <= n / 2 ^ e).
  { apply Z.div_le_lower_bound; lia. }
  pose proof (nearest_even_ge n e) as Hge.
  change (2 ^ 53) with (2 ^ 52 * 2). nia.
Qed.

Lemma to_number_exact (z : Z) : Z.abs z <= 2 ^ 53 -> JS.to_number z = JS.Int z.
Proof.
  intros Hz. unfold JS.to_number. rewrite round53_small by exact Hz.
  assert (Hbig : 2 ^ 53 < 2 ^ 1024) by (apply Z.pow_lt_mono_r; lia).
  replace (2 ^ 1024 <=? Z.abs z) with false by (symmetry; apply Z.leb_gt; lia).
  f_equal. destruct z; reflexivity.
Qed.

Lemma to_number_large (z : Z) :
  2 ^ 53 <= z -> at_least (2 ^ 53) (JS.to_number z).
Proof.
  intros Hz. unfold JS.to_number.
  assert (Hpos : 0 < 2 ^ 53) by (apply Z.pow_pos_nonneg; lia).
  rewrite (Z.abs_eq z) by lia.
  pose proof (round53_large z Hz) as Hr.
  destruct (2 ^ 1024 <=? JS.round53 z).
  - left. now replace (z <? 0) with false by (symmetry; apply Z.ltb_ge; lia).
  - right. eexists. split; [reflexivity |].
    rewrite (proj2 (Z.sgn_pos_iff z)) by lia. lia.
Qed.

(** The bounds of the page [p >= 1] of size [s >= 1]: the exact ones, or
    bounds beyond every index of the array. *)
Lemma page_bounds (p s : Z) :
  1 <= p -> 1 <= s ->
  let start := JS.times (JS.minus (JS.Int p) (JS.Int 1)) (JS.Int s) in
  let end_ := JS.plus start (JS.Int s) in
  (start = JS.Int ((p - 1) * s) /\ (p - 1) * s <= 2 ^ 53 \/
   at_least (2 ^ 53) start /\ 2 ^ 53 < (p - 1) * s) /\
  (end_ = JS.Int (p * s) /\ p * s <= 2 ^ 53 \/
   at_least (2 ^ 53) end_ /\ 2 ^ 53 < p * s).
Proof.
  intros Hp Hs start end_.
  assert (Hpos : 0 < 2 ^ 53) by (apply Z.pow_pos_nonneg; lia).
  assert (Hstart : start = JS.Int ((p - 1) * s) /\ (p - 1) * s <= 2 ^ 53 \/
                   at_least (2 ^ 53) start /\ 2 ^ 53 < (p - 1) * s).
  { subst start. cbn [JS.minus].
    assert (Hprod : 0 <= (p - 1) * s) by nia.
    destruct (Z.le_gt_cases (p - 1) (2 ^ 53)) as [Hsmall | Hbig].
    - rewrite to_number_exact by lia. cbn [JS.times].
      destruct (Z.le_gt_cases ((p - 1) * s) (2 ^ 53)) as [Hsmall' | Hbig'].
      + left. rewrite to_number_exact by lia. auto.
      + right. split; [apply to_number_large; lia | exact Hbig'].
    - right. split; [| nia].
      destruct (to_number_large (p - 1) ltac:(lia)) as [-> | (r & -> & Hr)].
      + left. cbn. now destruct s.
      + cbn [JS.times]. apply to_number_large. nia. }
  split; [exact Hstart |]. subst end_.
  destruct Hstart as [[-> Hsmall] | [[-> | (r & -> & Hr)] Hbig]]; cbn [JS.plus].
  - replace ((p - 1) * s + s) with (p * s) by lia.
    assert (Hprod : 0 <= p * s) by nia.
    destruct (Z.le_gt_cases (p * s) (2 ^ 53)) as [Hsmall' | Hbig'].
    + left. rewrite to_number_exact by lia. auto.
    + right. split; [apply to_number_large; lia | exact Hbig'].
  - right. split; [now left | lia].
  - right. split; [apply to_number_large; lia | lia].
Qed.

Lemma slice_beyond {A} (l : list A) (lo : Z) (hi : option Z) :
  Z.of_nat (length l) <= lo -> JS.slice l (Some lo) hi = [].
Proof.
  intros Hlo. unfold JS.slice, JS.relative_index, JS.to_integer.
  cbn [default from_option Datatypes.id].
  replace (lo <? 0) with false by (symmetry; apply Z.ltb_ge; lia).
  rewrite (Z.min_r lo) by lia.
  rewrite skipn_all2 by lia. now rewrite firstn_nil.
Qed.

Lemma bound_at_least (len b : Z) (x : JS.integral) :
  len <= b -> at_least b x ->
  exists r, JS.bound len x = Some r /\ len <= r.
Proof.
  intros Hb [-> | (r & -> & Hr)]; eexists; (split; [reflexivity | lia]).
Qed.

(** The page [p >= 1] of size [s >= 1] of an array. *)
Lemma page_slice {A} (l : list A) (p s : Z) :
  1 <= p -> 1 <= s ->
  is_array l ->
  let start := JS.times (JS.minus (JS.Int p) (JS.Int 1)) (JS.Int s) in
  let end_ := JS.plus start (JS.Int s) in
  JS.slice_numbers l start end_ =
    take (Z.to_nat s) (drop (Z.to_nat ((p - 1) * s)) l) /\
  JS.less end_ (JS.Int (Z.of_nat (length l))) = (p * s <? Z.of_nat (length l)).
Proof.
  intros Hp Hs Hlen start end_. unfold is_array in Hlen.
  assert (Hbig : 2 ^ 32 < 2 ^ 53) by (apply Z.pow_lt_mono_r; lia).
  destruct (page_bounds p s Hp Hs) as [Hstart Hend].
  fold start in Hstart, Hend. fold end_ in Hend.
  set (len := Z.of_nat (length l)) in *.
  unfold JS.slice_numbers. fold len.
  assert (Hend' : exists hi, JS.bound len end_ = Some hi /\
                             (hi = p * s \/ len <= hi /\ len < p * s) /\
                             JS.less end_ (JS.Int len) = (p * s <? len)).
  { destruct Hend as [[-> Hsmall] | [Hfar Hbeyond]].
    - exists (p * s). cbn. auto.
    - destruct (bound_at_least len (2 ^ 53) end_ ltac:(lia) Hfar)
        as (hi & Hhi & Hle).
      exists hi. split; [exact Hhi | split; [right; lia |]].
      replace (p * s <? len) with false by (symmetry; apply Z.ltb_ge; lia).
      destruct Hfar as [-> | (r & -> & Hr)]; [reflexivity |].
      cbn. apply Z.ltb_ge. lia. }
  destruct Hend' as (hi & -> & Hhi & Hless). split; [| exact Hless].
  destruct Hstart as [[-> Hsmall] | [Hfar Hbeyond]].
  - cbn [JS.bound]. assert (Hprod : 0 <= (p - 1) * s) by nia.
    destruct Hhi as [-> | [Hle Hlt]].
    + rewrite slice_take_drop by nia. do 2 f_equal. lia.
    + destruct (Z.le_gt_cases len ((p - 1) * s)) as [Hout | Hin].
      * rewrite slice_beyond by (fold len; lia).
        rewrite drop_ge by lia. now rewrite take_nil.
      * rewrite slice_take_drop by lia.
        rewrite !take_ge; [reflexivity | |]; rewrite length_drop; lia.
  - destruct (bound_at_least len (2 ^ 53) start ltac:(lia) Hfar)
      as (lo & -> & Hle).
    rewrite slice_beyond by (fold len; lia).
    rewrite drop_ge by lia. now rewrite take_nil.
Qed.

Lemma at_least_weaken (b b' : Z) (x : JS.integral) :
  b' <= b -> at_least b x -> at_least b' x.
Proof.
  intros Hb [-> | (r & -> & Hr)]; [now left | right].
  exists r. split; [reflexivity | lia].
Qed.

(** The Number of an integer from [b] on is a Number from [b] on, for a
    Number [b]. *)
Lemma to_number_at_least (b z : Z) :
  0 <= b <= 2 ^ 53 -> b <= z -> at_least b (JS.to_number z).
Proof.
  intros Hb Hz. destruct (Z.le_gt_cases z (2 ^ 53)) as [Hsmall | Hbig].
  - rewrite to_number_exact by lia. right. now exists z.
  - apply (at_least_weaken (2 ^ 53)); [lia |]. apply to_number_large. lia.
Qed.

Lemma minus_at_least (b : Z) (x : JS.integral) :
  1 <= b <= 2 ^ 53 -> at_least b x ->
  at_least (b - 1) (JS.minus x (JS.Int 1)).
Proof.
  intros Hb [-> | (r & -> & Hr)]; [now left |].
  cbn [JS.minus]. apply to_number_at_least; lia.
Qed.

Lemma times_at_least (b t : Z) (x : JS.integral) :
  1 <= b <= 2 ^ 53 -> 1 <= t -> at_least b x ->
  at_least b (JS.times x (JS.Int t)).
Proof.
  intros Hb Ht [-> | (r & -> & Hr)].
  - left. cbn [JS.times JS.sign].
    rewrite (proj2 (Z.sgn_pos_iff t)) by lia. reflexivity.
  - cbn [JS.times]. apply to_number_at_least; [lia | nia].
Qed.

Lemma plus_at_least (b t : Z) (x : JS.integral) :
  0 <= b <= 2 ^ 53 -> 0 <= t -> at_least b x ->
  at_least b (JS.plus x (JS.Int t)).
Proof.
  intros Hb Ht [-> | (r & -> & Hr)]; [now left |].
  cbn [JS.plus]. apply to_number_at_least; lia.
Qed.

(** A slice that starts beyond the array is empty, and an end beyond the
    array is not below its length. *)
Lemma far_slice {A} (l : list A) (start end_ : JS.integral) :
  at_least (Z.of_nat (length l)) start ->
  JS.slice_numbers l start end_ = [].
Proof.
  intros Hstart.
  destruct (bound_at_least (Z.of_nat (length l)) _ start (Z.le_refl _) Hstart)
    as (lo & Hlo & Hle).
  unfold JS.slice_numbers. rewrite Hlo. now apply slice_beyond.
Qed.

Lemma far_end_less (len : Z) (end_ : JS.integral) :
  at_least len end_ -> JS.less end_ (JS.Int len) = false.
Proof.
  intros [-> | (r & -> & Hr)]; [reflexivity |]. cbn. apply Z.ltb_ge. lia.
Qed.

(** For a positive integer, the Number is the integer, up to [2^53], or a
    Number from [2^53] on. *)
Lemma to_number_cases (z : Z) :
  JS.to_number z = JS.Int z /\ Z.abs z <= 2 ^ 53 \/
  2 ^ 53 < z /\ at_least (2 ^ 53) (JS.to_number z) \/
  z < - 2 ^ 53.
Proof.
  destruct (Z.le_gt_cases (Z.abs z) (2 ^ 53)) as [Hsmall | Hbig].
  - left. split; [now apply to_number_exact | exact Hsmall].
  - right. destruct (Z.le_gt_cases 0 z) as [Hpos | Hneg]; [left | right; lia].
    split; [lia |]. apply to_number_large. lia.
Qed.

Lemma whole_take {A} (l : list A) (n : Z) :
  Z.of_nat (length l) <= n -> take (Z.to_nat n) l = l.
Proof. intros Hn. apply take_ge. lia. Qed.

(** The ceiling of a quotient by a divisor beyond the dividend. *)
Lemma ceil_div_beyond (n d : Z) :
  0 <= n < d -> - ((- n) / d) = if n =? 0 then 0 else 1.
Proof.
  intros Hn. destruct (n =? 0) eqn:H0.
  - apply Z.eqb_eq in H0 as ->. reflexivity.
  - apply Z.eqb_neq in H0.
    assert (Hq : - n / d = -1); [| lia].
    symmetry. apply (Z.div_unique_pos _ _ _ (d - n)); lia.
Qed.

Lemma In_slice_numbers {A} (x : A) (l : list A) (a b : JS.integral) :
  In x (JS.slice_numbers l a b) -> In x l.
Proof. unfold JS.slice_numbers. apply In_slice. Qed.

(** ** The catalog and feed queries *)

Lemma filter_sublist_of {A} (f : A -> bool) (l : list A) :
  List.filter f l `sublist_of` l.
Proof.
  induction l as [|a l IH]; simpl; [constructor |].
  destruct (f a); now constructor.
Qed.

Lemma field_filter_sublist `{Host} (field : Product -> string)
    (param : option string) (l : list Product) :
  (let c := default "" param in
   if truthy c
   then List.filter
          (fun p => String.eqb (toLowerCase (field p)) (toLowerCase c)) l
   else l) `sublist_of` l.
Proof.
  cbv zeta. destruct (truthy _); [apply filter_sublist_of | reflexivity].
Qed.

Lemma filtered_sublist `{Host} (products : list Product) (q : Products.Query) :
  Products.filtered products q `sublist_of` products.
Proof.
  unfold Products.filtered, Products.before_stock.
  etransitivity.
  { unfold Products.stock_filter. cbv zeta.
    destruct (String.eqb _ "true"); [apply filter_sublist_of |].
    destruct (String.eqb _ "false"); [apply filter_sublist_of | reflexivity]. }
  etransitivity; [apply filter_sublist_of |].
  etransitivity; [apply filter_sublist_of |].
  etransitivity; [apply field_filter_sublist |].
  etransitivity; [apply field_filter_sublist |].
  etransitivity; [apply field_filter_sublist |].
  unfold Products.search_filter. cbv zeta.
  destruct (truthy _); [apply filter_sublist_of | reflexivity].
Qed.

(** The sorted filtered sequence is an array when the catalog is. *)
Lemma sorted_is_array `{Host} (products : list Product) (q : Products.Query) :
  is_array products -> is_array (Products.sorted products q).
Proof.
  unfold is_array, Products.sorted. intros Hlen.
  rewrite (Permutation_length (sort_Permutation _ _)).
  pose proof (sublist_length _ _ (filtered_sublist products q)). lia.
Qed.

(** The page of a query whose page number and page size are finite and at
    least 1. *)
Lemma get_products_page `{Host} (products : list Product)
    (q : Products.Query) (p s : Z) :
  Products.pageNum q = JS.Int p ->
  Products.limitNum q = JS.Int s ->
  1 <= p -> 1 <= s ->
  is_array products ->
  Products.data (Products.get_products products q) =
    take (Z.to_nat s)
      (drop (Z.to_nat ((p - 1) * s)) (Products.sorted products q)) /\
  Products.hasNextPage (Products.pagination (Products.get_products products q)) =
    (p * s <? Z.of_nat (length (Products.sorted products q))).
Proof.
  intros Hp Hs Hp1 Hs1 Harray.
  unfold Products.get_products.
  cbn [Products.data Products.pagination Products.hasNextPage].
  unfold Products.endIndex, Products.startIndex. rewrite Hp, Hs.
  apply page_slice; [exact Hp1 | exact Hs1 |].
  now apply sorted_is_array.
Qed.

(** C1 as stated fails on a catalog with a product that is flagged in
    stock and has the stock -1: it fails the condition of [inStock=true],
    and [inStock=false] does not select it. *)
Lemma negative_stock_is_not_selected :
  ~ stock_false_claim (H := ascii_host) [backorder] unavailable_query.
Proof.
  intros Hc. specialize (Hc eq_refl backorder). destruct Hc as [_ Hc].
  assert (Hin : In backorder
                  (Products.filtered (H := ascii_host) [backorder]
                     unavailable_query)).
  { apply Hc. split; [now left |]. intros [_ Hs]. simpl in Hs. lia. }
  exact Hin.
Qed.

(** C1, amended.  Every product of the page returned by
    [GET /api/products] is a product of the catalog that satisfies all
    active filter predicates: the search term occurs, ignoring case, in
    its name, its description or one of its tags; category, subcategory
    and brand match exactly, ignoring case; its price lies between
    [minPrice] and [maxPrice] and its rating is at least [minRating], the
    parameters being read by [parseFloat] and defaulting to 0, +infinity
    and 0; with [inStock=true] it is in stock with a positive stock, with
    [inStock=false] it is not.  Among the products that pass the other
    filters, [inStock=true] keeps exactly those that are in stock with a
    positive stock, and [inStock=false] exactly those that are flagged out
    of stock or have the stock 0; for a stock that is not negative these
    are the products that fail the condition of [inStock=true]. *)
Theorem products_page_satisfies_filters `{Host} (products : list Product)
    (q : Products.Query) :
  (forall p, In p (Products.data (Products.get_products products q)) ->
             In p products /\ satisfies_filters q p) /\
  (Products.q_inStock q = Some "true" ->
   forall p, In p (Products.filtered products q) <->
             In p (Products.before_stock products q) /\ in_stock p) /\
  (Products.q_inStock q = Some "false" ->
   forall p, In p (Products.filtered products q) <->
             In p (Products.before_stock products q) /\
             (inStock p = false \/ stock p = 0)) /\
  (forall p, 0 <= stock p ->
             (inStock p = false \/ stock p = 0 <-> ~ in_stock p)).
Proof.
  split; [| split; [| split]].
  - intros p Hp. simpl in Hp. apply In_slice_numbers in Hp.
    unfold Products.sorted in Hp.
    apply (Permutation_in _ (sort_Permutation _ _)) in Hp.
    apply In_stock_filter in Hp as (Hp & Htrue & Hfalse).
    apply In_before_stock in Hp. unfold satisfies_filters. tauto.
  - intros Hq p. unfold Products.filtered, Products.stock_filter, in_stock.
    rewrite Hq. simpl. rewrite filter_In, andb_true_iff, Z.ltb_lt.
    destruct (inStock p); simpl; intuition congruence.
  - intros Hq p. unfold Products.filtered, Products.stock_filter.
    rewrite Hq. simpl. rewrite filter_In, orb_true_iff, Z.eqb_eq.
    destruct (inStock p); simpl; intuition congruence.
  - intros p Hstock. unfold in_stock.
    destruct (inStock p); split; intros Hp; try tauto.
    + intros [_ Hs]. destruct Hp as [Hp | Hp]; [discriminate | lia].
    + right. destruct (Z.eq_dec (stock p) 0) as [|Hne]; [assumption |].
      exfalso. apply Hp. split; [reflexivity | lia].
    + intros [Hi _]. discriminate.
Qed.

(** The statement of C1 on the sample catalog, for a query with a search
    term, a category, a minimal price and [inStock=false]. *)
Lemma products_page_satisfies_filters_witness :
  In chair (Products.filtered (H := ascii_host) sample_products
              out_of_stock_query) <->
  In chair (Products.before_stock (H := ascii_host) sample_products
              out_of_stock_query) /\
  (inStock chair = false \/ stock chair = 0).
Proof.
  apply (products_page_satisfies_filters (H := ascii_host) sample_products
           out_of_stock_query).
  reflexivity.
Defined.

Lemma pageNum_asked (q : Products.Query) (p : Z) :
  asked_page q = Some p -> Products.pageNum q = JS.to_number p.
Proof.
  unfold asked_page, Products.pageNum, JS.parseInt_number.
  destruct (Products.page q); [now intros -> | now intros [= <-]].
Qed.

Lemma limitNum_asked (q : Products.Query) (s : Z) :
  asked_limit q = Some s -> Products.limitNum q = JS.to_number s.
Proof.
  unfold asked_limit, Products.limitNum, JS.parseInt_number.
  destruct (Products.limit q); [now intros -> | now intros [= <-]].
Qed.

Lemma less_one_to_number (p : Z) :
  1 <= p -> JS.less (JS.Int 1) (JS.to_number p) = (1 <? p).
Proof.
  intros Hp.
  assert (Hpos : 1 < 2 ^ 53) by (apply (Z.pow_gt_1 2 53); lia).
  destruct (to_number_cases p) as [[-> _] | [[Hbig Hfar] | Hneg]];
    [reflexivity | | lia].
  replace (1 <? p) with true by (symmetry; apply Z.ltb_lt; lia).
  destruct Hfar as [-> | (r & -> & Hr)]; [reflexivity |].
  cbn. apply Z.ltb_lt. lia.
Qed.

(** A page size of at least 1 whose Number is finite: the Number is the
    size itself, or both are beyond [2^53]. *)
Lemma to_number_finite (s : Z) :
  1 <= s -> JS.to_number s <> JS.IPosInf ->
  exists s', JS.to_number s = JS.Int s' /\
             (s' = s /\ s <= 2 ^ 53 \/ 2 ^ 53 < s /\ 2 ^ 53 <= s').
Proof.
  intros Hs Hfin.
  destruct (to_number_cases s) as [[Heq Hsmall] | [[Hbig Hfar] | Hneg]];
    [| | lia].
  - exists s. split; [exact Heq | left; lia].
  - destruct Hfar as [Hinf | (r & Hr & Hle)]; [contradiction |].
    exists r. split; [exact Hr | right; lia].
Qed.

(** The page of a query that asks for the page [p >= 1] of size [s >= 1],
    the Number of [s] being finite: rounding [p], [s] and the indices to
    Numbers changes nothing on an array. *)
Lemma asked_products_page `{Host} (products : list Product)
    (q : Products.Query) (p s : Z) :
  asked_page q = Some p ->
  asked_limit q = Some s ->
  1 <= p -> 1 <= s ->
  Products.limitNum q <> JS.IPosInf ->
  is_array products ->
  let r := Products.get_products products q in
  let len := Z.of_nat (length (Products.sorted products q)) in
  Products.data r =
    take (Z.to_nat s)
      (drop (Z.to_nat ((p - 1) * s)) (Products.sorted products q)) /\
  Products.totalPages (Products.pagination r) = Some (- ((- len) / s)) /\
  Products.hasNextPage (Products.pagination r) = (p * s <? len) /\
  Products.hasPrevPage (Products.pagination r) = (1 <? p).
Proof.
  intros Hp Hs Hp1 Hs1 Hfin Harray r len.
  pose proof (pageNum_asked _ _ Hp) as HP.
  pose proof (limitNum_asked _ _ Hs) as HS.
  pose proof (sorted_is_array products q Harray) as Hlen.
  unfold is_array in Hlen. fold len in Hlen.
  assert (Hbig : 2 ^ 32 < 2 ^ 53) by (apply Z.pow_lt_mono_r; lia).
  assert (H32 : 1 <= 2 ^ 32) by (apply (Z.pow_le_mono_r 2 0 32); lia).
  rewrite HS in Hfin.
  destruct (to_number_finite s Hs1 Hfin) as (s' & Hs' & Hsize).
  assert (Hs'1 : 1 <= s') by lia.
  subst r. unfold Products.get_products.
  cbn [Products.data Products.pagination Products.totalPages
       Products.hasNextPage Products.hasPrevPage].
  unfold Products.endIndex, Products.startIndex.
  rewrite HP, HS, Hs'. cbn [JS.ceil_div]. fold len.
  set (l := Products.sorted products q) in *.
  assert (Hpages : (if s' =? 0 then None else Some (- (- len / s'))) =
                   Some (- (- len / s))).
  { replace (s' =? 0) with false by (symmetry; apply Z.eqb_neq; lia).
    f_equal. destruct Hsize as [[-> _] | [Hbs Hbs']]; [reflexivity |].
    rewrite !ceil_div_beyond by lia. reflexivity. }
  assert (Hprev : JS.less (JS.Int 1) (JS.to_number p) = (1 <? p))
    by now apply less_one_to_number.
  assert (Hdata :
    JS.slice_numbers l
      (JS.times (JS.minus (JS.to_number p) (JS.Int 1)) (JS.Int s'))
      (JS.plus (JS.times (JS.minus (JS.to_number p) (JS.Int 1)) (JS.Int s'))
         (JS.Int s')) =
      take (Z.to_nat s) (drop (Z.to_nat ((p - 1) * s)) l) /\
    JS.less
      (JS.plus (JS.times (JS.minus (JS.to_number p) (JS.Int 1)) (JS.Int s'))
         (JS.Int s')) (JS.Int len) = (p * s <? len));
    [| tauto].
  assert (Hfar : forall start,
            at_least (2 ^ 32) start -> len <= (p - 1) * s ->
            JS.slice_numbers l start (JS.plus start (JS.Int s')) =
              take (Z.to_nat s) (drop (Z.to_nat ((p - 1) * s)) l) /\
            JS.less (JS.plus start (JS.Int s')) (JS.Int len) = (p * s <? len)).
  { intros start Hstart Hbeyond. split.
    - rewrite far_slice
        by (apply (at_least_weaken (2 ^ 32)); [fold len; lia | exact Hstart]).
      rewrite drop_ge by (fold len; lia). now rewrite take_nil.
    - replace (p * s <? len) with false by (symmetry; apply Z.ltb_ge; nia).
      apply far_end_less. apply (at_least_weaken (2 ^ 32)); [lia |].
      apply plus_at_least; [lia | lia | exact Hstart]. }
  destruct (to_number_cases p) as [[HPp Hpsmall] | [[Hpbig HPfar] | Hneg]];
    [| | lia].
  - rewrite HPp. destruct Hsize as [[-> Hssmall] | [Hsbig Hs'big]].
    + apply page_slice; [exact Hp1 | exact Hs1 | exact Hlen].
    + destruct (Z.eq_dec p 1) as [-> | Hp2].
      * change (JS.minus (JS.Int 1) (JS.Int 1)) with (JS.Int 0).
        change (JS.times (JS.Int 0) (JS.Int s')) with (JS.Int 0).
        change (JS.plus (JS.Int 0) (JS.Int s')) with (JS.to_number s').
        replace (Z.to_nat ((1 - 1) * s)) with 0%nat by lia.
        rewrite drop_0, (whole_take l s) by (fold len; lia).
        replace (1 * s <? len) with false by (symmetry; apply Z.ltb_ge; lia).
        destruct (to_number_large s' Hs'big) as [-> | (hi & -> & Hle)];
          unfold JS.slice_numbers; cbn [JS.bound JS.less];
          rewrite slice_take_drop by (fold len; lia);
          change (Z.to_nat 0) with 0%nat;
          rewrite drop_0, whole_take by (fold len; lia);
          (split; [reflexivity |]); [reflexivity | apply Z.ltb_ge; lia].
      * apply Hfar; [| nia]. cbn [JS.minus].
        rewrite to_number_exact by lia. cbn [JS.times].
        apply to_number_at_least; [lia | nia].
  - apply Hfar; [| nia].
    apply times_at_least; [lia | exact Hs'1 |].
    apply (at_least_weaken (2 ^ 53 - 1)); [lia |].
    apply minus_at_least; [lia | exact HPfar].
Qed.

(** C6 as stated fails in two ways.  For [page=1&limit=-1], [slice(0, -1)]
    drops the last product and returns the others, whereas no rank lies
    in [0, -1).  For [page=1] and a limit of 310 digits the page size is
    [Infinity], the start index [0 * Infinity] is [NaN] and so is the end
    index: the page is empty, whereas every rank lies in the slice. *)
Lemma pagination_diverges_from_claim :
  ~ pagination_claim (H := ascii_host) sample_products negative_limit_query /\
  ~ pagination_claim (H := ascii_host) sample_products huge_limit_query.
Proof.
  split; intros Hc.
  - destruct (Hc 1 (-1) eq_refl eq_refl) as [Hdata _].
    vm_compute in Hdata. discriminate Hdata.
  - assert (Hlimit : asked_limit huge_limit_query = Some (10 ^ 309))
      by (vm_compute; reflexivity).
    destruct (Hc 1 (10 ^ 309) eq_refl Hlimit) as [Hdata _].
    vm_compute in Hdata. discriminate Hdata.
Qed.

(** C6, amended.  For a query that asks for the page [p >= 1] of size
    [s >= 1], the size being finite as a Number, the returned page is
    exactly the slice [(p-1)*s, p*s) of the sorted filtered sequence,
    every returned item has a rank [r] with [s*(p-1) <= r < s*p],
    [totalItems] is the length of the filtered sequence, [totalPages] is
    the ceiling of [totalItems / s], [hasNextPage] is [p*s < totalItems]
    and [hasPrevPage] is [p > 1].  The catalog is an array. *)
Theorem products_pagination `{Host} (products : list Product)
    (q : Products.Query) (p s : Z) :
  asked_page q = Some p ->
  asked_limit q = Some s ->
  1 <= p -> 1 <= s ->
  Products.limitNum q <> JS.IPosInf ->
  is_array products ->
  page_claim (Products.sorted products q) p s
    (Products.get_products products q) /\
  forall (i : nat) (x : Product),
    Products.data (Products.get_products products q) !! i = Some x ->
    Products.sorted products q !! (Z.to_nat ((p - 1) * s) + i)%nat = Some x /\
    s * (p - 1) <= (p - 1) * s + Z.of_nat i < s * p.
Proof.
  intros Hp Hs Hp1 Hs1 Hfin Harray.
  destruct (asked_products_page products q p s Hp Hs Hp1 Hs1 Hfin Harray)
    as (Hpage & Hpages & Hnext & Hprev).
  assert (Hdata : Products.data (Products.get_products products q) =
                  interval_slice ((p - 1) * s) (p * s)
                    (Products.sorted products q)).
  { rewrite Hpage, interval_slice_take_drop by nia. do 2 f_equal. lia. }
  split.
  - unfold page_claim. split; [exact Hdata |].
    split; [reflexivity |]. split; [| split; [exact Hnext | exact Hprev]].
    rewrite Hpages, ceil_div_Qceiling by lia. reflexivity.
  - intros i x Hx. rewrite Hdata in Hx.
    apply interval_slice_lookup in Hx; [| nia].
    split; [tauto | lia].
Qed.

(** The second page of size two of the sample catalog. *)
Lemma products_pagination_witness :
  page_claim (Products.sorted (H := ascii_host) sample_products second_page_query)
    2 2 (Products.get_products (H := ascii_host) sample_products second_page_query).
Proof.
  apply (products_pagination (H := ascii_host) sample_products
           second_page_query 2 2);
    [reflexivity | reflexivity | lia | lia | discriminate
    | unfold is_array; simpl; lia].
Defined.

(** C7 as stated fails for [cursor=0&limit=-1]: [slice(0, -1)] returns
    all feed items but the last, whereas the slice [0, -1) is empty. *)
Lemma negative_limit_breaks_feed :
  ~ feed_claim (H := ascii_host) sample_feed negative_limit_feed.
Proof.
  intros Hc. destruct (Hc 0 (-1) eq_refl eq_refl) as [[Hdata _] _].
  vm_compute in Hdata. discriminate Hdata.
Qed.

Lemma feed_filtered_category `{Host} (feed : list FeedItem) (q q2 : Feed.Query) :
  Feed.q_category q2 = Feed.q_category q ->
  Feed.filtered feed q2 = Feed.filtered feed q.
Proof. unfold Feed.filtered. now intros ->. Qed.

Lemma feed_data `{Host} (feed : list FeedItem) (q : Feed.Query) (c l : Z) :
  Feed.cursorNum q = Some c ->
  Feed.limitNum q = Some l ->
  0 <= c -> 0 <= l ->
  Feed.data (Feed.get_feed feed q) =
  interval_slice c (c + l) (Feed.filtered feed q).
Proof.
  intros Hc Hl Hc0 Hl0. unfold Feed.get_feed. cbn [Feed.data].
  rewrite Hc, Hl. cbn [JS.add]. now rewrite slice_interval by lia.
Qed.

Lemma feed_nextCursor `{Host} (feed : list FeedItem) (q : Feed.Query) (c l : Z) :
  Feed.cursorNum q = Some c ->
  Feed.limitNum q = Some l ->
  Feed.nextCursor (Feed.get_feed feed q) =
  if c + l <? Z.of_nat (length (Feed.filtered feed q))
  then Some (c + l) else None.
Proof.
  intros Hc Hl. unfold Feed.get_feed. cbn [Feed.nextCursor].
  rewrite Hc, Hl. reflexivity.
Qed.

(** C7, amended.  For a cursor [c >= 0] and a limit [l >= 0] the returned
    items are exactly the slice [c, c+l) of the category-filtered feed,
    [nextCursor] is [c+l] when that index is within bounds and null
    otherwise, [hasMore] holds iff [nextCursor] is present, and a second
    query with the returned cursor, the same limit and the same category
    returns the slice [c+l, c+2l): the two pages together are the slice
    [c, c+2l), without overlap and without gap. *)
Theorem feed_cursor_pagination `{Host} (feed : list FeedItem) (q : Feed.Query)
    (c l : Z) :
  Feed.cursorNum q = Some c ->
  Feed.limitNum q = Some l ->
  0 <= c -> 0 <= l ->
  feed_page_claim (Feed.filtered feed q) c l (Feed.get_feed feed q) /\
  forall q2 n,
    Feed.nextCursor (Feed.get_feed feed q) = Some n ->
    Feed.cursorNum q2 = Some n ->
    Feed.limitNum q2 = Some l ->
    Feed.q_category q2 = Feed.q_category q ->
    Feed.data (Feed.get_feed feed q2) =
      interval_slice (c + l) (c + l + l) (Feed.filtered feed q) /\
    (Feed.data (Feed.get_feed feed q) ++ Feed.data (Feed.get_feed feed q2))%list =
      interval_slice c (c + l + l) (Feed.filtered feed q).
Proof.
  intros Hc Hl Hc0 Hl0.
  pose proof (feed_nextCursor feed q c l Hc Hl) as Hnext.
  split.
  - split; [now apply feed_data | split].
    + rewrite Hnext.
      now replace (0 <=? c + l) with true by (symmetry; apply Z.leb_le; lia).
    + unfold Feed.get_feed. cbn [Feed.hasMore Feed.nextCursor].
      destruct (JS.ltb _ _); [destruct (JS.add _ _) |].
      * split; [eauto | reflexivity].
      * split; [discriminate | intros [? [=]]].
      * split; [discriminate | intros [? [=]]].
  - intros q2 n Hn Hc2 Hl2 Hcat. rewrite Hnext in Hn.
    destruct (c + l <? _); [| discriminate]. injection Hn as <-.
    pose proof (feed_data feed q2 (c + l) l Hc2 Hl2 ltac:(lia) Hl0) as Hd2.
    rewrite (feed_filtered_category feed q q2 Hcat) in Hd2.
    split; [exact Hd2 |].
    rewrite Hd2, (feed_data feed q c l Hc Hl Hc0 Hl0).
    rewrite !interval_slice_take_drop by lia.
    replace (Z.to_nat (c + l + l - c)) with
      (Z.to_nat (c + l - c) + Z.to_nat (c + l + l - (c + l)))%nat by lia.
    rewrite <- take_take_drop, drop_drop.
    do 3 f_equal. lia.
Qed.

(** Two consecutive pages of two news items of the sample feed. *)
Lemma feed_cursor_pagination_witness :
  feed_page_claim (Feed.filtered (H := ascii_host) sample_feed (news_feed "0"))
    0 2 (Feed.get_feed (H := ascii_host) sample_feed (news_feed "0")) /\
  (Feed.data (Feed.get_feed (H := ascii_host) sample_feed (news_feed "0")) ++
   Feed.data (Feed.get_feed (H := ascii_host) sample_feed (news_feed "2")))%list =
  interval_slice 0 (0 + 2 + 2)
    (Feed.filtered (H := ascii_host) sample_feed (news_feed "0")).
Proof.
  destruct (feed_cursor_pagination (H := ascii_host) sample_feed (news_feed "0")
              0 2 eq_refl eq_refl ltac:(lia) ltac:(lia)) as [Hpage Hnext].
  split; [exact Hpage |].
  exact (proj2 (Hnext (news_feed "2") 2 eq_refl eq_refl eq_refl eq_refl)).
Defined.

(** * Cart lines *)

Lemma find_line_first (pid : Z) (pre post : list Cart.CartLine) (line : Cart.CartLine) :
  Cart.productId line = pid ->
  (forall x, In x pre -> Cart.productId x <> pid) ->
  Cart.find_line (Some pid) (pre ++ line :: post) = Some line.
Proof.
  intros Hline Hpre. unfold Cart.find_line.
  induction pre as [|y pre IH]; simpl.
  - now rewrite (proj2 (Z.eqb_eq _ _) Hline).
  - rewrite (proj2 (Z.eqb_neq _ _) (Hpre y (or_introl eq_refl))).
    apply IH. intros x Hx. apply Hpre. now right.
Qed.

Lemma find_line_none (pid : Z) (l : list Cart.CartLine) :
  (forall x, In x l -> Cart.productId x <> pid) ->
  Cart.find_line (Some pid) l = None.
Proof.
  intros Hl. unfold Cart.find_line.
  induction l as [|y l IH]; simpl; [reflexivity |].
  rewrite (proj2 (Z.eqb_neq _ _) (Hl y (or_introl eq_refl))).
  apply IH. intros x Hx. apply Hl. now right.
Qed.

(** A line found by [find] is the first one of the product. *)
Lemma find_line_split (pid : Z) (l : list Cart.CartLine) (line : Cart.CartLine) :
  Cart.find_line (Some pid) l = Some line ->
  exists pre post,
    l = (pre ++ line :: post)%list /\ Cart.productId line = pid /\
    forall x, In x pre -> Cart.productId x <> pid.
Proof.
  unfold Cart.find_line. induction l as [|y l IH]; simpl; [discriminate |].
  destruct (Cart.productId y =? pid) eqn:Hy.
  - intros [= <-]. exists [], l. apply Z.eqb_eq in Hy.
    split; [reflexivity | split; [exact Hy | intros x []]].
  - intros Hf. destruct (IH Hf) as (pre & post & -> & Hl & Hpre).
    exists (y :: pre), post. apply Z.eqb_neq in Hy.
    split; [reflexivity | split; [exact Hl |]].
    intros x [<- | Hx]; auto.
Qed.

Lemma find_line_None_inv (pid : Z) (l : list Cart.CartLine) :
  Cart.find_line (Some pid) l = None ->
  forall x, In x l -> Cart.productId x <> pid.
Proof.
  unfold Cart.find_line. intros Hf x Hx.
  pose proof (find_none _ _ Hf x Hx) as Hn. now apply Z.eqb_neq in Hn.
Qed.

Lemma set_quantity_first (pid q : Z) (pre post : list Cart.CartLine)
    (line : Cart.CartLine) :
  Cart.productId line = pid ->
  (forall x, In x pre -> Cart.productId x <> pid) ->
  Cart.set_quantity pid q (pre ++ line :: post) =
  (pre ++ with_quantity line q :: post)%list.
Proof.
  intros Hline Hpre. induction pre as [|y pre IH]; simpl.
  - now rewrite (proj2 (Z.eqb_eq _ _) Hline).
  - rewrite (proj2 (Z.eqb_neq _ _) (Hpre y (or_introl eq_refl))).
    f_equal. apply IH. intros x Hx. apply Hpre. now right.
Qed.

Lemma set_quantity_ids (pid q : Z) (l : list Cart.CartLine) :
  map Cart.productId (Cart.set_quantity pid q l) = map Cart.productId l.
Proof.
  induction l as [|y l IH]; simpl; [reflexivity |].
  destruct (Cart.productId y =? pid); simpl; congruence.
Qed.

Lemma find_product_id (products : list Product) (n : option Z) (p : Product) :
  Cart.find_product products n = Some p -> n = Some (id p) /\ In p products.
Proof.
  unfold Cart.find_product. destruct n as [pid|]; [| discriminate].
  intros Hf. apply find_some in Hf as [Hin Hid].
  apply Z.eqb_eq in Hid. now subst.
Qed.

(** * The store after [add] on a session that may have no cart yet *)

Lemma lines_of_insert (st : Cart.Store) (sid : string) (c : Cart.Cart) :
  lines_of (<[sid := c]> st) sid = Cart.items c.
Proof. unfold lines_of. now rewrite lookup_insert_eq. Qed.

Lemma entry_stored (st : Cart.Store) (sid : string) (c : Cart.Cart) :
  st !! sid = Some c -> Cart.entry st sid = Cart.Stored c.
Proof. intros Hc. unfold Cart.entry. now rewrite Hc. Qed.

Lemma entry_own (st : Cart.Store) (sid : string) :
  own_session st sid ->
  Cart.entry st sid =
  match st !! sid with
  | Some c => Cart.Stored c
  | None => Cart.Undefined
  end.
Proof.
  unfold own_session, Cart.entry.
  destruct (st !! sid); [reflexivity |].
  destruct (Cart.inherited sid); [congruence | reflexivity].
Qed.

Lemma entry_inherited (st : Cart.Store) (sid : string) :
  Cart.entry st sid = Cart.Inherited ->
  st !! sid = None /\ Cart.inherited sid = true.
Proof.
  unfold Cart.entry. destruct (st !! sid); [discriminate |].
  destruct (Cart.inherited sid); [auto | discriminate].
Qed.

Lemma classic_entry (st : Cart.Store) (sid : string) :
  Cart.entry st sid = Cart.Inherited \/ own_session st sid.
Proof.
  unfold own_session. destruct (Cart.entry st sid); auto; right; discriminate.
Qed.


Lemma own_session_plain (st : Cart.Store) (sid : string) :
  Cart.inherited sid = false -> own_session st sid.
Proof.
  intros Hsid. unfold own_session, Cart.entry.
  destruct (st !! sid); [discriminate |]. now rewrite Hsid.
Qed.

Section AddProperties.
Variable products : list Product.

Lemma add_not_found st header generated now pid q :
  Cart.id_truthy pid = true ->
  Cart.find_product products (Cart.parseInt_id pid) = None ->
  Cart.add products st header generated now pid q =
  (st, Cart.fail 404 "Product not found").
Proof. intros Hpid Hfind. unfold Cart.add. now rewrite Hpid, Hfind. Qed.

Lemma add_out_of_stock st header generated now pid q product :
  Cart.id_truthy pid = true ->
  Cart.find_product products (Cart.parseInt_id pid) = Some product ->
  inStock product = false \/ stock product < default 1 q ->
  Cart.add products st header generated now pid q =
  (st, {| Cart.status := 400;
          Cart.body := Cart.Failure "Insufficient stock"
                         (Some (stock product)) None |}).
Proof.
  intros Hpid Hfind Hout. unfold Cart.add. rewrite Hpid, Hfind. cbn [negb].
  replace (negb (inStock product) || (stock product <? default 1 q)) with true;
    [reflexivity |].
  symmetry. apply orb_true_iff.
  destruct Hout as [-> | Hlt]; [now left | right; now apply Z.ltb_lt].
Qed.

(** [add] once the request has passed the presence and stock checks. *)
Lemma add_checked st header generated now pid q product :
  Cart.id_truthy pid = true ->
  Cart.find_product products (Cart.parseInt_id pid) = Some product ->
  inStock product = true ->
  default 1 q <= stock product ->
  let sid := Cart.getSessionId header generated in
  Cart.add products st header generated now pid q =
  match Cart.entry st sid with
  | Cart.Stored c => Cart.add_to_cart st sid c product (default 1 q)
  | Cart.Undefined =>
      let c := {| Cart.items := []; Cart.createdAt := now |} in
      Cart.add_to_cart (<[sid := c]> st) sid c product (default 1 q)
  | Cart.Inherited => (st, Cart.fault)
  end.
Proof.
  intros Hpid Hfind Hin Hstock sid. unfold Cart.add.
  rewrite Hpid, Hfind, Hin. cbn [negb orb]. fold sid.
  now replace (stock product <? default 1 q) with false
    by (symmetry; apply Z.ltb_ge; lia).
Qed.

(** The same on a session that reaches a cart or nothing. *)
Lemma add_in_stock st header generated now pid q product :
  Cart.id_truthy pid = true ->
  Cart.find_product products (Cart.parseInt_id pid) = Some product ->
  inStock product = true ->
  default 1 q <= stock product ->
  let sid := Cart.getSessionId header generated in
  let n := default 1 q in
  own_session st sid ->
  Cart.add products st header generated now pid q =
  match Cart.find_line (Some (id product)) (lines_of st sid) with
  | Some line =>
      if stock product <? Cart.quantity line + n
      then (st, {| Cart.status := 400;
                   Cart.body := Cart.Failure
                                  "Insufficient stock for requested quantity"
                                  (Some (stock product))
                                  (Some (Cart.quantity line)) |})
      else
        let items' := Cart.set_quantity (id product) (Cart.quantity line + n)
                        (lines_of st sid) in
        (<[sid := {| Cart.items := items';
                     Cart.createdAt := created_of st sid now |}]> st,
         Cart.ok (Cart.CartData (Some "Item added to cart") (Some sid) items'
                    (Cart.summarize items' None)))
  | None =>
      let items' := (lines_of st sid ++ [snapshot product n])%list in
      (<[sid := {| Cart.items := items';
                   Cart.createdAt := created_of st sid now |}]> st,
       Cart.ok (Cart.CartData (Some "Item added to cart") (Some sid) items'
                  (Cart.summarize items' None)))
  end.
Proof.
  intros Hpid Hfind Hin Hstock sid n Hown.
  rewrite (add_checked st header generated now pid q product
             Hpid Hfind Hin Hstock).
  cbv zeta. fold sid n. rewrite (entry_own _ _ Hown).
  unfold lines_of, created_of, Cart.add_to_cart.
  destruct (st !! sid) as [c|] eqn:Hc.
  - reflexivity.
  - cbn [Cart.items Cart.createdAt Cart.find_line find].
    rewrite insert_insert_eq. reflexivity.
Qed.

(** On a session id that names a member of [Object.prototype] the request
    that has passed the checks is answered by the [catch] clause. *)
Lemma add_inherited st header generated now pid q product :
  Cart.id_truthy pid = true ->
  Cart.find_product products (Cart.parseInt_id pid) = Some product ->
  inStock product = true ->
  default 1 q <= stock product ->
  Cart.entry st (Cart.getSessionId header generated) = Cart.Inherited ->
  Cart.add products st header generated now pid q = (st, Cart.fault).
Proof.
  intros Hpid Hfind Hin Hstock Hentry.
  rewrite (add_checked st header generated now pid q product
             Hpid Hfind Hin Hstock).
  cbv zeta. now rewrite Hentry.
Qed.

End AddProperties.

(** * Removal of a product *)

Lemma In_remove_product (pid : Z) (l : list Cart.CartLine) (x : Cart.CartLine) :
  In x (Cart.remove_product (Some pid) l) <-> In x l /\ Cart.productId x <> pid.
Proof.
  unfold Cart.remove_product. rewrite filter_In, negb_true_iff, Z.eqb_neq.
  tauto.
Qed.

Lemma remove_product_absent (pid : Z) (l : list Cart.CartLine) :
  (forall x, In x l -> Cart.productId x <> pid) ->
  Cart.remove_product (Some pid) l = l.
Proof.
  intros Hl. induction l as [|y l IH]; simpl; [reflexivity |].
  rewrite (proj2 (Z.eqb_neq _ _) (Hl y (or_introl eq_refl))). simpl.
  f_equal. apply IH. intros x Hx. apply Hl. now right.
Qed.

(** With one line per product, removing a product removes one line. *)
Lemma remove_product_unique (pid : Z) (pre post : list Cart.CartLine)
    (line : Cart.CartLine) :
  Cart.productId line = pid ->
  NoDup (map Cart.productId (pre ++ line :: post)) ->
  Cart.remove_product (Some pid) (pre ++ line :: post) = (pre ++ post)%list.
Proof.
  intros Hline Hnd. rewrite map_app in Hnd. cbn [map] in Hnd.
  apply NoDup_app in Hnd as (_ & Hdisj & Hpost).
  apply NoDup_cons in Hpost as [Hnotin _].
  unfold Cart.remove_product. rewrite List.filter_app. cbn [List.filter].
  rewrite (proj2 (Z.eqb_eq _ _) Hline). cbn [negb].
  fold (Cart.remove_product (Some pid) pre).
  fold (Cart.remove_product (Some pid) post).
  rewrite !remove_product_absent; [reflexivity | |].
  - intros x Hx Heq. apply Hnotin. rewrite Hline, <- Heq.
    apply list_elem_of_In, in_map, Hx.
  - intros x Hx Heq. apply (Hdisj (Cart.productId x)).
    + apply list_elem_of_In, in_map, Hx.
    + rewrite Heq, <- Hline. left.
Qed.

(** * Validate *)

Lemma validate_line_status (products : list Product)
    (acc : list Cart.Issue * list Cart.CartLine) (l : Cart.CartLine) :
  exists i v,
    line_status products l i v /\
    Cart.validate_line products acc l =
    ((acc.1 ++ option_list i)%list, (acc.2 ++ option_list v)%list).
Proof.
  destruct acc as [issues valid]. unfold Cart.validate_line, JS.push.
  destruct (Cart.find_product products (Some (Cart.productId l)))
    as [p|] eqn:Hfind.
  - destruct (negb (inStock p) || (stock p =? 0)) eqn:Hout.
    + do 2 eexists. split; [eapply status_out_of_stock; [exact Hfind |] |].
      * apply orb_true_iff in Hout as [Hi | Hs].
        -- left. now apply negb_true_iff in Hi.
        -- right. now apply Z.eqb_eq in Hs.
      * cbn. now rewrite app_nil_r.
    + apply orb_false_iff in Hout as [Hi Hs].
      apply negb_false_iff in Hi. apply Z.eqb_neq in Hs.
      destruct (stock p <? Cart.quantity l) eqn:Hlt.
      * apply Z.ltb_lt in Hlt. do 2 eexists.
        split; [eapply status_insufficient; eauto |].
        cbn. now rewrite app_nil_r.
      * apply Z.ltb_ge in Hlt.
        destruct (Qeq_bool (price p) (Cart.line_price l)) eqn:Hp; cbn [negb].
        -- apply Qeq_bool_iff in Hp. do 2 eexists.
           split; [eapply status_valid; eauto |].
           cbn. now rewrite app_nil_r.
        -- apply Qeq_bool_neq in Hp. do 2 eexists.
           split; [eapply status_price_changed; eauto |]. reflexivity.
  - do 2 eexists. split; [apply status_gone; exact Hfind |].
    cbn. now rewrite app_nil_r.
Qed.

Lemma validate_fold (products : list Product) (lines : list Cart.CartLine)
    (acc : list Cart.Issue * list Cart.CartLine) :
  exists cls : list (option Cart.Issue * option Cart.CartLine),
    Forall2 (fun l c => line_status products l c.1 c.2) lines cls /\
    fold_left (Cart.validate_line products) lines acc =
    ((acc.1 ++ omap fst cls)%list, (acc.2 ++ omap snd cls)%list).
Proof.
  revert acc. induction lines as [|l lines IH]; intros acc.
  - exists []. split; [constructor |]. cbn. rewrite !app_nil_r.
    now destruct acc.
  - destruct (validate_line_status products acc l) as (i & v & Hst & Hstep).
    destruct (IH (Cart.validate_line products acc l)) as (cls & Hcls & Hfold).
    exists ((i, v) :: cls). split; [constructor; assumption |].
    cbn [fold_left]. rewrite Hfold, Hstep. cbn [fst snd].
    rewrite <- !app_assoc.
    f_equal; f_equal; [now destruct i | now destruct v].
Qed.

(** * Summaries *)











(** * Effect of one request on the store *)

Lemma In_set_quantity (pid q : Z) (l : list Cart.CartLine) (line : Cart.CartLine) :
  In line (Cart.set_quantity pid q l) ->
  exists line0, In line0 l /\ Cart.productId line0 = Cart.productId line.
Proof.
  induction l as [|y l IH]; simpl; [intros [] |].
  destruct (Cart.productId y =? pid).
  - intros [Heq | Hin].
    + exists y. split; [now left | now subst line].
    + exists line. split; [now right | reflexivity].
  - intros [Heq | Hin].
    + exists y. split; [now left | now subst line].
    + destruct (IH Hin) as (line0 & H0 & Hid). exists line0. auto.
Qed.

Lemma In_remove_product_In (n : option Z) (l : list Cart.CartLine)
    (line : Cart.CartLine) :
  In line (Cart.remove_product n l) -> In line l.
Proof. unfold Cart.remove_product. rewrite filter_In. tauto. Qed.

Lemma remove_product_NoDup (n : option Z) (l : list Cart.CartLine) :
  NoDup (map Cart.productId l) ->
  NoDup (map Cart.productId (Cart.remove_product n l)).
Proof.
  induction l as [|y l IH]; simpl; [auto |].
  intros [Hy Hl]%NoDup_cons.
  destruct (match n with Some _ => _ | None => _ end); [| auto].
  simpl. apply NoDup_cons. split; [| auto].
  intros Hin. apply Hy. apply list_elem_of_In in Hin. apply list_elem_of_In.
  apply in_map_iff in Hin as (x & Hx & Hin). apply in_map_iff.
  exists x. split; [exact Hx | exact (In_remove_product_In _ _ _ Hin)].
Qed.

(** A rewritten line comes from a line of the cart or from the catalog. *)
Lemma rewrite_of_catalog (products : list Product) (old new : list Cart.CartLine)
    (line : Cart.CartLine) :
  rewrite_of products old new ->
  In line new ->
  (exists line0, In line0 old /\ Cart.productId line0 = Cart.productId line) \/
  (exists p, Cart.find_product products (Some (Cart.productId line)) = Some p).
Proof.
  intros [pid q | n | product q Hfind Hline] Hin.
  - left. now apply In_set_quantity in Hin.
  - left. exists line. split; [exact (In_remove_product_In _ _ _ Hin) | reflexivity].
  - apply in_app_iff in Hin as [Hin | [<- | []]].
    + left. now exists line.
    + right. now exists product.
Qed.

Lemma rewrite_of_NoDup (products : list Product) (old new : list Cart.CartLine) :
  rewrite_of products old new ->
  NoDup (map Cart.productId old) ->
  NoDup (map Cart.productId new).
Proof.
  intros [pid q | n | product q Hfind Hline] Hold.
  - now rewrite set_quantity_ids.
  - now apply remove_product_NoDup.
  - unfold JS.push. rewrite map_app. cbn [map].
    apply NoDup_app. split; [exact Hold | split].
    + intros x Hx Hx'. apply list_elem_of_In in Hx, Hx'.
      destruct Hx' as [<- | []].
      apply in_map_iff in Hx as (y & Hy & Hiny).
      exact (find_line_None_inv _ _ Hline y Hiny Hy).
    + apply NoDup_singleton.
Qed.

Section StoreEffects.
Variable products : list Product.

Lemma add_effect st header generated now pid q :
  store_effect products st
    (Cart.add products st header generated now pid q).1
    (Cart.add products st header generated now pid q).2.
Proof.
  destruct (Cart.id_truthy pid) eqn:Hpid;
    [| left; unfold Cart.add; now rewrite Hpid].
  destruct (Cart.find_product products (Cart.parseInt_id pid))
    as [product|] eqn:Hfind;
    [| left; now rewrite (add_not_found products _ _ _ _ _ _ Hpid Hfind)].
  destruct (inStock product) eqn:Hin;
    [| left; now rewrite (add_out_of_stock products _ _ _ _ _ _ _ Hpid Hfind
                            (or_introl Hin))].
  destruct (Z.lt_ge_cases (stock product) (default 1 q)) as [Hlt | Hn];
    [left; now rewrite (add_out_of_stock products _ _ _ _ _ _ _ Hpid Hfind
                          (or_intror Hlt)) |].
  destruct (Cart.entry st (Cart.getSessionId header generated)) eqn:Hentry.
  2: { left. now rewrite (add_inherited products st header generated now pid q
                            product Hpid Hfind Hin Hn Hentry). }
  all: assert (Hown : own_session st (Cart.getSessionId header generated))
         by (unfold own_session; rewrite Hentry; discriminate).
  all: rewrite (add_in_stock products st header generated now pid q product
                  Hpid Hfind Hin Hn Hown).
  all: cbn zeta.
  all: destruct (Cart.find_line _ _) as [line|] eqn:Hline.
  all: try (destruct (_ <? _); [now left |]).
  all: right; split; [reflexivity |]; right; do 3 eexists.
  all: split; [reflexivity |].
  all: try (apply (rewrite_push products _ product); [| exact Hline];
            now rewrite <- (proj1 (find_product_id _ _ _ Hfind))).
  all: constructor.
Qed.

Lemma update_effect st header generated pid q :
  store_effect products st
    (Cart.update products st header generated pid q).1
    (Cart.update products st header generated pid q).2.
Proof.
  unfold Cart.update.
  destruct q as [n|]; [| now left].
  destruct (Cart.id_truthy pid); [| now left]. cbn [negb].
  unfold Cart.entry.
  destruct (st !! Cart.getSessionId header generated) as [c|] eqn:Hc;
    [| destruct (Cart.inherited _); now left].
  destruct (Cart.find_line _ _) as [cartItem|]; [| now left].
  destruct (Cart.find_product _ _) as [product|]; [| now left].
  destruct (_ <? _); [now left |].
  right. split; [reflexivity |]. right. do 3 eexists.
  split; [reflexivity |].
  unfold lines_of. rewrite Hc. destruct (n =? 0); constructor.
Qed.

Lemma remove_effect st header generated pid :
  store_effect products st
    (Cart.remove st header generated pid).1
    (Cart.remove st header generated pid).2.
Proof.
  unfold Cart.remove, Cart.entry.
  destruct (st !! Cart.getSessionId header generated) as [c|] eqn:Hc;
    [| destruct (Cart.inherited _); now left].
  right. split; [reflexivity |]. right. do 3 eexists.
  split; [reflexivity |].
  unfold lines_of. rewrite Hc. constructor.
Qed.

Lemma get_cart_store st header generated now :
  (Cart.get_cart st header generated now).1 = st.
Proof. unfold Cart.get_cart. now destruct (Cart.entry _ _). Qed.

Lemma validate_store st header generated :
  (Cart.validate products st header generated).1 = st.
Proof.
  unfold Cart.validate.
  destruct (Cart.entry _ _) as [c| |]; [| reflexivity | reflexivity].
  destruct (length (Cart.items c) =? 0)%nat; [reflexivity |].
  destruct (fold_left _ _ _) as [issues valid].
  now destruct (0 <? length issues)%nat.
Qed.

Lemma handle_effect st r :
  store_effect products st (Cart.handle products st r).1
    (Cart.handle products st r).2.
Proof.
  destruct r; cbn [Cart.handle].
  - left. apply get_cart_store.
  - apply add_effect.
  - apply update_effect.
  - apply remove_effect.
  - unfold Cart.clear. destruct (st !! _); [| now left].
    right. split; [reflexivity |]. left. eexists. reflexivity.
  - left. apply validate_store.
Qed.

(** An invariant of the store holds of every reachable store when it
    holds of the lines that a handler writes given that it held of the
    lines before. *)
Lemma handle_lines_invariant (P : list Cart.CartLine -> Prop) st r :
  P [] ->
  (forall old new, rewrite_of products old new -> P old -> P new) ->
  (forall sid c, st !! sid = Some c -> P (Cart.items c)) ->
  forall sid c,
    (Cart.handle products st r).1 !! sid = Some c -> P (Cart.items c).
Proof.
  intros Hnil Hstep Hinv.
  destruct (handle_effect st r) as [-> | [_ [[sid ->] | Hset]]];
    [exact Hinv | |].
  - intros sid' c [_ Hc]%lookup_delete_Some. exact (Hinv sid' c Hc).
  - destruct Hset as (sid & items' & created & -> & Hrw).
    intros sid' c Hc.
    destruct (decide (sid = sid')) as [<- | Hne].
    + rewrite lookup_insert_eq in Hc. injection Hc as <-. cbn [Cart.items].
      apply (Hstep _ _ Hrw). unfold lines_of.
      destruct (st !! sid) as [c0|] eqn:Hc0; [exact (Hinv sid c0 Hc0) | exact Hnil].
    + rewrite lookup_insert_ne in Hc by exact Hne. exact (Hinv sid' c Hc).
Qed.

Lemma reachable_lines_invariant (P : list Cart.CartLine -> Prop) st :
  P [] ->
  (forall old new, rewrite_of products old new -> P old -> P new) ->
  Cart.reachable products st ->
  forall sid c, st !! sid = Some c -> P (Cart.items c).
Proof.
  intros Hnil Hstep. induction 1 as [| st r _ IH].
  - intros sid c Hc. now rewrite lookup_empty in Hc.
  - now apply handle_lines_invariant.
Qed.

Lemma reachable_in_catalog st :
  Cart.reachable products st -> lines_in_catalog products st.
Proof.
  intros Hreach sid c line Hc Hin.
  refine (reachable_lines_invariant
            (fun l => forall line, In line l ->
               exists p, Cart.find_product products
                           (Some (Cart.productId line)) = Some p)
            st _ _ Hreach sid c Hc line Hin).
  - intros x [].
  - intros old new Hrw Hold x Hx.
    destruct (rewrite_of_catalog _ _ _ _ Hrw Hx)
      as [(line0 & Hin0 & Hid) | Hp]; [| exact Hp].
    rewrite <- Hid. now apply Hold.
Qed.

Lemma reachable_distinct_products st :
  Cart.reachable products st -> distinct_products st.
Proof.
  intros Hreach sid c Hc.
  refine (reachable_lines_invariant
            (fun l => NoDup (map Cart.productId l)) st _ _ Hreach sid c Hc).
  - constructor.
  - intros old new. apply rewrite_of_NoDup.
Qed.

End StoreEffects.

(** * The cart operations *)




(** C3 as stated fails in two ways.  For productId 0 no line matches, yet
    the request is rejected with 400 by the required-field check, not
    404.  And for the session id "constructor", which has no cart, the
    request is answered with 500. *)
Lemma update_diverges_from_claim :
  ~ update_not_found_claim sample_products desk_cart (Some "s") "g"
      (Some (Cart.IdNum 0)) (Some 1) /\
  ~ update_not_found_claim sample_products ∅ (Some "constructor") "g"
      (Some (Cart.IdNum 2)) (Some 1).
Proof.
  split; intros Hc; specialize (Hc 1 eq_refl).
  - assert (Hstatus : Cart.status
              (Cart.update sample_products desk_cart (Some "s") "g"
                 (Some (Cart.IdNum 0)) (Some 1)).2 = 400) by reflexivity.
    rewrite Hc in Hstatus; [discriminate |].
    intros x [<- | []]. discriminate.
  - assert (Hstatus : Cart.status
              (Cart.update sample_products ∅ (Some "constructor") "g"
                 (Some (Cart.IdNum 2)) (Some 1)).2 = 500) by reflexivity.
    rewrite Hc in Hstatus; [discriminate |].
    intros x [].
Qed.

(** C3, amended.  [Update(productId, quantity)].  A request without
    quantity, or whose productId is absent, 0 or empty, is rejected with
    the validation error; a quantity of 0 is not.  Otherwise: it fails
    with 404 if the session has no cart (the session id being no member
    of [Object.prototype]) or no line of its cart matches; with
    "Insufficient stock" if the quantity exceeds the stock of the live
    product; a quantity of 0 removes the lines of the product (the one
    line, when product ids are distinct) and keeps the others in order;
    any other quantity replaces that of the first matching line. *)
Theorem update_outcomes (products : list Product) (st : Cart.Store)
    (header : option string) (generated : string)
    (pid : option Cart.IdValue) (q : option Z) :
  let sid := Cart.getSessionId header generated in
  let st' := (Cart.update products st header generated pid q).1 in
  let r := (Cart.update products st header generated pid q).2 in
  (q = None \/ Cart.id_truthy pid = false ->
   Cart.status r = 400 /\
   Cart.body r = Cart.Failure "productId and quantity are required" None None /\
   st' = st) /\
  (forall n, q = Some n -> Cart.id_truthy pid = true ->
     Cart.body r <> Cart.Failure "productId and quantity are required" None None /\
     (st !! sid = None -> own_session st sid ->
      Cart.status r = 404 /\ st' = st) /\
     (forall c, st !! sid = Some c ->
        ((forall x, In x (Cart.items c) ->
                    Some (Cart.productId x) <> Cart.parseInt_id pid) ->
         Cart.status r = 404 /\ st' = st) /\
        (forall pre line post product,
           Cart.items c = (pre ++ line :: post)%list ->
           Some (Cart.productId line) = Cart.parseInt_id pid ->
           (forall x, In x pre -> Cart.productId x <> Cart.productId line) ->
           Cart.find_product products (Cart.parseInt_id pid) = Some product ->
           (stock product < n ->
            Cart.status r = 400 /\
            Cart.body r = Cart.Failure "Insufficient stock"
                            (Some (stock product)) None /\
            st' = st) /\
           (n <= stock product -> n = 0 ->
            Cart.status r = 200 /\
            (forall x, In x (lines_of st' sid) <->
                       In x (Cart.items c) /\
                       Cart.productId x <> Cart.productId line) /\
            (NoDup (map Cart.productId (Cart.items c)) \/
             Cart.reachable products st ->
             lines_of st' sid = (pre ++ post)%list)) /\
           (n <= stock product -> n <> 0 ->
            Cart.status r = 200 /\
            st' = <[sid := {| Cart.items :=
                                (pre ++ with_quantity line n :: post)%list;
                              Cart.createdAt := Cart.createdAt c |}]> st)))).
Proof.
  intros sid st' r. split.
  - intros [-> | Hpid]; subst st' r; [cbn; auto |].
    unfold Cart.update. rewrite Hpid. destruct q; cbn; auto.
  - intros n -> Hpid. subst st' r. unfold Cart.update. rewrite Hpid.
    cbn [negb]. fold sid.
    split; [| split].
    + destruct (Cart.entry st sid) as [c| |]; [| discriminate | discriminate].
      destruct (Cart.find_line _ _); [| discriminate].
      destruct (Cart.find_product _ _); [| discriminate].
      destruct (_ <? _); discriminate.
    + intros Hnone Hown. rewrite (entry_own _ _ Hown), Hnone. cbn. auto.
    + intros c Hc. rewrite (entry_stored _ _ _ Hc). split.
      * intros Hnone.
        assert (Cart.find_line (Cart.parseInt_id pid) (Cart.items c) = None)
          as ->; [| cbn; auto].
        destruct (Cart.parseInt_id pid) as [k|]; [| reflexivity].
        apply find_line_none. intros x Hx Heq. apply (Hnone x Hx). congruence.
      * intros pre line post product Hitems Hline Hpre Hfind.
        rewrite <- Hline, Hitems.
        rewrite (find_line_first _ _ _ _ eq_refl Hpre).
        rewrite <- Hline in Hfind. rewrite Hfind.
        split; [| split].
        -- intros Hlt. rewrite (proj2 (Z.ltb_lt _ _) Hlt). cbn. auto.
        -- intros Hle ->. rewrite (proj2 (Z.ltb_ge _ _) Hle).
           cbn [Z.eqb fst snd Cart.status Cart.ok].
           rewrite lines_of_insert. cbn [Cart.items].
           split; [reflexivity | split].
           ++ intros x. apply In_remove_product.
           ++ intros Hnd. apply remove_product_unique; [reflexivity |].
              destruct Hnd as [Hnd | Hreach]; [exact Hnd |].
              rewrite <- Hitems.
              exact (reachable_distinct_products products st Hreach sid c Hc).
        -- intros Hle Hne. rewrite (proj2 (Z.ltb_ge _ _) Hle).
           rewrite (proj2 (Z.eqb_neq _ _) Hne).
           rewrite (set_quantity_first _ _ _ _ _ eq_refl Hpre). cbn. auto.
Qed.

(** Setting the desks of the sample cart to 0 empties it. *)
Lemma update_outcomes_witness :
  (Cart.update sample_products desk_cart (Some "s") "g"
     (Some (Cart.IdStr "2")) (Some 0)).2.(Cart.status) = 200 /\
  lines_of (Cart.update sample_products desk_cart (Some "s") "g"
              (Some (Cart.IdStr "2")) (Some 0)).1 "s" = [].
Proof.
  pose proof (update_outcomes sample_products desk_cart (Some "s") "g"
                (Some (Cart.IdStr "2")) (Some 0)) as [_ H].
  destruct (H 0 eq_refl eq_refl) as (_ & _ & H1).
  destruct (H1 {| Cart.items := [snapshot desk 2]; Cart.createdAt := "t0" |}
              eq_refl) as [_ H2].
  destruct (H2 [] (snapshot desk 2) [] desk eq_refl eq_refl
              ltac:(intros x []) eq_refl) as (_ & H3 & _).
  destruct (H3 ltac:(simpl; lia) eq_refl) as (Hs & _ & Hl).
  split; [exact Hs |].
  apply Hl. left. repeat constructor. intros []%list_elem_of_In.
Defined.







(** C5.  A cart request that does not answer 200 leaves the whole store,
    hence the session's cart, its existence and its line sequence, as it
    was before the call. *)
Theorem failed_request_keeps_store (products : list Product) (st : Cart.Store)
    (r : Cart.Request) :
  Cart.status (Cart.handle products st r).2 <> 200 ->
  (Cart.handle products st r).1 = st.
Proof.
  intros Hfail.
  destruct (handle_effect products st r) as [Hsame | [Hok _]];
    [exact Hsame | contradiction].
Qed.

(** A rejected [Add] on the sample cart. *)
Lemma failed_request_keeps_store_witness :
  (Cart.handle sample_products desk_cart
     (Cart.Add (Some "s") "g" "t1" (Some (Cart.IdNum 2)) (Some 4))).1 = desk_cart.
Proof.
  apply (failed_request_keeps_store sample_products desk_cart
           (Cart.Add (Some "s") "g" "t1" (Some (Cart.IdNum 2)) (Some 4))).
  vm_compute. discriminate.
Defined.

(** C9 does not hold of the code: [Add] of product 1 with quantity 0 on the
    empty store succeeds and leaves a line of quantity 0 in a reachable
    store; with quantity -1 it leaves a line of quantity -1. *)
Theorem add_accepts_zero_quantity :
  let zero := Cart.Add (Some "s") "g" "t0" (Some (Cart.IdNum 1)) (Some 0) in
  let negative := Cart.Add (Some "s") "g" "t0" (Some (Cart.IdNum 1)) (Some (-1)) in
  let st0 := (Cart.handle sample_products ∅ zero).1 in
  let st1 := (Cart.handle sample_products ∅ negative).1 in
  Cart.status (Cart.handle sample_products ∅ zero).2 = 200 /\
  Cart.reachable sample_products st0 /\
  lines_of st0 "s" = [snapshot laptop 0] /\
  ~ quantities_positive st0 /\
  Cart.status (Cart.handle sample_products ∅ negative).2 = 200 /\
  lines_of st1 "s" = [snapshot laptop (-1)].
Proof.
  intros zero negative st0 st1.
  split; [reflexivity | split; [| split; [reflexivity | split]]].
  - apply Cart.reachable_step, Cart.reachable_init.
  - intros Hpos.
    specialize (Hpos "s" {| Cart.items := [snapshot laptop 0];
                            Cart.createdAt := "t0" |}
                  (snapshot laptop 0) eq_refl (or_introl eq_refl)).
    cbn in Hpos. lia.
  - split; reflexivity.
Qed.

(** C10.  In every reachable store each cart line refers to a product of
    the catalog.  Hence the product lookup of [Update] succeeds whenever
    a line of the session's cart matches the product id, [Update] answers
    500 on no session id that reaches a stored cart or nothing, and
    [Validate] never reports "Product no longer exists". *)
Theorem reachable_carts_reference_catalog (products : list Product)
    (st : Cart.Store) :
  Cart.reachable products st ->
  lines_in_catalog products st /\
  (forall header generated pid c line,
     st !! Cart.getSessionId header generated = Some c ->
     Cart.find_line (Cart.parseInt_id pid) (Cart.items c) = Some line ->
     exists product,
       Cart.find_product products (Cart.parseInt_id pid) = Some product) /\
  (forall header generated pid q,
     own_session st (Cart.getSessionId header generated) ->
     Cart.status (Cart.update products st header generated pid q).2 <> 500) /\
  (forall header generated issues validItems pid,
     Cart.body (Cart.validate products st header generated).2 =
       Cart.Invalid issues validItems ->
     ~ In (Cart.NoLongerExists pid) issues).
Proof.
  intros Hreach. pose proof (reachable_in_catalog products st Hreach) as Hinv.
  assert (Hlookup : forall sid pid c line,
            st !! sid = Some c ->
            Cart.find_line (Cart.parseInt_id pid) (Cart.items c) = Some line ->
            exists product,
              Cart.find_product products (Cart.parseInt_id pid) = Some product).
  { intros sid pid c line Hc Hline.
    destruct (Cart.parseInt_id pid) as [k|]; [| discriminate].
    destruct (find_line_split _ _ _ Hline) as (pre & post & Hitems & Hk & _).
    destruct (Hinv sid c line Hc) as [p Hp].
    { rewrite Hitems. apply in_app_iff. right. now left. }
    rewrite Hk in Hp. now exists p. }
  split; [exact Hinv | split; [| split]].
  - intros header generated pid c line. apply Hlookup.
  - intros header generated pid q Hown. unfold Cart.update.
    destruct q as [n|]; [| discriminate].
    destruct (Cart.id_truthy pid); [| discriminate]. cbn [negb].
    rewrite (entry_own _ _ Hown).
    destruct (st !! _) as [c|] eqn:Hc; [| discriminate].
    destruct (Cart.find_line _ _) as [cartItem|] eqn:Hline; [| discriminate].
    destruct (Hlookup _ pid c cartItem Hc Hline) as [p ->].
    destruct (_ <? _); discriminate.
  - intros header generated issues validItems pid. unfold Cart.validate.
    destruct (Cart.entry _ _) as [c| |] eqn:Hentry;
      [| discriminate | discriminate].
    assert (Hc : st !! Cart.getSessionId header generated = Some c).
    { unfold Cart.entry in Hentry. destruct (st !! _) as [c0|].
      - now injection Hentry as ->.
      - destruct (Cart.inherited _); discriminate. }
    destruct (length (Cart.items c) =? 0)%nat; [discriminate |].
    destruct (validate_fold products (Cart.items c) ([], []))
      as (cls & Hcls & ->).
    cbn [fst snd app].
    destruct (0 <? length (omap fst cls))%nat; [| discriminate].
    cbn [snd Cart.body]. intros [= <- _] Hgone.
    apply list_elem_of_In, list_elem_of_omap in Hgone as ([i v] & Hin & Hi).
    cbn in Hi. subst i.
    apply list_elem_of_lookup_1 in Hin as [k Hk].
    destruct (Forall2_lookup_r _ _ _ _ _ Hcls Hk) as (l & Hl & Hst).
    cbn in Hst. inversion Hst as [Hnone | | | |]; subst.
    destruct (Hinv _ c l Hc) as [p Hp].
    { apply list_elem_of_In. eapply list_elem_of_lookup_2. exact Hl. }
    congruence.
Qed.

(** The store after one [Add]. *)
Lemma reachable_carts_reference_catalog_witness :
  lines_in_catalog sample_products
    (Cart.handle sample_products ∅
       (Cart.Add (Some "s") "g" "t0" (Some (Cart.IdNum 2)) (Some 2))).1.
Proof.
  apply (reachable_carts_reference_catalog sample_products).
  apply Cart.reachable_step, Cart.reachable_init.
Defined.

(** * Numbers as strings *)

(** ** Decimal rendering and [parseInt] *)

Lemma parse_digits_uint (d : uint) (acc : Z) :
  JS.parse_digits 10 (NilEmpty.string_of_uint d) (Some acc) =
  Some (uint_value d acc).
Proof.
  revert acc. induction d; intros acc; cbn; try apply IHd. reflexivity.
Qed.

Lemma of_uint_acc_value (d : uint) (p : positive) :
  Z.pos (Pos.of_uint_acc d p) = uint_value d (Z.pos p).
Proof.
  revert p. induction d; intros p; cbn [Pos.of_uint_acc uint_value];
    try rewrite IHd; try reflexivity; f_equal; lia.
Qed.

Lemma of_uint_value (d : uint) : Z.of_N (Pos.of_uint d) = uint_value d 0.
Proof.
  induction d; cbn [Pos.of_uint uint_value]; try reflexivity;
    try (rewrite IHd; reflexivity);
    cbn [Z.of_N]; rewrite of_uint_acc_value; reflexivity.
Qed.

Lemma to_uint_value (p : positive) : uint_value (Pos.to_uint p) 0 = Z.pos p.
Proof.
  rewrite <- of_uint_value, DecimalPos.Unsigned.of_to. reflexivity.
Qed.

Lemma to_uint_not_nil (p : positive) : Pos.to_uint p <> Nil.
Proof.
  intros Hnil. pose proof (to_uint_value p) as Hv. rewrite Hnil in Hv.
  discriminate Hv.
Qed.

Lemma parse_digits_uint_first (d : uint) :
  d <> Nil ->
  JS.parse_digits 10 (NilEmpty.string_of_uint d) None = Some (uint_value d 0).
Proof.
  destruct d; intros Hd; [congruence | ..]; cbn; apply parse_digits_uint.
Qed.

(** Digits are read as they are: no white space, sign or [0x] prefix. *)
Lemma parseInt_digits (d : uint) :
  d <> Nil ->
  JS.parseInt (NilEmpty.string_of_uint d) = Some (uint_value d 0) /\
  JS.parseInt (String "-" (NilEmpty.string_of_uint d)) =
    Some (- uint_value d 0).
Proof.
  intros Hd. pose proof (parse_digits_uint_first d Hd) as Hparse.
  destruct d as [|d|d|d|d|d|d|d|d|d|d]; [congruence | ..];
    try destruct d as [|d|d|d|d|d|d|d|d|d|d];
    cbn [NilEmpty.string_of_uint] in *; unfold JS.parseInt;
    cbn [JS.trim_start];
    lazy -[JS.parse_digits Z.mul Z.opp uint_value NilEmpty.string_of_uint];
    rewrite Hparse; split; f_equal; lia.
Qed.

Lemma parseInt_toString (z : Z) : JS.parseInt (toString z) = Some z.
Proof.
  destruct z as [|p|p]; [reflexivity | |]; unfold toString; cbn [Z.to_int].
  - unfold NilZero.string_of_int, NilZero.string_of_uint.
    pose proof (to_uint_not_nil p) as Hn.
    destruct (parseInt_digits _ Hn) as [Hp _].
    rewrite to_uint_value in Hp.
    destruct (Pos.to_uint p); [congruence | exact Hp ..].
  - unfold NilZero.string_of_int, NilZero.string_of_uint.
    pose proof (to_uint_not_nil p) as Hn.
    destruct (parseInt_digits _ Hn) as [_ Hp].
    rewrite to_uint_value in Hp.
    destruct (Pos.to_uint p); [congruence | exact Hp ..].
Qed.

(** ** Order of the sorted sequence *)

Section SortOrder.
Context {A : Type} (cmp : A -> A -> Q).
Hypothesis cmp_total : forall a b, ~ (cmp a b <= 0)%Q -> (cmp b a <= 0)%Q.

Lemma sort_insert_HdRel (a b : A) (l : list A) :
  (cmp b a <= 0)%Q ->
  HdRel (fun x y => (cmp x y <= 0)%Q) b l ->
  HdRel (fun x y => (cmp x y <= 0)%Q) b (JS.sort_insert cmp a l).
Proof.
  intros Hba Hl. destruct l as [|c l]; simpl; [now constructor |].
  destruct (Qle_bool (cmp a c) 0); constructor; [exact Hba |].
  now inversion Hl.
Qed.

Lemma sort_insert_Sorted (a : A) (l : list A) :
  Sorted (fun x y => (cmp x y <= 0)%Q) l ->
  Sorted (fun x y => (cmp x y <= 0)%Q) (JS.sort_insert cmp a l).
Proof.
  induction 1 as [|b l Hl IH Hb]; simpl; [repeat constructor |].
  destruct (Qle_bool (cmp a b) 0) eqn:Hab.
  - apply Qle_bool_iff in Hab. repeat constructor; assumption.
  - constructor; [exact IH |].
    apply sort_insert_HdRel; [| exact Hb].
    apply cmp_total. intros Hle. apply Qle_bool_iff in Hle. congruence.
Qed.

Lemma sort_Sorted (l : list A) :
  Sorted (fun x y => (cmp x y <= 0)%Q) (JS.sort cmp l).
Proof.
  induction l as [|a l IH]; simpl; [constructor |].
  now apply sort_insert_Sorted.
Qed.

End SortOrder.

Lemma Sorted_impl_In {A} (R S : A -> A -> Prop) (l : list A) :
  (forall a b, In a l -> In b l -> R a b -> S a b) ->
  Sorted R l -> Sorted S l.
Proof.
  induction l as [|a l IH]; intros Himp Hs; [constructor |].
  inversion Hs as [|? ? Hl Hhd]; subst. constructor.
  - apply IH; [| exact Hl]. intros x y Hx Hy. apply Himp; now right.
  - destruct Hhd; constructor. apply Himp; [now left | right; now left | assumption].
Qed.

Lemma Sorted_skipn {A} (R : A -> A -> Prop) (n : nat) (l : list A) :
  Sorted R l -> Sorted R (skipn n l).
Proof.
  revert l. induction n as [|n IH]; intros l Hl; [exact Hl |].
  destruct l as [|a l]; [constructor |]. simpl. apply IH. now inversion Hl.
Qed.

Lemma Sorted_firstn {A} (R : A -> A -> Prop) (n : nat) (l : list A) :
  Sorted R l -> Sorted R (firstn n l).
Proof.
  revert l. induction n as [|n IH]; intros l Hl; [constructor |].
  destruct l as [|a l]; [constructor |]. simpl.
  inversion Hl as [|? ? Hl' Hhd]; subst. constructor; [now apply IH |].
  destruct Hhd; destruct n; constructor; assumption.
Qed.

Lemma Sorted_slice {A} (R : A -> A -> Prop) (l : list A) (a b : option Z) :
  Sorted R l -> Sorted R (JS.slice l a b).
Proof. intros Hl. unfold JS.slice. now apply Sorted_firstn, Sorted_skipn. Qed.

(** ** Distinct sorted values *)

Lemma set_add_spec (acc : list string) (x y : string) :
  In y (Lookup.set_add acc x) <-> In y acc \/ y = x.
Proof.
  unfold Lookup.set_add, JS.push.
  destruct (existsb (String.eqb x) acc) eqn:Hex.
  - apply existsb_exists in Hex as (z & Hz & Heq).
    apply String.eqb_eq in Heq. subst z.
    split; [now left | intros [H | ->]; assumption].
  - rewrite in_app_iff. simpl. intuition congruence.
Qed.

Lemma set_add_NoDup (acc : list string) (x : string) :
  NoDup acc -> NoDup (Lookup.set_add acc x).
Proof.
  intros Hacc. unfold Lookup.set_add, JS.push.
  destruct (existsb (String.eqb x) acc) eqn:Hex; [exact Hacc |].
  apply NoDup_app. split; [exact Hacc | split; [| apply NoDup_singleton]].
  intros y Hy Hy'. apply list_elem_of_In in Hy, Hy'.
  destruct Hy' as [<- | []].
  assert (existsb (String.eqb x) acc = true); [| congruence].
  apply existsb_exists. exists x. split; [exact Hy | apply String.eqb_refl].
Qed.

Lemma fold_set_add (values acc : list string) :
  NoDup acc ->
  NoDup (fold_left Lookup.set_add values acc) /\
  forall y, In y (fold_left Lookup.set_add values acc) <->
            In y acc \/ In y values.
Proof.
  revert acc. induction values as [|x values IH]; intros acc Hacc; simpl.
  - split; [exact Hacc | intros y; tauto].
  - destruct (IH _ (set_add_NoDup acc x Hacc)) as [Hnd Hin].
    split; [exact Hnd |]. intros y. rewrite Hin, set_add_spec.
    intuition congruence.
Qed.

Lemma default_compare_Lt (a b : string) :
  (Lookup.default_compare a b <= 0)%Q -> a <> b -> String.compare a b = Lt.
Proof.
  unfold Lookup.default_compare. intros Hle Hne.
  destruct (String.compare a b) eqn:Hc; [| reflexivity |].
  - apply String.compare_eq_iff in Hc. contradiction.
  - exfalso. revert Hle. unfold Qle. simpl. lia.
Qed.

Lemma default_compare_total (a b : string) :
  ~ (Lookup.default_compare a b <= 0)%Q ->
  (Lookup.default_compare b a <= 0)%Q.
Proof.
  unfold Lookup.default_compare. rewrite (String.compare_antisym a b).
  destruct (String.compare b a); simpl; intros Hn.
  - apply Qle_refl.
  - unfold Qle. simpl. lia.
  - exfalso. apply Hn. unfold Qle. simpl. lia.
Qed.

Lemma compare_Lt_trans (a b c : string) :
  String.compare a b = Lt -> String.compare b c = Lt ->
  String.compare a c = Lt.
Proof.
  intros Hab Hbc.
  apply OrderedTypeEx.String_as_OT.cmp_lt.
  eapply OrderedTypeEx.String_as_OT.lt_trans;
    apply OrderedTypeEx.String_as_OT.cmp_lt; eassumption.
Qed.

(** [[...new Set(values)].sort()] lists each value once, in strictly
    ascending order of code units. *)
Lemma distinct_sorted_spec (values : list string) :
  (forall x, In x (Lookup.distinct_sorted values) <-> In x values) /\
  NoDup (Lookup.distinct_sorted values) /\
  StronglySorted (fun a b => String.compare a b = Lt)
    (Lookup.distinct_sorted values).
Proof.
  unfold Lookup.distinct_sorted, Lookup.unique.
  destruct (fold_set_add values [] (NoDup_nil_2)) as [Hnd Hin].
  pose proof (sort_Permutation Lookup.default_compare
                (fold_left Lookup.set_add values [])) as Hperm.
  assert (Hnd' : NoDup (JS.sort Lookup.default_compare
                          (fold_left Lookup.set_add values []))).
  { rewrite Hperm. exact Hnd. }
  split; [| split; [exact Hnd' |]].
  - intros x. split.
    + intros Hx. apply (Permutation_in _ Hperm) in Hx.
      apply Hin in Hx as [[] | Hx]. exact Hx.
    + intros Hx. apply (Permutation_in _ (Permutation_sym Hperm)).
      apply Hin. now right.
  - apply Sorted_StronglySorted.
    { intros a b c. apply compare_Lt_trans. }
    pose proof (sort_Sorted Lookup.default_compare default_compare_total
                  (fold_left Lookup.set_add values [])) as Hsorted.
    revert Hsorted Hnd'.
    generalize (JS.sort Lookup.default_compare
                  (fold_left Lookup.set_add values [])).
    induction l as [|a l IH]; intros Hs Hn; [constructor |].
    inversion Hs as [|? ? Hl Hhd]; subst.
    apply NoDup_cons in Hn as [Ha Hn].
    constructor; [now apply IH |].
    destruct Hhd as [|b l Hab]; constructor.
    apply default_compare_Lt; [exact Hab |].
    intros ->. apply Ha. left.
Qed.

(** ** Minimum and maximum *)

Lemma math_min_from (values : list Q) (y : Q) :
  exists lo,
    fold_left
      (fun acc x =>
         match acc with
         | JS.Fin y => if Qle_bool y x then acc else JS.Fin x
         | JS.PosInf => JS.Fin x
         | _ => acc
         end) values (JS.Fin y) = JS.Fin lo /\
    (lo = y \/ In lo values) /\ (lo <= y)%Q /\
    forall x, In x values -> (lo <= x)%Q.
Proof.
  revert y. induction values as [|x values IH]; intros y; cbn [fold_left].
  - exists y. split; [reflexivity | split; [now left | split; [apply Qle_refl |]]].
    intros x [].
  - destruct (Qle_bool y x) eqn:Hyx.
    + apply Qle_bool_iff in Hyx.
      destruct (IH y) as (lo & Hf & Hin & Hle & Hall). exists lo.
      split; [exact Hf | split; [| split; [exact Hle |]]].
      * destruct Hin; [now left | right; now right].
      * intros z [<- | Hz]; [now apply Qle_trans with y | now apply Hall].
    + assert (Hxy : (x <= y)%Q).
      { apply Qlt_le_weak, Qnot_le_lt. intros Hle.
        apply Qle_bool_iff in Hle. congruence. }
      destruct (IH x) as (lo & Hf & Hin & Hle & Hall). exists lo.
      split; [exact Hf | split; [| split]].
      * right. destruct Hin as [-> | Hin]; [now left | now right].
      * now apply Qle_trans with x.
      * intros z [<- | Hz]; [exact Hle | now apply Hall].
Qed.

Lemma math_max_from (values : list Q) (y : Q) :
  exists hi,
    fold_left
      (fun acc x =>
         match acc with
         | JS.Fin y => if Qle_bool x y then acc else JS.Fin x
         | JS.NegInf => JS.Fin x
         | _ => acc
         end) values (JS.Fin y) = JS.Fin hi /\
    (hi = y \/ In hi values) /\ (y <= hi)%Q /\
    forall x, In x values -> (x <= hi)%Q.
Proof.
  revert y. induction values as [|x values IH]; intros y; cbn [fold_left].
  - exists y. split; [reflexivity | split; [now left | split; [apply Qle_refl |]]].
    intros x [].
  - destruct (Qle_bool x y) eqn:Hyx.
    + apply Qle_bool_iff in Hyx.
      destruct (IH y) as (hi & Hf & Hin & Hle & Hall). exists hi.
      split; [exact Hf | split; [| split; [exact Hle |]]].
      * destruct Hin; [now left | right; now right].
      * intros z [<- | Hz]; [now apply Qle_trans with y | now apply Hall].
    + assert (Hxy : (y <= x)%Q).
      { apply Qlt_le_weak, Qnot_le_lt. intros Hle.
        apply Qle_bool_iff in Hle. congruence. }
      destruct (IH x) as (hi & Hf & Hin & Hle & Hall). exists hi.
      split; [exact Hf | split; [| split]].
      * right. destruct Hin as [-> | Hin]; [now left | now right].
      * now apply Qle_trans with x.
      * intros z [<- | Hz]; [exact Hle | now apply Hall].
Qed.

(** ** The lookup handlers *)

(** X1.  The filter options of [GET /api/products/filters]: the
    categories, the subcategories and the brands are exactly the values
    that occur in the catalog, each listed once, in strictly ascending
    order of their code units. *)
Theorem filter_options_distinct_sorted (products : list Product) :
  let options := Lookup.get_filters products in
  ((forall x, In x (Lookup.categories options) <->
              exists p, In p products /\ category p = x) /\
   StronglySorted (fun a b => String.compare a b = Lt)
     (Lookup.categories options)) /\
  ((forall x, In x (Lookup.subcategories options) <->
              exists p, In p products /\ subcategory p = x) /\
   StronglySorted (fun a b => String.compare a b = Lt)
     (Lookup.subcategories options)) /\
  ((forall x, In x (Lookup.brands options) <->
              exists p, In p products /\ brand p = x) /\
   StronglySorted (fun a b => String.compare a b = Lt)
     (Lookup.brands options)).
Proof.
  cbn zeta. unfold Lookup.get_filters.
  cbn [Lookup.categories Lookup.subcategories Lookup.brands].
  repeat split;
    try (apply distinct_sorted_spec);
    try (intros Hx; apply distinct_sorted_spec, in_map_iff in Hx;
         destruct Hx as (p & Hp & Hin); now exists p);
    intros (p & Hin & Hp); apply distinct_sorted_spec, in_map_iff;
    now exists p.
Qed.

(** X2.  The price range of [GET /api/products/filters]: for an empty
    catalog the handler computes [Infinity] for [min] and [-Infinity] for
    [max] (JSON prints both as [null]); otherwise both are prices of
    catalog products, and every price of the catalog lies between them. *)
Theorem price_range_bounds (products : list Product) :
  let options := Lookup.get_filters products in
  (products = [] ->
   Lookup.priceRange_min options = JS.PosInf /\
   Lookup.priceRange_max options = JS.NegInf) /\
  (products <> [] ->
   exists cheapest dearest,
     In cheapest products /\ In dearest products /\
     Lookup.priceRange_min options = JS.Fin (price cheapest) /\
     Lookup.priceRange_max options = JS.Fin (price dearest) /\
     forall p, In p products ->
               (price cheapest <= price p)%Q /\ (price p <= price dearest)%Q).
Proof.
  cbn zeta. unfold Lookup.get_filters.
  cbn [Lookup.priceRange_min Lookup.priceRange_max].
  split; [intros ->; split; reflexivity |].
  destruct products as [|p0 products]; [congruence | intros _].
  unfold Lookup.math_min, Lookup.math_max. cbn [map fold_left].
  destruct (math_min_from (map price products) (price p0))
    as (lo & -> & Hlo & Hlo0 & Hlo_all).
  destruct (math_max_from (map price products) (price p0))
    as (hi & -> & Hhi & Hhi0 & Hhi_all).
  assert (Hc : exists c, In c (p0 :: products) /\ price c = lo).
  { destruct Hlo as [-> | Hin]; [exists p0; split; [now left | reflexivity] |].
    apply in_map_iff in Hin as (c & Hc & Hin). exists c. split; [now right | exact Hc]. }
  assert (Hd : exists d, In d (p0 :: products) /\ price d = hi).
  { destruct Hhi as [-> | Hin]; [exists p0; split; [now left | reflexivity] |].
    apply in_map_iff in Hin as (d & Hd & Hin). exists d. split; [now right | exact Hd]. }
  destruct Hc as (c & Hcin & <-). destruct Hd as (d & Hdin & <-).
  exists c, d. repeat split; try assumption.
  - destruct H as [<- | Hp]; [exact Hlo0 | apply Hlo_all, in_map, Hp].
  - destruct H as [<- | Hp]; [exact Hhi0 | apply Hhi_all, in_map, Hp].
Qed.

Lemma price_range_bounds_witness :
  exists cheapest dearest,
    In cheapest sample_products /\ In dearest sample_products /\
    Lookup.priceRange_min (Lookup.get_filters sample_products) =
      JS.Fin (price cheapest) /\
    Lookup.priceRange_max (Lookup.get_filters sample_products) =
      JS.Fin (price dearest) /\
    forall p, In p sample_products ->
              (price cheapest <= price p)%Q /\ (price p <= price dearest)%Q.
Proof.
  exact (proj2 (price_range_bounds sample_products) ltac:(discriminate)).
Defined.

Lemma find_product_unique (products : list Product) (p : Product) :
  In p products ->
  NoDup (map id products) ->
  Cart.find_product products (Some (id p)) = Some p.
Proof.
  unfold Cart.find_product.
  induction products as [|q products IH]; intros Hin Hnd; [destruct Hin |].
  cbn [map] in Hnd. apply NoDup_cons in Hnd as [Hq Hnd]. cbn [find].
  destruct Hin as [-> | Hin]; [now rewrite Z.eqb_refl |].
  destruct (id q =? id p) eqn:Heq; [| now apply IH].
  exfalso. apply Hq. apply Z.eqb_eq in Heq. rewrite Heq.
  apply list_elem_of_In, in_map, Hin.
Qed.

Lemma find_product_none (products : list Product) (n : option Z) :
  (forall p, In p products -> Some (id p) <> n) ->
  Cart.find_product products n = None.
Proof.
  intros Hnone. destruct (Cart.find_product products n) as [p|] eqn:Hf;
    [| reflexivity].
  apply find_product_id in Hf as [-> Hin]. now destruct (Hnone p Hin).
Qed.

(** X3.  [GET /api/products/:id] returns a product of the catalog whose
    id is the integer that [parseInt] reads from the parameter; it answers
    404 "Product not found" when no product has that id (in particular
    when the parameter is not a number); and with distinct ids every
    product of the catalog is returned for the decimal form of its id. *)
Theorem get_product_by_id (products : list Product) (id_ : string) :
  (forall p, Lookup.get_product products id_ = Data p ->
             In p products /\ JS.parseInt id_ = Some (id p)) /\
  ((forall p, In p products -> Some (id p) <> JS.parseInt id_) ->
   Lookup.get_product products id_ = Refused 404 "Product not found") /\
  (forall p, In p products -> NoDup (map id products) ->
             Lookup.get_product products (toString (id p)) = Data p).
Proof.
  unfold Lookup.get_product. split; [| split].
  - intros p. destruct (Cart.find_product products (JS.parseInt id_))
      as [q|] eqn:Hf; [| discriminate].
    intros [= ->]. apply find_product_id in Hf. tauto.
  - intros Hnone. now rewrite find_product_none.
  - intros p Hin Hnd. rewrite parseInt_toString.
    now rewrite find_product_unique.
Qed.

Lemma get_product_by_id_witness :
  Lookup.get_product sample_products (toString (id desk)) = Data desk.
Proof.
  apply (get_product_by_id sample_products "").
  - right. now left.
  - cbn. repeat constructor; rewrite ?list_elem_of_In; cbn; intuition discriminate.
Defined.

(** X4.  [GET /api/feed/categories] lists exactly the categories that
    occur in the feed, each once, in strictly ascending order of their
    code units. *)
Theorem feed_categories_distinct_sorted (feed : list FeedItem) :
  (forall x, In x (Lookup.get_feed_categories feed) <->
             exists f, In f feed /\ feed_category f = x) /\
  StronglySorted (fun a b => String.compare a b = Lt)
    (Lookup.get_feed_categories feed).
Proof.
  unfold Lookup.get_feed_categories. split; [| apply distinct_sorted_spec].
  intros x. split.
  - intros Hx. apply distinct_sorted_spec, in_map_iff in Hx.
    destruct Hx as (f & Hf & Hin). now exists f.
  - intros (f & Hin & Hf). apply distinct_sorted_spec, in_map_iff. now exists f.
Qed.

Lemma toString_truthy (z : Z) : truthy (toString z) = true.
Proof.
  destruct z as [|p|p]; [reflexivity | | reflexivity].
  unfold toString. cbn [Z.to_int NilZero.string_of_int].
  unfold NilZero.string_of_uint. now destruct (Pos.to_uint p).
Qed.

Lemma filter_sublist {A} (f : A -> bool) (l : list A) :
  List.filter f l `sublist_of` l.
Proof.
  induction l as [|a l IH]; simpl; [constructor |].
  destruct (f a); now constructor.
Qed.

(** X5.  [GET /api/states] answers 400 "countryId is required" when the
    parameter is absent or empty; otherwise it returns, in the order of
    the data, exactly the states whose [countryId] is the integer that
    [parseInt] reads from the parameter (none when it reads no number);
    for the decimal form of [k] these are the states of country [k]. *)
Theorem states_by_country (states : list State) (countryId_ : option string) :
  (countryId_ = None \/ countryId_ = Some "" ->
   Lookup.get_states states countryId_ = Refused 400 "countryId is required") /\
  (forall s, countryId_ = Some s -> s <> "" ->
     exists l, Lookup.get_states states countryId_ = Data l /\
               l `sublist_of` states /\
               forall x, In x l <->
                         In x states /\ JS.parseInt s = Some (countryId x)) /\
  (forall k, exists l,
     Lookup.get_states states (Some (toString k)) = Data l /\
     forall x, In x l <-> In x states /\ countryId x = k).
Proof.
  unfold Lookup.get_states. split; [| split].
  - intros [-> | ->]; reflexivity.
  - intros s -> Hs. cbn.
    rewrite (proj2 (truthy_nonempty s) Hs). cbn [negb].
    eexists. split; [reflexivity | split; [apply filter_sublist |]].
    intros x. rewrite filter_In. unfold Lookup.same_id.
    destruct (JS.parseInt s) as [m|].
    + rewrite Z.eqb_eq. intuition congruence.
    + intuition congruence.
  - intros k. cbn. rewrite toString_truthy, parseInt_toString.
    cbn [negb]. eexists. split; [reflexivity |].
    intros x. rewrite filter_In. unfold Lookup.same_id.
    now rewrite Z.eqb_eq.
Qed.

Lemma states_by_country_witness :
  exists l, Lookup.get_states sample_states (Some "7") = Data l /\
            l `sublist_of` sample_states /\
            forall x, In x l <->
                      In x sample_states /\ JS.parseInt "7" = Some (countryId x).
Proof.
  apply (states_by_country sample_states (Some "7")); [reflexivity | discriminate].
Defined.

(** X6.  [GET /api/cities] answers 400 "stateId is required" when the
    parameter is absent or empty; otherwise it returns, in the order of
    the data, exactly the cities whose [stateId] is the integer that
    [parseInt] reads from the parameter (none when it reads no number);
    for the decimal form of [k] these are the cities of state [k]. *)
Theorem cities_by_state (cities : list City) (stateId_ : option string) :
  (stateId_ = None \/ stateId_ = Some "" ->
   Lookup.get_cities cities stateId_ = Refused 400 "stateId is required") /\
  (forall s, stateId_ = Some s -> s <> "" ->
     exists l, Lookup.get_cities cities stateId_ = Data l /\
               l `sublist_of` cities /\
               forall x, In x l <->
                         In x cities /\ JS.parseInt s = Some (stateId x)) /\
  (forall k, exists l,
     Lookup.get_cities cities (Some (toString k)) = Data l /\
     forall x, In x l <-> In x cities /\ stateId x = k).
Proof.
  unfold Lookup.get_cities. split; [| split].
  - intros [-> | ->]; reflexivity.
  - intros s -> Hs. cbn.
    rewrite (proj2 (truthy_nonempty s) Hs). cbn [negb].
    eexists. split; [reflexivity | split; [apply filter_sublist |]].
    intros x. rewrite filter_In. unfold Lookup.same_id.
    destruct (JS.parseInt s) as [m|].
    + rewrite Z.eqb_eq. intuition congruence.
    + intuition congruence.
  - intros k. cbn. rewrite toString_truthy, parseInt_toString.
    cbn [negb]. eexists. split; [reflexivity |].
    intros x. rewrite filter_In. unfold Lookup.same_id.
    now rewrite Z.eqb_eq.
Qed.

Lemma cities_by_state_witness :
  Lookup.get_cities sample_cities None = Refused 400 "stateId is required".
Proof.
  apply (cities_by_state sample_cities None). now left.
Defined.

(** ** The generator of the cities *)

Section GeneratorProperties.
Variable random : Z -> Q.

Lemma loop_spec (fuel : nat) (i : Z) (acc : list City) :
  1 <= i <= 101 ->
  (Z.to_nat (101 - i) <= fuel)%nat ->
  Generator.loop random fuel i acc =
  (acc ++ map (Generator.city random)
            (map Z.of_nat (seq (Z.to_nat i) (Z.to_nat (101 - i)))))%list.
Proof.
  revert i acc. induction fuel as [|fuel IH]; intros i acc Hi Hfuel.
  - replace (Z.to_nat (101 - i)) with 0%nat by lia. cbn. now rewrite app_nil_r.
  - cbn [Generator.loop]. destruct (i <=? 100) eqn:Hle.
    + apply Z.leb_le in Hle. rewrite IH by lia. unfold JS.push.
      replace (Z.to_nat (101 - i)) with (S (Z.to_nat (101 - (i + 1)))) by lia.
      cbn [seq map]. rewrite <- app_assoc. cbn [app].
      replace (Z.of_nat (Z.to_nat i)) with i by lia.
      replace (S (Z.to_nat i)) with (Z.to_nat (i + 1)) by lia.
      reflexivity.
    + apply Z.leb_gt in Hle.
      replace (Z.to_nat (101 - i)) with 0%nat by lia. cbn. now rewrite app_nil_r.
Qed.

Lemma filter_state_range (k : Z) (a n : nat) :
  List.filter (fun c => Lookup.same_id (stateId c) (Some k))
    (map (Generator.city random) (map Z.of_nat (seq a n))) =
  if (Z.of_nat a <=? k) && (k <? Z.of_nat a + Z.of_nat n)
  then [Generator.city random k] else [].
Proof.
  revert a. induction n as [|n IH]; intros a.
  - cbn [seq map List.filter].
    destruct (_ && _) eqn:Hc; [| reflexivity].
    apply andb_true_iff in Hc as [H1%Z.leb_le H2%Z.ltb_lt]. lia.
  - cbn [seq map List.filter Lookup.same_id Generator.city stateId].
    rewrite IH.
    destruct (Z.of_nat a =? k) eqn:Heq;
      destruct ((Z.of_nat (S a) <=? k) && (k <? Z.of_nat (S a) + Z.of_nat n))
        eqn:Hin;
      destruct ((Z.of_nat a <=? k) && (k <? Z.of_nat a + Z.of_nat (S n)))
        eqn:Hout;
      rewrite ?andb_true_iff, ?andb_false_iff, ?Z.leb_le, ?Z.ltb_lt,
        ?Z.leb_gt, ?Z.ltb_ge, ?Z.eqb_eq, ?Z.eqb_neq in *;
      try reflexivity; try lia.
    subst k. reflexivity.
Qed.

End GeneratorProperties.

(** X7.  [generateCities] returns 100 cities: the [i]-th has id [i] and
    state id [i], for [i] from 1 to 100, so that every state has one city;
    when the random source stays in [0, 1), as [Math.random] does, every
    population is at least 50000 and below 5000000.  A hundred iterations
    of the loop are enough. *)
Theorem generated_cities (random : Z -> Q) (fuel : nat) :
  (100 <= fuel)%nat ->
  let cities := Generator.generateCities random fuel in
  cities = map (Generator.city random) (map Z.of_nat (seq 1 100)) /\
  length cities = 100%nat /\
  map city_id cities = map Z.of_nat (seq 1 100) /\
  (forall c, In c cities -> stateId c = city_id c) /\
  ((forall i, 1 <= i <= 100 -> (0 <= random i)%Q /\ (random i < 1)%Q) ->
   forall c, In c cities -> 50000 <= population c < 5000000).
Proof.
  intros Hfuel cities.
  assert (Heq : cities = map (Generator.city random) (map Z.of_nat (seq 1 100))).
  { subst cities. unfold Generator.generateCities.
    rewrite loop_spec by lia. reflexivity. }
  split; [exact Heq |]. rewrite Heq. clear Heq cities.
  split; [now rewrite !length_map, length_seq |].
  split; [now rewrite map_map, map_ext with (g := fun i => i) by reflexivity; rewrite map_id |].
  split.
  - intros c (i & <- & _)%in_map_iff. reflexivity.
  - intros Hrandom c (i & <- & (n & <- & Hn%in_seq)%in_map_iff)%in_map_iff.
    cbn [Generator.city population].
    destruct (Hrandom (Z.of_nat n) ltac:(lia)) as [H0 H1].
    set (i := Z.of_nat n) in *.
    change (inject_Z (5000000 - 50000)) with (4950000 # 1)%Q.
    change (inject_Z 50000) with (50000 # 1)%Q.
    split.
    + change 50000 with (Qfloor (50000 # 1)) at 1.
      apply Qfloor_resp_le. lra.
    + pose proof (Qfloor_le (random i * (4950000 # 1) + (50000 # 1))) as Hfl.
      assert (Hlt : (inject_Z (Qfloor (random i * (4950000 # 1) + (50000 # 1)))
                     < inject_Z 5000000)%Q).
      { eapply Qle_lt_trans; [exact Hfl |].
        change (inject_Z 5000000) with (5000000 # 1)%Q. lra. }
      now rewrite <- Zlt_Qlt in Hlt.
Qed.

Lemma generated_cities_witness :
  length sample_cities = 100%nat /\
  Forall (fun c => 50000 <= population c < 5000000) sample_cities.
Proof.
  destruct (generated_cities sample_random 101 ltac:(lia))
    as (_ & Hlen & _ & _ & Hpop).
  split; [exact Hlen |]. apply List.Forall_forall. apply Hpop.
  intros i Hi. unfold sample_random, Qle, Qlt. cbn. lia.
Defined.

(** X8.  On the generated cities [GET /api/cities] returns, for the
    decimal form of a state id [k], the one city with id [k] when
    [1 <= k <= 100] and no city otherwise. *)
Theorem generated_city_of_state (random : Z -> Q) (fuel : nat) (k : Z) :
  (100 <= fuel)%nat ->
  Lookup.get_cities (Generator.generateCities random fuel) (Some (toString k)) =
  Data (if (1 <=? k) && (k <=? 100) then [Generator.city random k] else []).
Proof.
  intros Hfuel. unfold Lookup.get_cities. cbn.
  rewrite toString_truthy, parseInt_toString. cbn [negb].
  unfold Generator.generateCities. rewrite loop_spec by lia. cbn [app].
  change (Z.to_nat 1) with 1%nat. change (Z.to_nat (101 - 1)) with 100%nat.
  rewrite filter_state_range. f_equal.
  change (Z.of_nat 1) with 1. change (1 + Z.of_nat 100) with 101.
  destruct (1 <=? k); [| reflexivity]. cbn [andb].
  destruct (k <? 101) eqn:H1; destruct (k <=? 100) eqn:H2;
    rewrite ?Z.ltb_lt, ?Z.ltb_ge, ?Z.leb_le, ?Z.leb_gt in *;
    try reflexivity; lia.
Qed.

Lemma generated_city_of_state_witness :
  Lookup.get_cities sample_cities (Some "42") =
  Data [Generator.city sample_random 42].
Proof.
  exact (generated_city_of_state sample_random 101 42 ltac:(lia)).
Defined.

(** ** Order of the returned page *)

Lemma Qminus_le_0 (x y : Q) : (x - y <= 0)%Q <-> (x <= y)%Q.
Proof. split; intros; lra. Qed.

Lemma Qopp_minus_le_0 (x y : Q) : (- (x - y) <= 0)%Q <-> (y <= x)%Q.
Proof. split; intros; lra. Qed.

Lemma inject_Z_le_0 (z : Z) : (inject_Z z <= 0)%Q <-> z <= 0.
Proof. unfold Qle, inject_Z. simpl. lia. Qed.

Lemma opp_inject_Z_le_0 (z : Z) : (- inject_Z z <= 0)%Q <-> 0 <= z.
Proof. unfold Qle, Qopp, inject_Z. simpl. lia. Qed.

Lemma order_desc_false (o : option string) :
  o <> Some "desc" -> String.eqb (default "asc" o) "desc" = false.
Proof.
  intros Ho. destruct o as [s|]; simpl; [| reflexivity].
  apply String.eqb_neq. congruence.
Qed.

Lemma sort_key_other (s : option string) (key : string) :
  key <> "name" -> s <> Some key -> String.eqb (default "name" s) key = false.
Proof.
  intros Hk Hs. apply String.eqb_neq.
  destruct s as [x|]; cbn; congruence.
Qed.

(** X9.  The page returned by [GET /api/products] is in the requested
    order: with [sort=price] the prices ascend from each product to the
    next, and descend with [order=desc]; likewise the ratings with
    [sort=rating]; with any other (or no) sort key the names are in the
    order of [localeCompare], ascending or, with [order=desc], descending,
    provided the host's comparison has a consistent sign.  Any order value
    other than [desc] means ascending. *)
Theorem products_page_sorted `{Host} (products : list Product)
    (q : Products.Query) :
  let page := Products.data (Products.get_products products q) in
  (Products.q_sort q = Some "price" ->
   (Products.order q <> Some "desc" ->
    Sorted (fun a b => (price a <= price b)%Q) page) /\
   (Products.order q = Some "desc" ->
    Sorted (fun a b => (price b <= price a)%Q) page)) /\
  (Products.q_sort q = Some "rating" ->
   (Products.order q <> Some "desc" ->
    Sorted (fun a b => (rating a <= rating b)%Q) page) /\
   (Products.order q = Some "desc" ->
    Sorted (fun a b => (rating b <= rating a)%Q) page)) /\
  (Products.q_sort q <> Some "price" ->
   Products.q_sort q <> Some "rating" ->
   consistent_sign localeCompare ->
   (Products.order q <> Some "desc" ->
    Sorted (fun a b => localeCompare (name a) (name b) <= 0) page) /\
   (Products.order q = Some "desc" ->
    Sorted (fun a b => 0 <= localeCompare (name a) (name b)) page)).
Proof.
  intros page. subst page. unfold Products.get_products. cbn [Products.data].
  unfold Products.sorted.
  assert (Hgen : forall (R : Product -> Product -> Prop),
             (forall a b, (Products.comparator q a b <= 0)%Q <-> R a b) ->
             (forall a b, R a b \/ R b a) ->
             Sorted R (JS.slice_numbers
                         (JS.sort (Products.comparator q)
                            (Products.filtered products q))
                         (Products.startIndex q) (Products.endIndex q))).
  { intros R HR Htotal. unfold JS.slice_numbers. apply Sorted_slice.
    apply (Sorted_impl_In (fun a b => (Products.comparator q a b <= 0)%Q)).
    - intros a b _ _. apply HR.
    - apply sort_Sorted. intros a b Hab. apply HR.
      destruct (Htotal a b) as [Hr | Hr]; [| exact Hr].
      exfalso. apply Hab, HR, Hr. }
  split; [| split].
  - intros Hs. split; intros Ho; apply Hgen.
    + intros a b. unfold Products.comparator. rewrite Hs.
      rewrite (order_desc_false _ Ho). simpl. apply Qminus_le_0.
    + intros a b. destruct (Qlt_le_dec (price b) (price a)); [right | left]; lra.
    + intros a b. unfold Products.comparator. rewrite Hs, Ho. simpl.
      apply Qopp_minus_le_0.
    + intros a b. destruct (Qlt_le_dec (price b) (price a)); [left | right]; lra.
  - intros Hs. split; intros Ho; apply Hgen.
    + intros a b. unfold Products.comparator. rewrite Hs.
      rewrite (order_desc_false _ Ho). simpl. apply Qminus_le_0.
    + intros a b. destruct (Qlt_le_dec (rating b) (rating a)); [right | left]; lra.
    + intros a b. unfold Products.comparator. rewrite Hs, Ho. simpl.
      apply Qopp_minus_le_0.
    + intros a b. destruct (Qlt_le_dec (rating b) (rating a)); [left | right]; lra.
  - intros Hp Hr Hsign. split; intros Ho; apply Hgen.
    + intros a b. unfold Products.comparator.
      rewrite (sort_key_other _ "price"), (sort_key_other _ "rating");
        [| discriminate | exact Hr | discriminate | exact Hp].
      rewrite (order_desc_false _ Ho). apply inject_Z_le_0.
    + intros a b. destruct (Hsign (name a) (name b)) as [Hpos _].
      destruct (Z_le_gt_dec (localeCompare (name a) (name b)) 0);
        [left; assumption | right; apply Hpos; lia].
    + intros a b. unfold Products.comparator.
      rewrite (sort_key_other _ "price"), (sort_key_other _ "rating");
        [| discriminate | exact Hr | discriminate | exact Hp].
      rewrite Ho. simpl. apply opp_inject_Z_le_0.
    + intros a b. destruct (Hsign (name a) (name b)) as [_ Hneg].
      destruct (Z_le_gt_dec 0 (localeCompare (name a) (name b)));
        [left; assumption | right; apply Hneg; lia].
Qed.

Lemma ascii_localeCompare_sign : consistent_sign ascii_localeCompare.
Proof.
  intros a b. unfold ascii_localeCompare.
  rewrite (String.compare_antisym a b).
  destruct (String.compare b a); simpl; split; lia.
Qed.

(** The sample catalog by name, in descending order. *)
Lemma products_page_sorted_witness :
  Sorted (fun a b => 0 <= ascii_localeCompare (name a) (name b))
    (Products.data
       (Products.get_products (H := ascii_host) sample_products
          descending_names_query)).
Proof.
  apply (products_page_sorted (H := ascii_host) sample_products
           descending_names_query);
    [discriminate | discriminate | exact ascii_localeCompare_sign | reflexivity].
Defined.

(** ** Completeness of the filter chain *)

Lemma In_stock_filter_iff `{Host} q l p :
  In p (Products.stock_filter q l) <->
  In p l /\
  (Products.q_inStock q = Some "true" -> inStock p = true /\ 0 < stock p) /\
  (Products.q_inStock q = Some "false" -> inStock p = false \/ stock p = 0).
Proof.
  unfold Products.stock_filter.
  destruct (Products.q_inStock q) as [s|]; simpl.
  - destruct (String.eqb s "true") eqn:Ht.
    + apply String.eqb_eq in Ht as ->.
      rewrite filter_In, andb_true_iff, Z.ltb_lt.
      destruct (inStock p); simpl; intuition congruence.
    + destruct (String.eqb s "false") eqn:Hf.
      * apply String.eqb_eq in Hf as ->.
        rewrite filter_In, orb_true_iff, Z.eqb_eq.
        destruct (inStock p); simpl; intuition congruence.
      * apply String.eqb_neq in Ht, Hf. intuition congruence.
  - intuition congruence.
Qed.

(** X10.  The filter chain of [GET /api/products] keeps exactly the
    products that pass every active predicate, the bounds on price and
    rating being the parameters as [parseFloat] reads them: nothing that
    passes is dropped and nothing else is kept; the kept products are a
    subsequence of the catalog (its order, no product repeated more often
    than in the catalog); sorting only reorders them; and [totalItems]
    counts them. *)
Theorem products_filter_complete `{Host} (products : list Product)
    (q : Products.Query) :
  (forall p, In p (Products.filtered products q) <->
             In p products /\ passes_filters q p) /\
  Products.filtered products q `sublist_of` products /\
  Permutation (Products.sorted products q) (Products.filtered products q) /\
  Products.totalItems (Products.pagination (Products.get_products products q)) =
    Z.of_nat (length (Products.filtered products q)).
Proof.
  split; [| split; [| split]].
  - intros p. unfold Products.filtered, passes_filters.
    rewrite In_stock_filter_iff, In_before_stock. tauto.
  - apply filtered_sublist.
  - apply sort_Permutation.
  - cbn [Products.get_products Products.pagination Products.totalItems].
    unfold Products.get_products. cbn [Products.pagination Products.totalItems].
    f_equal. apply Permutation_length, sort_Permutation.
Qed.

(** ** Reading all pages *)

(** A page number from [2^53] on is beyond every page of an array. *)
Lemma far_page_slice {A} (l : list A) (x : JS.integral) (s : Z) :
  at_least (2 ^ 53) x -> 1 <= s -> is_array l ->
  let start := JS.times (JS.minus x (JS.Int 1)) (JS.Int s) in
  JS.slice_numbers l start (JS.plus start (JS.Int s)) = [].
Proof.
  intros Hx Hs Hlen start. unfold is_array in Hlen.
  assert (Hbig : 2 ^ 32 < 2 ^ 53) by (apply Z.pow_lt_mono_r; lia).
  assert (Hstart : exists lo, JS.bound (Z.of_nat (length l)) start = Some lo /\
                              Z.of_nat (length l) <= lo).
  { destruct Hx as [-> | (r & -> & Hr)].
    - subst start. cbn [JS.minus JS.times JS.sign].
      rewrite (proj2 (Z.sgn_pos_iff s)) by lia. cbn.
      eexists. split; [reflexivity | lia].
    - destruct (page_bounds r s ltac:(lia) Hs) as [[[Hst _] | [Hfar _]] _];
        fold start in Hst || fold start in Hfar.
      + rewrite Hst. cbn [JS.bound]. eexists. split; [reflexivity | nia].
      + apply (bound_at_least _ (2 ^ 53)); [lia | exact Hfar]. }
  destruct Hstart as (lo & Hlo & Hle).
  unfold JS.slice_numbers. rewrite Hlo. now apply slice_beyond.
Qed.

Lemma pageNum_with_page `{Host} (q : Products.Query) (p : Z) :
  Products.pageNum (with_page q p) = JS.to_number p.
Proof.
  unfold Products.pageNum, with_page, JS.parseInt_number. simpl.
  now rewrite parseInt_toString.
Qed.

Lemma page_take_drop `{Host} (products : list Product) (q : Products.Query)
    (p s : Z) :
  Products.limitNum q = JS.Int s -> 1 <= s -> 1 <= p ->
  is_array products ->
  Products.data (Products.get_products products (with_page q p)) =
  take (Z.to_nat s) (drop (Z.to_nat ((p - 1) * s)) (Products.sorted products q)).
Proof.
  intros Hs Hs1 Hp1 Harray.
  change (Products.sorted products q) with
    (Products.sorted products (with_page q p)).
  destruct (Z.le_gt_cases p (2 ^ 53)) as [Hsmall | Hfar].
  - apply (get_products_page products (with_page q p) p s);
      [| exact Hs | exact Hp1 | exact Hs1 | exact Harray].
    rewrite pageNum_with_page. apply to_number_exact. lia.
  - pose proof (sorted_is_array products (with_page q p) Harray) as Hlen.
    unfold Products.get_products. cbn [Products.data].
    unfold Products.endIndex, Products.startIndex.
    rewrite pageNum_with_page.
    change (Products.limitNum (with_page q p)) with (Products.limitNum q).
    rewrite Hs.
    rewrite far_page_slice;
      [| apply to_number_large; lia | exact Hs1 | exact Hlen].
    unfold is_array in Hlen.
    assert (Hbig : 2 ^ 32 < 2 ^ 53) by (apply Z.pow_lt_mono_r; lia).
    rewrite drop_ge by nia. now rewrite take_nil.
Qed.

Lemma product_pages_take_drop `{Host} (products : list Product)
    (q : Products.Query) (s : Z) (count : nat) (first : Z) :
  Products.limitNum q = JS.Int s -> 1 <= s -> 1 <= first ->
  is_array products ->
  product_pages products q count first =
  take (count * Z.to_nat s)
    (drop (Z.to_nat ((first - 1) * s)) (Products.sorted products q)).
Proof.
  intros Hs Hs1 Hf Harray. revert first Hf.
  induction count as [|count IH]; intros first Hf; cbn [product_pages];
    [reflexivity |].
  rewrite (page_take_drop products q first s Hs Hs1 Hf Harray), IH by lia.
  change (S count * Z.to_nat s)%nat with (Z.to_nat s + count * Z.to_nat s)%nat.
  rewrite <- take_take_drop, drop_drop. do 3 f_equal.
  rewrite <- Z2Nat.inj_add by nia. f_equal. lia.
Qed.

(** X11.  Reading a product query page by page loses and repeats nothing:
    for a catalog that is an array and a page size that [parseInt] reads
    into a finite Number of at least 1, the pages 1 to [n] one after the
    other are the first [n] times page-size products of the sorted
    filtered sequence, and the pages 1 to [totalPages] together are that
    whole sequence. *)
Theorem product_pages_cover `{Host} (products : list Product)
    (q : Products.Query) (s : Z) :
  Products.limitNum q = JS.Int s -> 1 <= s ->
  is_array products ->
  (forall n, product_pages products q n 1 =
             take (n * Z.to_nat s) (Products.sorted products q)) /\
  exists k,
    Products.totalPages
      (Products.pagination (Products.get_products products q)) = Some k /\
    0 <= k /\
    product_pages products q (Z.to_nat k) 1 = Products.sorted products q.
Proof.
  intros Hs Hs1 Harray.
  assert (Hpages : forall n, product_pages products q n 1 =
                             take (n * Z.to_nat s) (Products.sorted products q)).
  { intros n.
    rewrite (product_pages_take_drop products q s n 1 Hs Hs1) by
      (lia || exact Harray).
    reflexivity. }
  split; [exact Hpages |].
  set (len := Z.of_nat (length (Products.sorted products q))).
  exists (- (- len / s)).
  assert (Hk : len <= - (- len / s) * s).
  { pose proof (Z.div_mod (- len) s ltac:(lia)).
    pose proof (Z.mod_pos_bound (- len) s ltac:(lia)). nia. }
  split; [| split].
  - unfold Products.get_products.
    cbn [Products.pagination Products.totalPages]. rewrite Hs.
    cbn [JS.ceil_div].
    now replace (s =? 0) with false by (symmetry; apply Z.eqb_neq; lia).
  - subst len. nia.
  - rewrite Hpages. apply take_ge. subst len. nia.
Qed.

(** The two pages of size two of the sample catalog. *)
Lemma product_pages_cover_witness :
  product_pages (H := ascii_host) sample_products second_page_query 2 1 =
  take (2 * Z.to_nat 2)
    (Products.sorted (H := ascii_host) sample_products second_page_query).
Proof.
  apply (product_pages_cover (H := ascii_host) sample_products
           second_page_query 2);
    [reflexivity | lia | unfold is_array; simpl; lia].
Defined.

(** ** Scrolling through the feed *)

Lemma cursorNum_with_cursor `{Host} (q : Feed.Query) (c : Z) :
  Feed.cursorNum (with_cursor q c) = Some c.
Proof. unfold Feed.cursorNum, with_cursor. simpl. apply parseInt_toString. Qed.

Lemma scroll_0 `{Host} (feed : list FeedItem) (q : Feed.Query) :
  scroll feed 0 q = Feed.data (Feed.get_feed feed q).
Proof. reflexivity. Qed.

Lemma scroll_S `{Host} (feed : list FeedItem) (fuel : nat) (q : Feed.Query) :
  scroll feed (S fuel) q =
  match Feed.nextCursor (Feed.get_feed feed q) with
  | Some next =>
      (Feed.data (Feed.get_feed feed q) ++
       scroll feed fuel (with_cursor q next))%list
  | None => Feed.data (Feed.get_feed feed q)
  end.
Proof. reflexivity. Qed.

(** X12.  An infinite scroll reads the whole feed: starting from a cursor
    [c >= 0] with a limit of at least 1 and following [nextCursor] until it
    is null, the items received, in order, are exactly the items of the
    category-filtered feed from position [c] on, none missing and none
    twice; as many further queries as there are items left are enough. *)
Theorem scroll_reads_whole_feed `{Host} (feed : list FeedItem) (fuel : nat)
    (q : Feed.Query) (c l : Z) :
  Feed.cursorNum q = Some c ->
  Feed.limitNum q = Some l ->
  0 <= c -> 1 <= l ->
  (length (Feed.filtered feed q) - Z.to_nat c <= fuel)%nat ->
  scroll feed fuel q = drop (Z.to_nat c) (Feed.filtered feed q).
Proof.
  revert q c. induction fuel as [|fuel IH]; intros q c Hc Hl Hc0 Hl1 Hfuel.
  - rewrite scroll_0, (feed_data feed q c l Hc Hl) by lia.
    rewrite interval_slice_take_drop by lia.
    rewrite (drop_ge (Feed.filtered feed q)) by lia.
    apply take_nil.
  - rewrite scroll_S, (feed_nextCursor feed q c l Hc Hl).
    rewrite (feed_data feed q c l Hc Hl) by lia.
    rewrite interval_slice_take_drop by lia.
    destruct (c + l <? Z.of_nat (length (Feed.filtered feed q))) eqn:Hlt.
    + apply Z.ltb_lt in Hlt.
      rewrite (IH (with_cursor q (c + l)) (c + l));
        [| apply cursorNum_with_cursor | exact Hl | lia | lia |].
      * rewrite (feed_filtered_category feed q (with_cursor q (c + l)) eq_refl).
        replace (Z.to_nat (c + l)) with (Z.to_nat c + Z.to_nat (c + l - c))%nat
          by lia.
        rewrite <- drop_drop. apply take_drop.
      * rewrite (feed_filtered_category feed q (with_cursor q (c + l)) eq_refl).
        lia.
    + apply Z.ltb_ge in Hlt. apply take_ge. rewrite length_drop. lia.
Qed.

(** The news items of the sample feed, two per query. *)
Lemma scroll_reads_whole_feed_witness :
  scroll (H := ascii_host) sample_feed 3 (news_feed "0") =
  drop (Z.to_nat 0) (Feed.filtered (H := ascii_host) sample_feed (news_feed "0")).
Proof.
  apply (scroll_reads_whole_feed (H := ascii_host) sample_feed 3
           (news_feed "0") 0 2);
    [reflexivity | reflexivity | lia | lia | vm_compute; lia].
Defined.

(** * One request as a step of the store *)

Lemma entry_agree (st st2 : Cart.Store) (sid : string) :
  st2 !! sid = st !! sid -> Cart.entry st2 sid = Cart.entry st sid.
Proof. intros Heq. unfold Cart.entry. now rewrite Heq. Qed.

Lemma entry_stored_inv (st : Cart.Store) (sid : string) (c : Cart.Cart) :
  Cart.entry st sid = Cart.Stored c -> st !! sid = Some c.
Proof.
  unfold Cart.entry. destruct (st !! sid) as [c0|].
  - now intros [= ->].
  - destruct (Cart.inherited sid); discriminate.
Qed.


Section CartSteps.
Variable products : list Product.

Lemma lines_of_lookup (st : Cart.Store) (sid : string) (c : Cart.Cart) :
  st !! sid = Some c -> lines_of st sid = Cart.items c.
Proof. unfold lines_of. now intros ->. Qed.

(** What a request does to the store: nothing, the deletion of the cart of
    its session, or new lines for the cart of its session. *)
Lemma handle_step (st : Cart.Store) (r : Cart.Request) :
  (Cart.handle products st r).1 = st \/
  ((exists h g, r = Cart.Clear h g) /\
   (Cart.handle products st r).1 = delete (session_of r) st) \/
  exists new created,
    (Cart.handle products st r).1 =
      <[session_of r := {| Cart.items := new; Cart.createdAt := created |}]> st /\
    written_lines products r (lines_of st (session_of r)) new.
Proof.
  destruct r as [h g now | h g now pid q | h g pid q | h g pid | h g | h g];
    cbn [Cart.handle session_of].
  - left. apply get_cart_store.
  - destruct (Cart.id_truthy pid) eqn:Hpid;
      [| left; unfold Cart.add; now rewrite Hpid].
    destruct (Cart.find_product products (Cart.parseInt_id pid))
      as [product|] eqn:Hfind;
      [| left; now rewrite (add_not_found products _ _ _ _ _ _ Hpid Hfind)].
    destruct (inStock product) eqn:Hin;
      [| left; now rewrite (add_out_of_stock products _ _ _ _ _ _ _ Hpid Hfind
                              (or_introl Hin))].
    destruct (Z.lt_ge_cases (stock product) (default 1 q)) as [Hlt | Hn];
      [left; now rewrite (add_out_of_stock products _ _ _ _ _ _ _ Hpid Hfind
                            (or_intror Hlt)) |].
    destruct (classic_entry st (Cart.getSessionId h g)) as [Hentry | Hown];
      [left; now rewrite (add_inherited products st h g now pid q product
                            Hpid Hfind Hin Hn Hentry) |].
    rewrite (add_in_stock products st h g now pid q product Hpid Hfind Hin Hn
               Hown).
    cbn zeta.
    destruct (Cart.find_line _ _) as [line|] eqn:Hline.
    + destruct (_ <? _) eqn:Hlt; [now left |]. apply Z.ltb_ge in Hlt.
      right. right. do 2 eexists. split; [reflexivity |].
      exists product. rewrite Hline. auto.
    + right. right. do 2 eexists. split; [reflexivity |].
      exists product. rewrite Hline. auto.
  - unfold Cart.update.
    destruct q as [n|]; [| now left].
    destruct (Cart.id_truthy pid); [| now left]. cbn [negb].
    destruct (Cart.entry st (Cart.getSessionId h g)) as [c| |] eqn:Hentry;
      [| now left | now left].
    apply entry_stored_inv in Hentry as Hc.
    destruct (Cart.find_line _ _) as [cartItem|] eqn:Hline; [| now left].
    destruct (Cart.find_product _ _) as [product|] eqn:Hfind; [| now left].
    destruct (_ <? _) eqn:Hlt; [now left |]. apply Z.ltb_ge in Hlt.
    right. right. do 2 eexists. split; [reflexivity |].
    exists product, cartItem. rewrite (lines_of_lookup _ _ _ Hc). auto.
  - unfold Cart.remove.
    destruct (Cart.entry st (Cart.getSessionId h g)) as [c| |] eqn:Hentry;
      [| now left | now left].
    apply entry_stored_inv in Hentry as Hc.
    right. right. do 2 eexists. split; [reflexivity |].
    cbn [written_lines]. now rewrite (lines_of_lookup _ _ _ Hc).
  - unfold Cart.clear. destruct (st !! _); [| now left].
    right. left. split; [eauto | reflexivity].
  - left. apply validate_store.
Qed.

Ltac same_session :=
  cbn [fst snd]; split;
  [reflexivity
  | rewrite ?lookup_insert_eq, ?lookup_delete_eq; congruence].

(** X13.  A request reads and writes the cart of its own session only: the
    carts of all other sessions are as before, and both the response and
    the cart the session has afterwards are the same in any two stores
    that agree on the session's cart. *)
Theorem requests_touch_only_their_session (st : Cart.Store) (r : Cart.Request) :
  (forall sid, sid <> session_of r ->
               (Cart.handle products st r).1 !! sid = st !! sid) /\
  (forall st2, st2 !! session_of r = st !! session_of r ->
     (Cart.handle products st2 r).2 = (Cart.handle products st r).2 /\
     (Cart.handle products st2 r).1 !! session_of r =
       (Cart.handle products st r).1 !! session_of r).
Proof.
  split.
  - intros sid Hne.
    destruct (handle_step st r) as [-> | [[_ ->] | (new & created & -> & _)]].
    + reflexivity.
    + now apply lookup_delete_ne.
    + now apply lookup_insert_ne.
  - intros st2 Heq. pose proof (entry_agree _ _ _ Heq) as Hentry.
    destruct r as [h g now | h g now pid q | h g pid q | h g pid | h g | h g];
      cbn [Cart.handle session_of] in *.
    + unfold Cart.get_cart. rewrite Hentry.
      destruct (Cart.entry st _); same_session.
    + unfold Cart.add.
      destruct (negb (Cart.id_truthy pid)); [same_session |].
      destruct (Cart.find_product _ _) as [product|]; [| same_session].
      destruct (negb (inStock product) || _); [same_session |].
      rewrite Hentry.
      destruct (Cart.entry st _) as [c| |]; [| same_session |];
        unfold Cart.add_to_cart;
        (destruct (Cart.find_line _ _) as [line|];
         [destruct (_ <? _) |]); same_session.
    + unfold Cart.update.
      destruct q as [n|]; [| same_session].
      destruct (negb (Cart.id_truthy pid)); [same_session |].
      rewrite Hentry.
      destruct (Cart.entry st _) as [c| |]; [| same_session | same_session].
      destruct (Cart.find_line _ _) as [cartItem|]; [| same_session].
      destruct (Cart.find_product _ _) as [product|]; [| same_session].
      destruct (_ <? _); same_session.
    + unfold Cart.remove. rewrite Hentry.
      destruct (Cart.entry st _) as [c| |]; same_session.
    + unfold Cart.clear. rewrite Heq.
      destruct (st !! Cart.getSessionId h g) as [c|] eqn:Hc; same_session.
    + unfold Cart.validate. rewrite Hentry.
      destruct (Cart.entry st _) as [c| |]; [| same_session | same_session].
      destruct (length (Cart.items c) =? 0)%nat; [same_session |].
      destruct (fold_left _ _ _) as [issues valid].
      destruct (0 <? length issues)%nat; same_session.
Qed.

End CartSteps.

(** * Remove and Clear *)

Lemma remove_product_idem (n : option Z) (l : list Cart.CartLine) :
  Cart.remove_product n (Cart.remove_product n l) = Cart.remove_product n l.
Proof.
  unfold Cart.remove_product. induction l as [|x l IH]; simpl; [reflexivity |].
  destruct (match n with Some _ => _ | None => _ end) eqn:Hx; [| exact IH].
  simpl. rewrite Hx. now f_equal.
Qed.

Lemma remove_product_NaN (l : list Cart.CartLine) :
  Cart.remove_product None l = l.
Proof.
  unfold Cart.remove_product. induction l as [|x l IH]; simpl; congruence.
Qed.

(** X14.  [DELETE /api/cart/remove/:productId]: without a cart the store
    is unchanged and the request fails, with 404 "Cart not found", or
    with 500 when the session id names a member of [Object.prototype].
    With a cart it always succeeds, also when no line has the product: the
    lines kept are exactly those of another product, in their order, the
    creation time is kept, and the response carries the message "Item
    removed from cart", the stored lines and their summary.  An id that
    [parseInt] does not read removes nothing.  Removing the same product a
    second time changes nothing. *)
Theorem remove_outcomes (st : Cart.Store) (header : option string)
    (generated productId_ : string) :
  let sid := Cart.getSessionId header generated in
  let st' := (Cart.remove st header generated productId_).1 in
  let r := (Cart.remove st header generated productId_).2 in
  (st !! sid = None ->
   st' = st /\
   r = if Cart.inherited sid then Cart.fault
       else Cart.fail 404 "Cart not found") /\
  (forall c, st !! sid = Some c ->
     let kept := lines_of st' sid in
     r = Cart.ok (Cart.CartData (Some "Item removed from cart") None kept
                    (Cart.summarize kept None)) /\
     st' = <[sid := {| Cart.items := kept; Cart.createdAt := Cart.createdAt c |}]> st /\
     kept `sublist_of` Cart.items c /\
     (forall k, JS.parseInt productId_ = Some k ->
        forall x, In x kept <-> In x (Cart.items c) /\ Cart.productId x <> k) /\
     (JS.parseInt productId_ = None -> kept = Cart.items c) /\
     ((forall x, In x (Cart.items c) ->
                 Some (Cart.productId x) <> JS.parseInt productId_) ->
      kept = Cart.items c) /\
     Cart.remove st' header generated productId_ = (st', r)).
Proof.
  intros sid st' r. subst st' r. unfold Cart.remove at 1 2 3 4 5 6 7 8 9.
  fold sid. split.
  - intros Hnone. unfold Cart.entry. rewrite Hnone.
    destruct (Cart.inherited sid); split; reflexivity.
  - intros c Hc. rewrite (entry_stored _ _ _ Hc). cbn [fst snd].
    rewrite lines_of_insert. cbn [Cart.items].
    split; [reflexivity | split; [reflexivity | split; [| split; [| split; [| split]]]]].
    + apply filter_sublist_of.
    + intros k ->. intros x. apply In_remove_product.
    + intros ->. apply remove_product_NaN.
    + intros Hno. destruct (JS.parseInt productId_) as [k|];
        [| apply remove_product_NaN].
      apply remove_product_absent. intros x Hx Heq. apply (Hno x Hx). congruence.
    + unfold Cart.remove. fold sid.
      rewrite (entry_stored _ _ _ (lookup_insert_eq _ _ _)).
      cbn [Cart.items Cart.createdAt].
      now rewrite remove_product_idem, insert_insert_eq.
Qed.

(** Removing the desk from the sample cart. *)
Lemma remove_outcomes_witness :
  (Cart.remove desk_cart (Some "s") "g" "2").2 =
  Cart.ok (Cart.CartData (Some "Item removed from cart") None []
             (Cart.summarize [] None)).
Proof.
  destruct (remove_outcomes desk_cart (Some "s") "g" "2") as [_ Hcart].
  exact (proj1 (Hcart {| Cart.items := [snapshot desk 2];
                         Cart.createdAt := "t0" |} eq_refl)).
Defined.

(** X15.  [DELETE /api/cart/clear] always answers 200 and leaves the
    session without a cart, the other sessions as they were; clearing
    twice is clearing once.  After it the session is as new.  When the
    session id names no member of [Object.prototype], [Get] shows no
    lines and the time of the request as creation time, [Validate] fails
    with "Cart is empty", [Update] and [Remove] fail with "Cart not
    found"; when it names one, these four requests are answered with
    500. *)
Theorem clear_outcomes (products : list Product) (st : Cart.Store)
    (header : option string) (generated : string) :
  let sid := Cart.getSessionId header generated in
  let st' := (Cart.clear st header generated).1 in
  (Cart.clear st header generated).2 = Cart.ok Cart.Cleared /\
  st' !! sid = None /\
  (forall sid', sid' <> sid -> st' !! sid' = st !! sid') /\
  (st !! sid = None -> st' = st) /\
  (Cart.clear st' header generated).1 = st' /\
  (Cart.inherited sid = false ->
   (forall now,
      Cart.get_cart st' header generated now =
      (st', Cart.ok (Cart.CartData None (Some sid) []
                       (Cart.summarize [] (Some now))))) /\
   Cart.validate products st' header generated =
     (st', Cart.fail 400 "Cart is empty") /\
   (forall pid, Cart.remove st' header generated pid =
                (st', Cart.fail 404 "Cart not found")) /\
   (forall pid q, Cart.id_truthy pid = true ->
      Cart.update products st' header generated pid (Some q) =
      (st', Cart.fail 404 "Cart not found"))) /\
  (Cart.inherited sid = true ->
   (forall now, Cart.get_cart st' header generated now = (st', Cart.fault)) /\
   Cart.validate products st' header generated = (st', Cart.fault) /\
   (forall pid, Cart.remove st' header generated pid = (st', Cart.fault)) /\
   (forall pid q, Cart.id_truthy pid = true ->
      Cart.update products st' header generated pid (Some q) =
      (st', Cart.fault))).
Proof.
  intros sid st'.
  assert (Hnone : st' !! sid = None).
  { subst st'. unfold Cart.clear. fold sid. cbn [fst].
    destruct (st !! sid) eqn:Hc; [apply lookup_delete_eq | exact Hc]. }
  split; [reflexivity | split; [exact Hnone |]].
  split; [| split; [| split; [| split]]].
  - intros sid' Hne. subst st'. unfold Cart.clear. fold sid. cbn [fst].
    destruct (st !! sid); [now apply lookup_delete_ne | reflexivity].
  - intros Hc. subst st'. unfold Cart.clear. fold sid. now rewrite Hc.
  - unfold Cart.clear at 1. fold sid. now rewrite Hnone.
  - intros Hsid.
    assert (Hentry : Cart.entry st' sid = Cart.Undefined)
      by (unfold Cart.entry; now rewrite Hnone, Hsid).
    split; [| split; [| split]].
    + intros now. unfold Cart.get_cart. fold sid. now rewrite Hentry.
    + unfold Cart.validate. fold sid. now rewrite Hentry.
    + intros pid. unfold Cart.remove. fold sid. now rewrite Hentry.
    + intros pid q Hpid. unfold Cart.update. fold sid.
      now rewrite Hpid, Hentry.
  - intros Hsid.
    assert (Hentry : Cart.entry st' sid = Cart.Inherited)
      by (unfold Cart.entry; now rewrite Hnone, Hsid).
    split; [| split; [| split]].
    + intros now. unfold Cart.get_cart. fold sid. now rewrite Hentry.
    + unfold Cart.validate. fold sid. now rewrite Hentry.
    + intros pid. unfold Cart.remove. fold sid. now rewrite Hentry.
    + intros pid q Hpid. unfold Cart.update. fold sid.
      now rewrite Hpid, Hentry.
Qed.

(** Clearing the sample cart: a [Get] that follows shows an empty cart. *)
Lemma clear_outcomes_witness :
  Cart.get_cart (Cart.clear desk_cart (Some "s") "g").1 (Some "s") "g" "t1" =
  ((Cart.clear desk_cart (Some "s") "g").1,
   Cart.ok (Cart.CartData None (Some "s") [] (Cart.summarize [] (Some "t1")))).
Proof.
  destruct (clear_outcomes sample_products desk_cart (Some "s") "g")
    as (_ & _ & _ & _ & _ & Hplain & _).
  destruct (Hplain eq_refl) as [Hget _]. exact (Hget "t1").
Defined.

(** * The cart shown by a response *)


Lemma add_success_inv (products : list Product) (st : Cart.Store)
    (header : option string) (generated now : string)
    (pid : option Cart.IdValue) (q : option Z) :
  Cart.status (Cart.add products st header generated now pid q).2 = 200 ->
  exists product,
    Cart.id_truthy pid = true /\
    Cart.find_product products (Cart.parseInt_id pid) = Some product /\
    inStock product = true /\
    default 1 q <= stock product /\
    own_session st (Cart.getSessionId header generated) /\
    forall line,
      Cart.find_line (Some (id product))
        (lines_of st (Cart.getSessionId header generated)) = Some line ->
      Cart.quantity line + default 1 q <= stock product.
Proof.
  destruct (Cart.id_truthy pid) eqn:Hpid;
    [| unfold Cart.add; rewrite Hpid; discriminate].
  destruct (Cart.find_product products (Cart.parseInt_id pid))
    as [product|] eqn:Hfind;
    [| rewrite (add_not_found products _ _ _ _ _ _ Hpid Hfind); discriminate].
  destruct (inStock product) eqn:Hin;
    [| rewrite (add_out_of_stock products _ _ _ _ _ _ _ Hpid Hfind
                  (or_introl Hin)); discriminate].
  destruct (Z.lt_ge_cases (stock product) (default 1 q)) as [Hlt | Hn];
    [rewrite (add_out_of_stock products _ _ _ _ _ _ _ Hpid Hfind
                (or_intror Hlt)); discriminate |].
  destruct (classic_entry st (Cart.getSessionId header generated))
    as [Hentry | Hown];
    [rewrite (add_inherited products st header generated now pid q product
                Hpid Hfind Hin Hn Hentry); discriminate |].
  rewrite (add_in_stock products st header generated now pid q product
             Hpid Hfind Hin Hn Hown).
  cbn zeta. intros Hok. exists product.
  split; [reflexivity | split; [reflexivity | split; [exact Hin |
    split; [exact Hn | split; [exact Hown |]]]]].
  intros line Hline. rewrite Hline in Hok.
  destruct (_ <? _) eqn:Hlt; [discriminate |]. now apply Z.ltb_ge in Hlt.
Qed.

(** The store and the response of a successful [add]. *)
Lemma add_success (products : list Product) (st : Cart.Store)
    (header : option string) (generated now : string)
    (pid : option Cart.IdValue) (q : option Z) :
  Cart.status (Cart.add products st header generated now pid q).2 = 200 ->
  let sid := Cart.getSessionId header generated in
  exists product items',
    Cart.find_product products (Cart.parseInt_id pid) = Some product /\
    Cart.add products st header generated now pid q =
      (<[sid := {| Cart.items := items';
                   Cart.createdAt := created_of st sid now |}]> st,
       Cart.ok (Cart.CartData (Some "Item added to cart") (Some sid) items'
                  (Cart.summarize items' None))) /\
    match Cart.find_line (Some (id product)) (lines_of st sid) with
    | Some line =>
        items' = Cart.set_quantity (id product)
                   (Cart.quantity line + default 1 q) (lines_of st sid)
    | None => items' = (lines_of st sid ++ [snapshot product (default 1 q)])%list
    end.
Proof.
  intros Hok sid.
  destruct (add_success_inv _ _ _ _ _ _ _ Hok)
    as (product & Hpid & Hfind & Hin & Hn & Hown & Hline).
  exists product.
  rewrite (add_in_stock products st header generated now pid q product
             Hpid Hfind Hin Hn Hown).
  cbn zeta. fold sid in Hline |- *.
  destruct (Cart.find_line _ _) as [line|] eqn:Hl.
  - replace (stock product <? _) with false
      by (symmetry; apply Z.ltb_ge; now apply Hline).
    eexists. split; [exact Hfind | split; reflexivity].
  - eexists. split; [exact Hfind | split; reflexivity].
Qed.




(** * Session ids that name inherited members *)

(** X22.  On a session id that names a member of [Object.prototype] and
    has no stored cart, [Get], [Remove] and [Validate] are answered with
    500, [Update] is once its fields are present, and [Add] is once the
    product is found and in stock; [Add] never succeeds; [Clear] answers
    200.  None of these requests changes the store: no cart is ever
    stored under such an id. *)
Theorem inherited_session_faults (products : list Product) (st : Cart.Store)
    (header : option string) (generated : string) :
  Cart.entry st (Cart.getSessionId header generated) = Cart.Inherited ->
  (forall now, Cart.get_cart st header generated now = (st, Cart.fault)) /\
  (forall pid, Cart.remove st header generated pid = (st, Cart.fault)) /\
  Cart.validate products st header generated = (st, Cart.fault) /\
  Cart.clear st header generated = (st, Cart.ok Cart.Cleared) /\
  (forall pid q, Cart.id_truthy pid = true ->
     Cart.update products st header generated pid (Some q) = (st, Cart.fault)) /\
  (forall now pid q,
     Cart.status (Cart.add products st header generated now pid q).2 <> 200 /\
     (Cart.add products st header generated now pid q).1 = st /\
     forall product,
       Cart.id_truthy pid = true ->
       Cart.find_product products (Cart.parseInt_id pid) = Some product ->
       inStock product = true ->
       default 1 q <= stock product ->
       Cart.add products st header generated now pid q = (st, Cart.fault)).
Proof.
  intros Hentry.
  split; [| split; [| split; [| split; [| split]]]].
  - intros now. unfold Cart.get_cart. now rewrite Hentry.
  - intros pid. unfold Cart.remove. now rewrite Hentry.
  - unfold Cart.validate. now rewrite Hentry.
  - unfold Cart.clear. now rewrite (proj1 (entry_inherited _ _ Hentry)).
  - intros pid q Hpid. unfold Cart.update. now rewrite Hpid, Hentry.
  - intros now pid q.
    assert (Hfault : forall product,
              Cart.id_truthy pid = true ->
              Cart.find_product products (Cart.parseInt_id pid) = Some product ->
              inStock product = true ->
              default 1 q <= stock product ->
              Cart.add products st header generated now pid q =
              (st, Cart.fault)).
    { intros product Hpid Hfind Hin Hn.
      exact (add_inherited products st header generated now pid q product
               Hpid Hfind Hin Hn Hentry). }
    split; [| split; [| exact Hfault]].
    + intros Hok.
      destruct (add_success_inv _ _ _ _ _ _ _ Hok)
        as (product & _ & _ & _ & _ & Hown & _).
      exact (Hown Hentry).
    + destruct (Cart.status (Cart.add products st header generated now pid q).2
                =? 200) eqn:Hs.
      * apply Z.eqb_eq in Hs.
        destruct (add_success_inv _ _ _ _ _ _ _ Hs)
          as (product & _ & _ & _ & _ & Hown & _).
        destruct (Hown Hentry).
      * apply Z.eqb_neq in Hs.
        destruct (handle_effect products st
                    (Cart.Add header generated now pid q))
          as [Hsame | [Hok _]]; [exact Hsame | contradiction].
Qed.

(** The session id "constructor" on the empty store. *)
Lemma inherited_session_faults_witness :
  Cart.validate sample_products ∅ (Some "constructor") "g" = (∅, Cart.fault).
Proof.
  assert (Hentry : Cart.entry (∅ : Cart.Store)
                     (Cart.getSessionId (Some "constructor") "g") =
                   Cart.Inherited).
  { unfold Cart.entry. rewrite lookup_empty. reflexivity. }
  destruct (inherited_session_faults sample_products ∅ (Some "constructor") "g"
              Hentry) as (_ & _ & Hvalidate & _).
  exact Hvalidate.
Defined.

(** * Invariants of the reachable stores *)

Lemma In_set_quantity_cases (pid q : Z) (l : list Cart.CartLine)
    (x : Cart.CartLine) :
  In x (Cart.set_quantity pid q l) ->
  In x l \/
  exists line0, In line0 l /\ Cart.productId line0 = pid /\
                x = with_quantity line0 q.
Proof.
  induction l as [|y l IH]; simpl; [intros [] |].
  destruct (Cart.productId y =? pid) eqn:Hy.
  - apply Z.eqb_eq in Hy. intros [<- | Hin].
    + right. exists y. split; [now left | split; [exact Hy | reflexivity]].
    + left. now right.
  - intros [<- | Hin]; [left; now left |].
    destruct (IH Hin) as [Hl | (line0 & H0 & Hid & Hx)].
    + left. now right.
    + right. exists line0. split; [now right | split; assumption].
Qed.

Lemma find_line_In (n : option Z) (l : list Cart.CartLine) (line : Cart.CartLine) :
  Cart.find_line n l = Some line -> n = Some (Cart.productId line) /\ In line l.
Proof.
  destruct n as [pid|]; [| discriminate]. intros Hf.
  destruct (find_line_split _ _ _ Hf) as (pre & post & -> & <- & _).
  split; [reflexivity |]. apply in_app_iff. right. now left.
Qed.

Section CartInvariants.
Variable products : list Product.

(** An invariant of the lines of every cart is kept by a request when the
    lines that the request writes keep it. *)
Lemma handle_lines_step (P : list Cart.CartLine -> Prop) (st : Cart.Store)
    (r : Cart.Request) :
  P [] ->
  (forall old new, written_lines products r old new -> P old -> P new) ->
  (forall sid c, st !! sid = Some c -> P (Cart.items c)) ->
  forall sid c,
    (Cart.handle products st r).1 !! sid = Some c -> P (Cart.items c).
Proof.
  intros Hnil Hstep Hinv.
  destruct (handle_step products st r)
    as [-> | [[_ ->] | (new & created & -> & Hw)]]; [exact Hinv | |].
  - intros sid c [_ Hc]%lookup_delete_Some. exact (Hinv sid c Hc).
  - intros sid c Hc.
    destruct (decide (session_of r = sid)) as [<- | Hne].
    + rewrite lookup_insert_eq in Hc. injection Hc as <-. cbn [Cart.items].
      apply (Hstep _ _ Hw). unfold lines_of.
      destruct (st !! session_of r) as [c0|] eqn:Hc0;
        [exact (Hinv _ c0 Hc0) | exact Hnil].
    + rewrite lookup_insert_ne in Hc by exact Hne. exact (Hinv sid c Hc).
Qed.

Lemma with_quantity_in_stock (line0 : Cart.CartLine) (product : Product) (q : Z) :
  line_in_stock products line0 ->
  Cart.find_product products (Some (Cart.productId line0)) = Some product ->
  q <= stock product ->
  line_in_stock products (with_quantity line0 q).
Proof.
  intros (p & Hp & Hin & _ & Hname & Hprice & Himage) Hfind Hq.
  assert (p = product) as -> by congruence.
  exists product. cbn. auto 10.
Qed.

Lemma written_lines_in_stock (r : Cart.Request) (old new : list Cart.CartLine) :
  written_lines products r old new ->
  (forall x, In x old -> line_in_stock products x) ->
  forall x, In x new -> line_in_stock products x.
Proof.
  destruct r as [h g now | h g now pid q | h g pid q | h g pid | h g | h g];
    cbn [written_lines]; try contradiction.
  - intros (product & Hfind & Hin & Hn & Hnew) Hold x Hx.
    destruct (find_product_id _ _ _ Hfind) as [Hpid _]. rewrite Hpid in Hfind.
    destruct (Cart.find_line _ _) as [line|] eqn:Hline.
    + destruct Hnew as [Hq ->].
      apply In_set_quantity_cases in Hx as [Hx | (line0 & H0 & Hid & ->)];
        [now apply Hold |].
      apply (with_quantity_in_stock line0 product);
        [now apply Hold | now rewrite Hid | exact Hq].
    + subst new. apply in_app_iff in Hx as [Hx | [<- | []]]; [now apply Hold |].
      exists product. cbn. auto 10.
  - destruct q as [n|]; [| contradiction].
    intros (product & line & Hfind & Hline & Hn & ->) Hold x Hx.
    destruct (n =? 0).
    + apply Hold. exact (In_remove_product_In _ _ _ Hx).
    + apply find_line_In in Hline as [Hpid _]. rewrite Hpid in Hfind.
      apply In_set_quantity_cases in Hx as [Hx | (line0 & H0 & Hid & ->)];
        [now apply Hold |].
      apply (with_quantity_in_stock line0 product);
        [now apply Hold | now rewrite Hid | exact Hn].
  - intros -> Hold x Hx. apply Hold. exact (In_remove_product_In _ _ _ Hx).
Qed.

Lemma reachable_in_stock (st : Cart.Store) :
  Cart.reachable products st ->
  forall sid c line,
    st !! sid = Some c -> In line (Cart.items c) ->
    line_in_stock products line.
Proof.
  induction 1 as [| st r _ IH].
  - intros sid c line Hc. now rewrite lookup_empty in Hc.
  - intros sid c line Hc.
    refine (handle_lines_step
              (fun l => forall x, In x l -> line_in_stock products x)
              st r _ _ _ sid c Hc line).
    + intros x [].
    + intros old new. apply written_lines_in_stock.
    + intros sid' c' Hc' x Hx. exact (IH sid' c' x Hc' Hx).
Qed.

Lemma written_lines_positive (r : Cart.Request) (old new : list Cart.CartLine) :
  counted r ->
  written_lines products r old new ->
  (forall x, In x old -> 0 < Cart.quantity x) ->
  forall x, In x new -> 0 < Cart.quantity x.
Proof.
  destruct r as [h g now | h g now pid q | h g pid q | h g pid | h g | h g];
    cbn [written_lines counted]; try contradiction.
  - intros Hq (product & Hfind & Hin & Hn & Hnew) Hold x Hx.
    assert (Hq1 : 1 <= default 1 q) by (destruct q; cbn; [exact Hq | lia]).
    destruct (Cart.find_line _ _) as [line|] eqn:Hline.
    + destruct Hnew as [_ ->].
      apply find_line_In in Hline as [_ Hline]. apply Hold in Hline.
      apply In_set_quantity_cases in Hx as [Hx | (line0 & H0 & Hid & ->)];
        [now apply Hold | cbn; lia].
    + subst new. apply in_app_iff in Hx as [Hx | [<- | []]];
        [now apply Hold | cbn; lia].
  - destruct q as [n|]; [| contradiction].
    intros Hq (product & line & Hfind & Hline & Hn & ->) Hold x Hx.
    destruct (n =? 0) eqn:H0.
    + apply Hold. exact (In_remove_product_In _ _ _ Hx).
    + apply Z.eqb_neq in H0.
      apply In_set_quantity_cases in Hx as [Hx | (line0 & _ & _ & ->)];
        [now apply Hold | cbn; lia].
  - intros _ -> Hold x Hx. apply Hold. exact (In_remove_product_In _ _ _ Hx).
Qed.

Lemma reachable_by_reachable (allowed : Cart.Request -> Prop) (st : Cart.Store) :
  reachable_by products allowed st -> Cart.reachable products st.
Proof. induction 1; now constructor. Qed.

Lemma reachable_by_positive (st : Cart.Store) :
  reachable_by products counted st -> quantities_positive st.
Proof.
  induction 1 as [| st r _ IH Hr].
  - intros sid c line Hc. now rewrite lookup_empty in Hc.
  - intros sid c line Hc.
    refine (handle_lines_step
              (fun l => forall x, In x l -> 0 < Cart.quantity x)
              st r _ _ _ sid c Hc line).
    + intros x [].
    + intros old new. now apply written_lines_positive.
    + intros sid' c' Hc' x Hx. exact (IH sid' c' x Hc' Hx).
Qed.

Lemma validate_fold_valid (lines : list Cart.CartLine)
    (issues : list Cart.Issue) (valid : list Cart.CartLine) :
  (forall x, In x lines -> line_in_stock products x /\ 0 < Cart.quantity x) ->
  fold_left (Cart.validate_line products) lines (issues, valid) =
  (issues, (valid ++ lines)%list).
Proof.
  revert valid. induction lines as [|l lines IH]; intros valid Hl.
  - cbn. now rewrite app_nil_r.
  - cbn [fold_left].
    destruct (Hl l (or_introl eq_refl))
      as [(p & Hp & Hin & Hq & _ & Hprice & _) Hpos].
    assert (Hstep : Cart.validate_line products (issues, valid) l =
                    (issues, JS.push valid l)).
    { unfold Cart.validate_line. rewrite Hp, Hin. cbn [negb orb].
      replace (stock p =? 0) with false by (symmetry; apply Z.eqb_neq; lia).
      replace (stock p <? Cart.quantity l) with false
        by (symmetry; apply Z.ltb_ge; lia).
      rewrite Hprice, Qeq_bool_refl. reflexivity. }
    rewrite Hstep, IH by (intros x Hx; apply Hl; now right).
    unfold JS.push. now rewrite <- app_assoc.
Qed.

(** X17.  In every reachable store each cart line agrees with the catalog:
    its product exists and is flagged in stock, its quantity does not
    exceed the stock, and its name, price and image are the product's.
    Hence a validation never reports a changed price, an insufficient
    stock or a missing product: every issue it reports is "out of stock",
    for a line whose product has stock 0 and whose quantity is at most
    0. *)
Theorem reachable_lines_agree_with_catalog (st : Cart.Store) :
  Cart.reachable products st ->
  (forall sid c line,
     st !! sid = Some c -> In line (Cart.items c) ->
     line_in_stock products line) /\
  (forall header generated issues validItems,
     Cart.body (Cart.validate products st header generated).2 =
       Cart.Invalid issues validItems ->
     forall i, In i issues ->
       exists line p,
         In line (lines_of st (Cart.getSessionId header generated)) /\
         i = Cart.OutOfStock (Cart.productId line) (Cart.line_name line) /\
         Cart.find_product products (Some (Cart.productId line)) = Some p /\
         stock p = 0 /\
         Cart.quantity line <= 0).
Proof.
  intros Hreach. pose proof (reachable_in_stock st Hreach) as Hinv.
  split; [exact Hinv |].
  intros header generated issues validItems. unfold Cart.validate.
  destruct (Cart.entry st _) as [c| |] eqn:Hentry;
    [| discriminate | discriminate].
  apply entry_stored_inv in Hentry as Hc.
  destruct (length (Cart.items c) =? 0)%nat; [discriminate |].
  destruct (validate_fold products (Cart.items c) ([], []))
    as (cls & Hcls & ->).
  cbn [fst snd app].
  destruct (0 <? length (omap fst cls))%nat; [| discriminate].
  cbn [snd Cart.body]. intros [= <- _] i Hi.
  apply list_elem_of_In, list_elem_of_omap in Hi as ([i0 v] & Hin & Hi).
  cbn in Hi. subst i0.
  apply list_elem_of_lookup_1 in Hin as [k Hk].
  destruct (Forall2_lookup_r _ _ _ _ _ Hcls Hk) as (l & Hl & Hst).
  cbn in Hst.
  assert (Hlin : In l (Cart.items c)).
  { apply list_elem_of_In. eapply list_elem_of_lookup_2. exact Hl. }
  destruct (Hinv _ c l Hc Hlin) as (p & Hp & Hstock & Hq & _ & Hprice & _).
  exists l, p. rewrite (lines_of_lookup _ _ _ Hc).
  inversion Hst as [Hf | p' Hf Ho | p' Hf Hi' Hs Hlt | p' Hf Hi' Hs Hle Hne |];
    subst; try (assert (p' = p) as -> by congruence).
  - congruence.
  - assert (stock p = 0) by (destruct Ho; [congruence | assumption]).
    repeat split; try assumption; lia.
  - lia.
  - exfalso. apply Hne. rewrite Hprice. reflexivity.
Qed.

(** X18.  When every [Add] asks for at least one unit and every [Update]
    for none or more, all quantities in the store stay positive, and the
    validation of a cart that has lines succeeds and returns the lines as
    they are stored. *)
Theorem counted_requests_keep_carts_valid (st : Cart.Store) :
  reachable_by products counted st ->
  quantities_positive st /\
  forall header generated c,
    st !! Cart.getSessionId header generated = Some c ->
    Cart.items c <> [] ->
    Cart.validate products st header generated =
    (st, Cart.ok (Cart.CartData (Some "Cart is valid") None (Cart.items c)
                    (Cart.summarize (Cart.items c) None))).
Proof.
  intros Hreach. pose proof (reachable_by_positive st Hreach) as Hpos.
  split; [exact Hpos |].
  intros header generated c Hc Hne. unfold Cart.validate.
  rewrite (entry_stored _ _ _ Hc).
  destruct (Cart.items c) as [|l0 lines] eqn:Hitems; [congruence |].
  cbn [length Nat.eqb]. rewrite validate_fold_valid; [reflexivity |].
  intros x Hx. rewrite <- Hitems in Hx. split.
  - exact (reachable_in_stock st (reachable_by_reachable _ _ Hreach) _ c x Hc Hx).
  - exact (Hpos _ c x Hc Hx).
Qed.

End CartInvariants.

(** The store after one [Add] of two desks. *)
Lemma reachable_lines_agree_with_catalog_witness :
  line_in_stock sample_products (snapshot desk 2).
Proof.
  refine (proj1 (reachable_lines_agree_with_catalog sample_products
                   (Cart.handle sample_products ∅
                      (Cart.Add (Some "s") "g" "t0" (Some (Cart.IdNum 2))
                         (Some 2))).1 _)
            "s" {| Cart.items := [snapshot desk 2]; Cart.createdAt := "t0" |}
            (snapshot desk 2) eq_refl (or_introl eq_refl)).
  apply Cart.reachable_step, Cart.reachable_init.
Defined.

Lemma counted_requests_keep_carts_valid_witness :
  quantities_positive
    (Cart.handle sample_products ∅
       (Cart.Add (Some "s") "g" "t0" (Some (Cart.IdNum 2)) (Some 2))).1.
Proof.
  apply (counted_requests_keep_carts_valid sample_products).
  apply reachable_by_step; [apply reachable_by_init | cbn; lia].
Defined.

(** * Sequences of requests *)


Lemma remove_product_push (pid : Z) (l : list Cart.CartLine)
    (line : Cart.CartLine) :
  Cart.productId line = pid ->
  (forall x, In x l -> Cart.productId x <> pid) ->
  Cart.remove_product (Some pid) (l ++ [line]) = l.
Proof.
  intros Hline Hl. unfold Cart.remove_product.
  rewrite List.filter_app. cbn [List.filter].
  rewrite (proj2 (Z.eqb_eq _ _) Hline). cbn [negb]. rewrite app_nil_r.
  now apply remove_product_absent.
Qed.



Section CartSequences.
Variable products : list Product.

(** X19.  Taking back what was added: when [Add] succeeds for a product
    that the cart has no line of, removing that product afterwards
    succeeds and gives the session the lines it had before; a cart that
    existed is restored as it was, and a session that had none keeps the
    empty cart that [Add] created. *)
Theorem add_then_remove (st : Cart.Store) (header : option string)
    (generated now : string) (pid : option Cart.IdValue) (q : option Z)
    (productId_ : string) :
  let sid := Cart.getSessionId header generated in
  let st1 := (Cart.add products st header generated now pid q).1 in
  let st2 := (Cart.remove st1 header generated productId_).1 in
  Cart.status (Cart.add products st header generated now pid q).2 = 200 ->
  JS.parseInt productId_ = Cart.parseInt_id pid ->
  (forall x, In x (lines_of st sid) ->
             Some (Cart.productId x) <> Cart.parseInt_id pid) ->
  Cart.status (Cart.remove st1 header generated productId_).2 = 200 /\
  lines_of st2 sid = lines_of st sid /\
  (forall c, st !! sid = Some c -> st2 = st) /\
  (st !! sid = None ->
   st2 = <[sid := {| Cart.items := []; Cart.createdAt := now |}]> st).
Proof.
  intros sid st1 st2 Hok Hparse Hfresh. subst st2 st1.
  destruct (add_success _ _ _ _ _ _ _ Hok)
    as (product & items' & Hfind & Hadd & Hitems).
  fold sid in Hadd, Hitems.
  destruct (find_product_id _ _ _ Hfind) as [Hpid _].
  assert (Hnone : forall x, In x (lines_of st sid) ->
                            Cart.productId x <> id product).
  { intros x Hx Heq. apply (Hfresh x Hx). congruence. }
  rewrite (find_line_none _ _ Hnone) in Hitems. subst items'.
  rewrite Hadd. cbn [fst]. unfold Cart.remove. fold sid.
  rewrite (entry_stored _ _ _ (lookup_insert_eq _ _ _)).
  cbn [fst snd Cart.items Cart.createdAt].
  rewrite Hparse, Hpid, remove_product_push by (reflexivity || exact Hnone).
  rewrite insert_insert_eq, lines_of_insert. cbn [Cart.items].
  split; [reflexivity | split; [reflexivity | split]].
  - intros c Hc. unfold lines_of, created_of. rewrite Hc.
    apply insert_id. rewrite Hc. now destruct c.
  - intros Hc. unfold lines_of, created_of. now rewrite Hc.
Qed.


(** X21.  Setting a quantity to zero is removing the product: an
    [Update] with quantity 0 that succeeds leaves the store that [Remove]
    of the same product id leaves, and the two responses carry the same
    lines and the same summary, under the messages "Cart updated" and
    "Item removed from cart".  Unlike [Remove], which succeeds on every
    stored cart, it fails when the cart has no line of the product. *)
Theorem update_zero_is_remove (st : Cart.Store) (header : option string)
    (generated : string) (pid : option Cart.IdValue) (productId_ : string) :
  JS.parseInt productId_ = Cart.parseInt_id pid ->
  (Cart.status (Cart.update products st header generated pid (Some 0)).2 = 200 ->
   (Cart.update products st header generated pid (Some 0)).1 =
     (Cart.remove st header generated productId_).1 /\
   exists items s,
     (Cart.update products st header generated pid (Some 0)).2 =
       Cart.ok (Cart.CartData (Some "Cart updated") None items s) /\
     (Cart.remove st header generated productId_).2 =
       Cart.ok (Cart.CartData (Some "Item removed from cart") None items s)) /\
  ((forall x, In x (lines_of st (Cart.getSessionId header generated)) ->
              Some (Cart.productId x) <> Cart.parseInt_id pid) ->
   Cart.status (Cart.update products st header generated pid (Some 0)).2 <> 200) /\
  (forall c, st !! Cart.getSessionId header generated = Some c ->
   Cart.status (Cart.remove st header generated productId_).2 = 200).
Proof.
  intros Hparse. unfold Cart.update, Cart.remove. rewrite Hparse.
  split; [| split].
  - destruct (negb (Cart.id_truthy pid)); [discriminate |].
    destruct (Cart.entry st _) as [c| |]; [| discriminate | discriminate].
    destruct (Cart.find_line _ _) as [cartItem|]; [| discriminate].
    destruct (Cart.find_product _ _) as [product|]; [| discriminate].
    destruct (_ <? _); [discriminate |].
    intros _. split; [reflexivity |]. do 2 eexists. split; reflexivity.
  - intros Hno.
    destruct (negb (Cart.id_truthy pid)); [discriminate |].
    destruct (Cart.entry st _) as [c| |] eqn:Hentry;
      [| discriminate | discriminate].
    rewrite (lines_of_lookup _ _ _ (entry_stored_inv _ _ _ Hentry)) in Hno.
    destruct (Cart.find_line _ _) as [cartItem|] eqn:Hline; [| discriminate].
    exfalso. apply find_line_In in Hline as [Heq Hin].
    exact (Hno _ Hin (eq_sym Heq)).
  - intros c Hc. now rewrite (entry_stored _ _ _ Hc).
Qed.

End CartSequences.

(** Adding two desks to the empty store and removing them again. *)
Lemma add_then_remove_witness :
  lines_of
    (Cart.remove
       (Cart.add sample_products ∅ (Some "s") "g" "t0"
          (Some (Cart.IdNum 2)) (Some 2)).1
       (Some "s") "g" "2").1 "s" =
  lines_of ∅ "s".
Proof.
  apply (add_then_remove sample_products ∅ (Some "s") "g" "t0"
           (Some (Cart.IdNum 2)) (Some 2) "2");
    [reflexivity | reflexivity | intros x []].
Defined.


(** Setting the desks of the sample cart to zero. *)
Lemma update_zero_is_remove_witness :
  (Cart.update sample_products desk_cart (Some "s") "g"
     (Some (Cart.IdNum 2)) (Some 0)).1 =
  (Cart.remove desk_cart (Some "s") "g" "2").1.
Proof.
  destruct (update_zero_is_remove sample_products desk_cart (Some "s") "g"
              (Some (Cart.IdNum 2)) "2" eq_refl) as [Hsame _].
  exact (proj1 (Hsame eq_refl)).
Defined.
